(** * FileSystem: a shallow embedding of the filesystem facade

    The facade of [filesystem/FileSystem.js] is embedded function by
    function.  JavaScript strings are [string]s, a character standing
    for a code unit, objects used as
    dictionaries with a meaningful key order are association lists,
    entry objects live in a heap of references, thrown errors are the
    [Throw] outcome of a small state-and-error monad, and callbacks that
    outlive the call that created them are defunctionalised. *)

From Stdlib Require Import ZArith String Ascii List Lia Bool DecimalString.
From Stdlib Require Import Permutation Sorted.
From Equations Require Import Equations.
From stdpp Require Import base option list gmap strings.

Import ListNotations.
Local Open Scope string_scope.

(** ** JavaScript string primitives used by the facade *)

Module JsString.

Definition is_slash (c : ascii) : bool := Ascii.eqb c "/".
Definition is_dot (c : ascii) : bool := Ascii.eqb c ".".
Arguments is_slash : simpl never.
Arguments is_dot : simpl never.

(** [s[i]], with [None] for [undefined]. *)
Definition charAt (i : nat) (s : string) : option ascii := String.get i s.

(** [s[s.length - 1]]; the empty string has no last character. *)
Fixpoint lastChar (s : string) : option ascii :=
  match s with
  | EmptyString => None
  | String c EmptyString => Some c
  | String _ t => lastChar t
  end.

Definition is_char (c : ascii) (o : option ascii) : bool :=
  match o with
  | Some d => Ascii.eqb d c
  | None => false
  end.

(** [s.indexOf(p) === 0]. *)
Definition startsWith (p s : string) : bool := String.prefix p s.

(** [s.replace(/\/{2,}/g, "/")]: every maximal run of two or more
    slashes becomes one slash.  [inRun] records that the previous
    character was a slash, whose run has already been given its "/". *)
Fixpoint replaceDupSlash (inRun : bool) (s : string) : string :=
  match s with
  | EmptyString => EmptyString
  | String c t =>
      if is_slash c
      then if inRun then replaceDupSlash true t
           else String c (replaceDupSlash true t)
      else String c (replaceDupSlash false t)
  end.

(** [s.indexOf("..") !== -1]. *)
Fixpoint hasDotDot (s : string) : bool :=
  match s with
  | EmptyString => false
  | String c t =>
      (is_dot c && match t with
                   | String d _ => is_dot d
                   | EmptyString => false
                   end)
      || hasDotDot t
  end.

(** [s.split("/")]; the result is never empty. *)
Fixpoint split (s : string) : list string :=
  match s with
  | EmptyString => [EmptyString]
  | String c t =>
      if is_slash c then EmptyString :: split t
      else match split t with
           | seg :: rest => String c seg :: rest
           | [] => [String c EmptyString]
           end
  end.

(** [segments.join("/")]. *)
Fixpoint join (segments : list string) : string :=
  match segments with
  | [] => EmptyString
  | [seg] => seg
  | seg :: rest => seg ++ "/" ++ join rest
  end.

(** [segments.splice(start, 2)], for its effect on the array. *)
Definition splice2 (start : nat) (segments : list string) : list string :=
  take start segments ++ drop (start + 2) segments.

(** The template literal [`${i}`] of a non-negative integer. *)
Definition ofNat (i : nat) : string := NilEmpty.string_of_uint (Nat.to_uint i).

End JsString.

(** ** Outcomes of a call that may throw *)

Inductive Result (A : Type) : Type :=
| Ok (a : A)
| Throw (msg : string).
Arguments Ok {A} a.
Arguments Throw {A} msg.

(** ** Path normalisation *)

Module Path.
Import JsString.

(** [FileSystem.isAbsolutePath]. *)
Definition isAbsolutePath (fullPath : string) : bool :=
  is_char "/" (charAt 0 fullPath)
  || (is_char ":" (charAt 1 fullPath) && is_char "/" (charAt 2 fullPath)).

Definition _ensureTrailingSlash (path : string) : string :=
  if negb (is_char "/" (lastChar path)) then path ++ "/" else path.

(** The [for] loop of [_normalizePath] that removes ".." segments,
    from the test [i < segments.length] on.  A pass either moves [i]
    forward or removes two segments, so [2 * length - i] decreases. *)
Equations? removeDotDot (path : string) (segments : list string) (i : nat)
  : Result (list string) by wf (2 * length segments - i) lt :=
  removeDotDot path segments i with (lt_dec i (length segments)) => {
    | right _ => Ok segments
    | left Hlt with (String.eqb (nth i segments "") "..") => {
        | false => removeDotDot path segments (i + 1)
        | true with (lt_dec i 2) => {
            | left _ => Throw ("Invalid absolute path: '" ++ path ++ "'")
            | right Hge => removeDotDot path (splice2 (i - 1) segments) (i - 2 + 1)
          }
      }
  }.
Proof.
  - unfold splice2. rewrite length_app, length_take, length_drop. lia.
  - lia.
Qed.

(** [FileSystem.prototype._normalizePath]; [normalizeUNCPaths] is the
    flag it reads from [this._impl]. *)
Definition _normalizePath (normalizeUNCPaths : bool) (path : string)
    (isDirectory : bool) : Result string :=
  if negb (isAbsolutePath path)
  then Throw ("Paths must be absolute: '" ++ path ++ "'")
  else
    let isUNCPath := normalizeUNCPaths && startsWith "//" path in
    let path := replaceDupSlash false path in
    let r :=
      if hasDotDot path
      then match removeDotDot path (split path) 1 with
           | Ok segments => Ok (join segments)
           | Throw msg => Throw msg
           end
      else Ok path in
    match r with
    | Throw msg => Throw msg
    | Ok path =>
        let path := if isDirectory then _ensureTrailingSlash path else path in
        let path := if isUNCPath then "/" ++ path else path in
        Ok path
    end.

End Path.

(** ** Data model *)

(** Objects are compared by identity in the source ([===], [indexOf]);
    an entry or a watched root is therefore a reference into a heap. *)
Abbreviation ref := nat (only parsing).

(** Modelled from the spec: the error taxonomy of
    [filesystem/FileSystemError], a module the facade requires; errors
    are distinguished strings and only their being distinct matters. *)
Module FileSystemError.
Definition NOT_FOUND : string := "NotFound".
Definition TOO_MANY_ENTRIES : string := "TooManyEntries".
Definition ROOT_NOT_WATCHED : string := "RootNotBeingWatched".
End FileSystemError.

(** The stat object handed over by the backend; [mtime] is
    [stat.mtime.getTime()]. *)
Module Stats.
Record t := mk { isFile : bool; isDirectory : bool; mtime : Z }.
End Stats.

(** What an entry caches in [_contents]: the text of a file or the
    children of a directory. *)
Inductive Contents :=
| FileText (text : string)
| Children (entries : list ref).

(** Modelled from the spec: the entry objects of [filesystem/File],
    [filesystem/Directory] and [filesystem/RemoteFile], which the facade
    requires: a path, a kind fixed at creation, a cached stat and cached
    contents. *)
Record Entry := mkEntry {
  fullPath : string;
  isFile : bool;
  _stat : option Stats.t;
  _contents : option Contents
}.

Definition isDirectory (e : Entry) : bool := negb (isFile e).

(** Modelled from the spec: the lifecycle states of
    [filesystem/WatchedRoot] and its fields. *)
Module WatchedRoot.
Inductive Status := INACTIVE | STARTING | ACTIVE.

Record t := mk {
  entry : ref;
  filter : string -> string -> bool;
  filterGitIgnore : option (list string);
  status : Status
}.

Definition set_status (s : Status) (w : t) : t :=
  mk (entry w) (filter w) (filterGitIgnore w) s.
End WatchedRoot.

(** A change record of the queue [_externalChanges]; a [null] path
    stands for "everything changed". *)
Record ChangeInfo := mkChange {
  change_path : option string;
  change_stat : option Stats.t
}.

(** *** Callbacks

    A callback that is stored or handed to the backend is represented by
    the closure it is in the source, named after the function that
    creates it, together with the variables it captures. *)

(** Callbacks [function (added, removed)] of [_handleDirectoryChange]. *)
Inductive DirCallback :=
| DcClient (id : nat)
    (** supplied by a caller of [_handleDirectoryChange] *)
| DcExternalChange (entry : ref) (stat : option Stats.t)
    (** created by [_handleExternalChange] for a directory *).

(** Callbacks [function (err)]. *)
Inductive Callback :=
| CbClient (id : nat)
    (** supplied by a client of [watch] or [unwatch] *)
| CbNone
    (** [function () {}], the default of [watch] and [unwatch] *)
| CbWatch (fullPath : string) (entry : ref) (watchedRoot : ref) (callback : Callback)
    (** created by [watch] *)
| CbUnwatch (fullPath : string) (entry : ref) (callback : Callback)
    (** created by [unwatch] *)
| CbUnwatchAll (watchedRoot : ref)
    (** created by [_unwatchAll] *)
| CbUnwatchEntry (entry : ref) (callback : Callback)
    (** created by [_unwatchEntry] around its callback *)
| CbWatchOrUnwatch (join : ref)
    (** [watchOrUnwatchCallback] of [_handleDirectoryChange], closed over
        the counter it shares with its siblings *).

(** The callback handed to [directory.getContents]. *)
Inductive ContentsCallback :=
| CcDirectoryChange (directory : ref) (oldContents : option (list ref))
    (callback : DirCallback).

(** The variables shared by the [watchOrUnwatchCallback]s of one
    directory change. *)
Record Join := mkJoin {
  counter : Z;
  addedEntries : option (list ref);
  removedEntries : option (list ref);
  join_callback : DirCallback
}.

Inductive WatchCommand := watchPath | unwatchPath.

(** A request of the queue [_watchRequests]: [fn] calls the backend
    command on the entry, [cb] receives the result. *)
Record WatchRequest := mkRequest {
  req_command : WatchCommand;
  req_entry : ref;
  req_filterGitIgnore : option (list string);
  req_cb : Callback
}.

(** *** Observable effects, in the order they happen *)
Inductive Effect :=
| TriggerChange (entry : option ref) (added removed : option (list ref))
    (** [this.trigger("change", entry, added, removed)] *)
| TriggerRename (oldPath newPath : string)
| CallClient (id : nat) (err : option string)
    (** a client callback is called with [err] *)
| CallDirClient (id : nat) (added removed : option (list ref))
    (** a client callback is called with the two change sets *)
| ImplCall (command : WatchCommand) (path : string)
    (filterGitIgnore : option (list string))
    (** [impl.watchPath] or [impl.unwatchPath] is called *)
| GetContents (directory : ref) (callback : ContentsCallback)
    (** [directory.getContents(callback)] is called *)
| ConsoleError (msg : string)
| ConsoleWarn (msg : string).

(** *** The backend *)

(** [impl.pathLib], the path library the backend publishes. *)
Record PathLib := mkPathLib {
  normalize : string -> string;
  dirname : string -> string;
  extname : string -> string;
  basename : string -> string -> string;
  pjoin : string -> string -> string
}.

(** The promise returned by [impl.existsAsync]. *)
Inductive Promise (A : Type) :=
| Resolved (a : A)
| Rejected (err : string).
Arguments Resolved {A} a.
Arguments Rejected {A} err.

(** The part of the backend the facade calls for an answer:
    [stat] gives the arguments [(err, stat)] its callback receives. *)
Record Impl := mkImpl {
  normalizeUNCPaths : bool;
  pathLib : PathLib;
  stat : string -> option string * option Stats.t;
  existsAsync : string -> Promise bool
}.

(** *** Protocol adapters *)
Record Adapter := mkAdapter {
  priority : option Z;
  fileImpl : option string;
  canRead : option (option string -> bool)
}.

(** *** The facade object *)
Record FileSystem := mkFileSystem {
  _impl : Impl;
  (** every entry object created so far, by reference *)
  entries : list Entry;
  (** every watched-root object created so far, by reference *)
  roots : list WatchedRoot.t;
  (** the counters of the directory changes under way *)
  joins : list Join;
  (** Modelled from the spec: the Entry Index of [filesystem/FileIndex],
      a mapping from path to entry with unique keys. *)
  _index : gmap string ref;
  (** [_watchedRoots]: an object used as a dictionary, whose keys are
      enumerated in the order they were added *)
  _watchedRoots : list (string * ref);
  _watchRequests : list WatchRequest;
  _externalChanges : list ChangeInfo;
  _activeChangeCount : Z;
  (** the module variable [_fileProtocolPlugins] *)
  _fileProtocolPlugins : list (string * list Adapter);
  trace : list Effect
}.

(** ** State passing *)

Definition set_entries (v : list Entry) (fs : FileSystem) : FileSystem :=
  mkFileSystem (_impl fs) v (roots fs) (joins fs) (_index fs) (_watchedRoots fs)
    (_watchRequests fs) (_externalChanges fs) (_activeChangeCount fs)
    (_fileProtocolPlugins fs) (trace fs).
Definition set_roots (v : list WatchedRoot.t) (fs : FileSystem) : FileSystem :=
  mkFileSystem (_impl fs) (entries fs) v (joins fs) (_index fs) (_watchedRoots fs)
    (_watchRequests fs) (_externalChanges fs) (_activeChangeCount fs)
    (_fileProtocolPlugins fs) (trace fs).
Definition set_joins (v : list Join) (fs : FileSystem) : FileSystem :=
  mkFileSystem (_impl fs) (entries fs) (roots fs) v (_index fs) (_watchedRoots fs)
    (_watchRequests fs) (_externalChanges fs) (_activeChangeCount fs)
    (_fileProtocolPlugins fs) (trace fs).
Definition set_index (v : gmap string ref) (fs : FileSystem) : FileSystem :=
  mkFileSystem (_impl fs) (entries fs) (roots fs) (joins fs) v (_watchedRoots fs)
    (_watchRequests fs) (_externalChanges fs) (_activeChangeCount fs)
    (_fileProtocolPlugins fs) (trace fs).
Definition set_watchedRoots (v : list (string * ref)) (fs : FileSystem) : FileSystem :=
  mkFileSystem (_impl fs) (entries fs) (roots fs) (joins fs) (_index fs) v
    (_watchRequests fs) (_externalChanges fs) (_activeChangeCount fs)
    (_fileProtocolPlugins fs) (trace fs).
Definition set_watchRequests (v : list WatchRequest) (fs : FileSystem) : FileSystem :=
  mkFileSystem (_impl fs) (entries fs) (roots fs) (joins fs) (_index fs) (_watchedRoots fs)
    v (_externalChanges fs) (_activeChangeCount fs)
    (_fileProtocolPlugins fs) (trace fs).
Definition set_externalChanges (v : list ChangeInfo) (fs : FileSystem) : FileSystem :=
  mkFileSystem (_impl fs) (entries fs) (roots fs) (joins fs) (_index fs) (_watchedRoots fs)
    (_watchRequests fs) v (_activeChangeCount fs)
    (_fileProtocolPlugins fs) (trace fs).
Definition set_activeChangeCount (v : Z) (fs : FileSystem) : FileSystem :=
  mkFileSystem (_impl fs) (entries fs) (roots fs) (joins fs) (_index fs) (_watchedRoots fs)
    (_watchRequests fs) (_externalChanges fs) v
    (_fileProtocolPlugins fs) (trace fs).
Definition set_fileProtocolPlugins (v : list (string * list Adapter))
    (fs : FileSystem) : FileSystem :=
  mkFileSystem (_impl fs) (entries fs) (roots fs) (joins fs) (_index fs) (_watchedRoots fs)
    (_watchRequests fs) (_externalChanges fs) (_activeChangeCount fs)
    v (trace fs).
Definition set_trace (v : list Effect) (fs : FileSystem) : FileSystem :=
  mkFileSystem (_impl fs) (entries fs) (roots fs) (joins fs) (_index fs) (_watchedRoots fs)
    (_watchRequests fs) (_externalChanges fs) (_activeChangeCount fs)
    (_fileProtocolPlugins fs) v.

(** A method that may throw returns its outcome and the state it leaves
    behind: what it has mutated before throwing stays mutated. *)
Definition M (A : Type) : Type := FileSystem -> Result A * FileSystem.

Definition ret {A} (a : A) : M A := fun fs => (Ok a, fs).
Definition throw {A} (msg : string) : M A := fun fs => (Throw msg, fs).
Definition bind {A B} (m : M A) (k : A -> M B) : M B :=
  fun fs =>
    match m fs with
    | (Ok a, fs') => k a fs'
    | (Throw msg, fs') => (Throw msg, fs')
    end.
(** A method that cannot throw, run for its effect. *)
Definition run (f : FileSystem -> FileSystem) : M unit := fun fs => (Ok tt, f fs).
Definition liftResult {A} (r : Result A) : M A :=
  match r with
  | Ok a => ret a
  | Throw msg => throw msg
  end.

Declare Scope fs_scope.
Delimit Scope fs_scope with fs.
Notation "'let*' x ':=' m 'in' k" := (bind m (fun x => k))
  (at level 10, x name, m at level 100, k at level 200) : fs_scope.
Notation "'let*' '_' ':=' m 'in' k" := (bind m (fun _ => k))
  (at level 10, m at level 100, k at level 200) : fs_scope.

(** [array.forEach(f)]: a throw leaves the rest unvisited. *)
Fixpoint forEach {A} (f : A -> M unit) (l : list A) : M unit :=
  match l with
  | [] => ret tt
  | x :: rest => bind (f x) (fun _ => forEach f rest)
  end.

(** [array.forEach(f)] for an [f] that cannot throw. *)
Definition forEach_ {A} (f : A -> FileSystem -> FileSystem) (l : list A)
    (fs : FileSystem) : FileSystem :=
  fold_left (fun fs x => f x fs) l fs.

(** A string or [null] tested as a condition. *)
Definition truthy (o : option string) : bool :=
  match o with
  | Some s => negb (String.eqb s "")
  | None => false
  end.

(** ** Dictionaries keyed by strings, in insertion order *)
Module Dict.

Fixpoint get {V : Type} (key : string) (d : list (string * V)) : option V :=
  match d with
  | [] => None
  | (k, v) :: rest => if String.eqb k key then Some v else get key rest
  end.

(** [d[key] = v]: an existing key keeps its place. *)
Fixpoint set {V : Type} (key : string) (v : V) (d : list (string * V))
    : list (string * V) :=
  match d with
  | [] => [(key, v)]
  | (k, w) :: rest =>
      if String.eqb k key then (k, v) :: rest else (k, w) :: set key v rest
  end.

(** [delete d[key]]. *)
Fixpoint remove {V : Type} (key : string) (d : list (string * V))
    : list (string * V) :=
  match d with
  | [] => []
  | (k, w) :: rest =>
      if String.eqb k key then rest else (k, w) :: remove key rest
  end.

(** [Object.keys(d)]. *)
Definition keys {V : Type} (d : list (string * V)) : list string := map fst d.

(** The names every plain object [{}] inherits from [Object.prototype].
    Read through [d[key]], such a name gives the inherited member, a
    function or, for "__proto__", the prototype itself, where [d] has no
    property of its own under it. *)
Definition inheritedNames : list string :=
  ["constructor"; "__defineGetter__"; "__defineSetter__"; "hasOwnProperty";
   "__lookupGetter__"; "__lookupSetter__"; "isPrototypeOf";
   "propertyIsEnumerable"; "toString"; "valueOf"; "__proto__";
   "toLocaleString"].

Definition inherited (key : string) : bool :=
  existsb (String.eqb key) inheritedNames.

(** What [d[key]] reads from a plain object [d]. *)
Inductive Member (V : Type) : Type :=
| Own (v : V)
    (** the property of [d] itself *)
| Inherited
    (** a member of [Object.prototype] *)
| Missing
    (** [undefined] *).
Arguments Own {V} v.
Arguments Inherited {V}.
Arguments Missing {V}.

Definition member {V : Type} (key : string) (d : list (string * V)) : Member V :=
  match get key d with
  | Some v => Own v
  | None => if inherited key then Inherited else Missing
  end.

End Dict.

Local Open Scope fs_scope.

(** ** The facade *)

Import JsString Path.

(** [const MAX_DEDUPE_NUMBER = 1000]. *)
Definition MAX_DEDUPE_NUMBER : nat := 1000.

(** *** Entry objects *)

Definition emit (e : Effect) (fs : FileSystem) : FileSystem :=
  set_trace (trace fs ++ [e]) fs.

(** [new Constructor(path, fileSystem)]: a fresh object, whose
    reference differs from every reference handed out before. *)
Definition newEntry (e : Entry) (fs : FileSystem) : ref * FileSystem :=
  (length (entries fs), set_entries (entries fs ++ [e]) fs).

Definition updateEntry (f : Entry -> Entry) (r : ref) (fs : FileSystem) : FileSystem :=
  set_entries (alter f r (entries fs)) fs.

(** [entry.fullPath]. *)
Definition pathOf (fs : FileSystem) (r : ref) : string :=
  match entries fs !! r with
  | Some e => fullPath e
  | None => ""
  end.

Definition set_stat (stat : option Stats.t) (e : Entry) : Entry :=
  mkEntry (fullPath e) (isFile e) stat (_contents e).

Definition cleared (e : Entry) : Entry :=
  mkEntry (fullPath e) (isFile e) None None.

(** The entries a directory has cached as its contents. *)
Definition childrenOf (e : Entry) : option (list ref) :=
  match _contents e with
  | Some (Children l) => Some l
  | _ => None
  end.

(** Modelled from the spec: [entry._clearCachedData(preventCascade)] of
    the entry classes, which invalidates the cached stat and contents of
    the entry; the entry stays in the index.  Without [preventCascade] a
    directory also clears the caches of its immediate children, as the
    comments at the call sites say. *)
Definition _clearCachedData (preventCascade : bool) (r : ref) (fs : FileSystem)
    : FileSystem :=
  match entries fs !! r with
  | None => fs
  | Some e =>
      let children :=
        if isDirectory e && negb preventCascade
        then match childrenOf e with Some l => l | None => [] end
        else [] in
      forEach_ (updateEntry cleared) children (updateEntry cleared r fs)
  end.

(** *** The entry index *)

(** Modelled from the spec: [getEntry(path)→Entry|null] of the Entry
    Index. *)
Definition getEntry (path : string) (fs : FileSystem) : option ref :=
  _index fs !! path.

(** Modelled from the spec: [addEntry(entry)] of the Entry Index, which
    files the entry under its own path. *)
Definition addEntry (r : ref) (fs : FileSystem) : FileSystem :=
  set_index (<[pathOf fs r := r]> (_index fs)) fs.

(** Modelled from the spec: [removeEntry(entry)] of the Entry Index. *)
Definition removeEntry (r : ref) (fs : FileSystem) : FileSystem :=
  set_index (base.delete (pathOf fs r) (_index fs)) fs.

(** The entries of the index, as [visitAll] meets them. *)
Definition indexed (fs : FileSystem) : list ref :=
  (map_to_list (_index fs)).*2.

(** Modelled from the spec: [visitAll(fn)] of the Entry Index, which
    calls [fn] on every entry of a snapshot of the index. *)
Definition visitAll (fn : ref -> FileSystem -> FileSystem) (fs : FileSystem)
    : FileSystem :=
  forEach_ fn (indexed fs) fs.

(** *** Events *)

Definition _fireRenameEvent (oldPath newPath : string) (fs : FileSystem) : FileSystem :=
  emit (TriggerRename oldPath newPath) fs.

Definition _fireChangeEvent (entry : option ref) (added removed : option (list ref))
    (fs : FileSystem) : FileSystem :=
  emit (TriggerChange entry added removed) fs.

(** *** Watched roots *)

Definition _findWatchedRootForPath (fullPath : string) (fs : FileSystem) : option ref :=
  match List.find (fun kv => startsWith (fst kv) fullPath) (_watchedRoots fs) with
  | Some (_, watchedRoot) => Some watchedRoot
  | None => None
  end.

Definition statusOf (fs : FileSystem) (watchedRoot : ref) : option WatchedRoot.Status :=
  WatchedRoot.status <$> roots fs !! watchedRoot.

(** [root.status === STARTING || root.status === ACTIVE]. *)
Definition startingOrActive (s : option WatchedRoot.Status) : bool :=
  match s with
  | Some WatchedRoot.STARTING | Some WatchedRoot.ACTIVE => true
  | _ => false
  end.

(** *** The queue of watch and unwatch requests *)

(** [request.fn]: the backend command is called on the entry. *)
Definition startRequest (request : WatchRequest) (fs : FileSystem) : FileSystem :=
  emit (ImplCall (req_command request) (pathOf fs (req_entry request))
          (req_filterGitIgnore request)) fs.

Definition _dequeueWatchRequest (fs : FileSystem) : FileSystem :=
  match _watchRequests fs with
  | request :: _ => startRequest request fs
  | [] => fs
  end.

Definition _enqueueWatchRequest (request : WatchRequest) (fs : FileSystem) : FileSystem :=
  let fs := set_watchRequests (_watchRequests fs ++ [request]) fs in
  if Nat.eqb (length (_watchRequests fs)) 1 then _dequeueWatchRequest fs else fs.

(** A value that is either a boolean or a watched root object, for the
    variable [watchingChildRoot] of [watch]. *)
Inductive JsValue :=
| JsBoolean (b : bool)
| JsWatchedRoot (watchedRoot : ref).

Definition jsTruthy (v : JsValue) : bool :=
  match v with
  | JsBoolean b => b
  | JsWatchedRoot _ => true
  end.

(** [v.status]: a boolean has no such property, the access gives
    [undefined]. *)
Definition jsStatus (fs : FileSystem) (v : JsValue) : option WatchedRoot.Status :=
  match v with
  | JsBoolean _ => None
  | JsWatchedRoot r => statusOf fs r
  end.

(** [array.indexOf(r) !== -1], on references. *)
Definition includes (r : ref) (l : list ref) : bool := existsb (Nat.eqb r) l.

(** [stat && oldStat && stat.mtime.getTime() <= oldStat.mtime.getTime()]. *)
Definition notNewer (stat oldStat : option Stats.t) : bool :=
  match stat, oldStat with
  | Some s, Some o => (Stats.mtime s <=? Stats.mtime o)%Z
  | _, _ => false
  end.

Definition set_counter (c : Z) (j : Join) : Join :=
  mkJoin c (addedEntries j) (removedEntries j) (join_callback j).

Section Facade.

(** [entry._isWatched()] is a method of [filesystem/FileSystemEntry],
    a module the facade requires; it is a parameter here. *)
Variable _isWatched : FileSystem -> ref -> bool.

(** So are its getters [entry.name] and [entry.parentPath]. *)
Variable name : Entry -> string.
Variable parentPath : Entry -> string.

(** [Phoenix.VFS.getPathForVirtualServingURL] and
    [PathUtils.parseUrl(path).protocol] belong to the platform and to a
    third-party library; they are parameters. *)
Variable getPathForVirtualServingURL : string -> option string.
Variable parseUrlProtocol : string -> string.

(** **** Calling a callback *)

Definition applyDirCallback (callback : DirCallback)
    (added removed : option (list ref)) (fs : FileSystem) : FileSystem :=
  match callback with
  | DcClient id => emit (CallDirClient id added removed) fs
  | DcExternalChange entry stat =>
      let fs := updateEntry (set_stat stat) entry fs in
      if _isWatched fs entry
      then _fireChangeEvent (Some entry) added removed fs
      else fs
  end.

(** The test [child.fullPath.indexOf(entry.fullPath) === 0] of the
    visitors. *)
Definition isUnder (fs : FileSystem) (entry child : ref) : bool :=
  startsWith (pathOf fs entry) (pathOf fs child).

Fixpoint applyCallback (callback : Callback) (err : option string)
    (fs : FileSystem) : FileSystem :=
  match callback with
  | CbClient id => emit (CallClient id err) fs
  | CbNone => fs
  | CbWatch fullPath entry watchedRoot callback =>
      if truthy err then
        let fs := emit (ConsoleWarn ("Failed to watch root: " ++ pathOf fs entry)) fs in
        let fs := set_watchedRoots (Dict.remove fullPath (_watchedRoots fs)) fs in
        applyCallback callback err fs
      else
        let fs := set_roots (alter (WatchedRoot.set_status WatchedRoot.ACTIVE)
                               watchedRoot (roots fs)) fs in
        applyCallback callback None fs
  | CbUnwatch fullPath entry callback =>
      let fs := set_watchedRoots (Dict.remove fullPath (_watchedRoots fs)) fs in
      let fs := visitAll (fun child fs =>
                            if isUnder fs entry child then removeEntry child fs else fs) fs in
      if truthy err then
        let fs := emit (ConsoleWarn ("Failed to unwatch root: " ++ pathOf fs entry)) fs in
        applyCallback callback err fs
      else applyCallback callback None fs
  | CbUnwatchAll watchedRoot =>
      match roots fs !! watchedRoot with
      | Some w =>
          emit (ConsoleWarn ("Watching disabled for "
                             ++ pathOf fs (WatchedRoot.entry w))) fs
      | None => fs
      end
  | CbUnwatchEntry entry callback =>
      let fs := visitAll (fun child fs =>
                            if isUnder fs entry child
                            then _clearCachedData true child fs else fs) fs in
      applyCallback callback err fs
  | CbWatchOrUnwatch join =>
      let fs :=
        if truthy err
        then emit (ConsoleError
                     ("FileSystem error in _handleDirectoryChange after watch/unwatch entries: "
                      ++ default "" err)) fs
        else fs in
      match joins fs !! join with
      | None => fs
      | Some j =>
          let c := (counter j - 1)%Z in
          let fs := set_joins (<[join := set_counter c j]> (joins fs)) fs in
          if (c =? 0)%Z
          then applyDirCallback (join_callback j) (addedEntries j) (removedEntries j) fs
          else fs
      end
  end.

(** The function [_dequeueWatchRequest] hands to [request.fn], which
    the backend calls when the command of the request at the head of
    the queue has finished. *)
Definition requestCb (err : option string) (fs : FileSystem) : FileSystem :=
  match _watchRequests fs with
  | [] => fs
  | request :: _ =>
      let fs := applyCallback (req_cb request) err fs in
      let fs := set_watchRequests (tail (_watchRequests fs)) fs in
      _dequeueWatchRequest fs
  end.

(** **** Watching and unwatching an entry beneath a watched root *)

Definition _watchOrUnwatchEntry (entry watchedRoot : ref) (callback : Callback)
    (shouldWatch : bool) (fs : FileSystem) : FileSystem :=
  match roots fs !! watchedRoot with
  | None => fs
  | Some w =>
      let commandName := if shouldWatch then watchPath else unwatchPath in
      let filterGitIgnore := WatchedRoot.filterGitIgnore w in
      if negb (Nat.eqb entry (WatchedRoot.entry w))
      then applyCallback callback None fs
      else _enqueueWatchRequest
             (mkRequest commandName entry filterGitIgnore callback) fs
  end.

Definition _watchEntry (entry watchedRoot : ref) (callback : Callback)
    (fs : FileSystem) : FileSystem :=
  _watchOrUnwatchEntry entry watchedRoot callback true fs.

Definition _unwatchEntry (entry watchedRoot : ref) (callback : Callback)
    (fs : FileSystem) : FileSystem :=
  _watchOrUnwatchEntry entry watchedRoot (CbUnwatchEntry entry callback) false fs.

(** **** The change barrier *)

Definition _beginChange (fs : FileSystem) : FileSystem :=
  set_activeChangeCount (_activeChangeCount fs + 1)%Z fs.

(** **** Directory changes *)

(** [_handleDirectoryChange] up to its call of [getContents]. *)
Definition _handleDirectoryChange (directory : ref) (callback : DirCallback)
    (fs : FileSystem) : FileSystem :=
  let oldContents :=
    match entries fs !! directory with
    | Some d => childrenOf d
    | None => None
    end in
  let fs := _clearCachedData false directory fs in
  emit (GetContents directory (CcDirectoryChange directory oldContents callback)) fs.

(** The function [_handleDirectoryChange] hands to [getContents],
    called with the new listing [contents]. *)
Definition applyContentsCallback (k : ContentsCallback) (contents : list ref)
    (fs : FileSystem) : FileSystem :=
  match k with
  | CcDirectoryChange directory oldContents callback =>
      let addedEntries :=
        match oldContents with
        | Some old => Some (List.filter (fun entry => negb (includes entry old)) contents)
        | None => None
        end in
      let removedEntries :=
        match oldContents with
        | Some old => Some (List.filter (fun entry => negb (includes entry contents)) old)
        | None => None
        end in
      let watchedRoot := _findWatchedRootForPath (pathOf fs directory) fs in
      let accepted :=
        match watchedRoot with
        | Some r =>
            match roots fs !! r, entries fs !! directory with
            | Some w, Some d => WatchedRoot.filter w (name d) (parentPath d)
            | _, _ => false
            end
        | None => false
        end in
      let notWatched fs :=
        let fs := visitAll (fun entry fs =>
                              if isUnder fs directory entry
                              then _clearCachedData true entry fs else fs) fs in
        applyDirCallback callback addedEntries removedEntries fs in
      match watchedRoot with
      | None => notWatched fs
      | Some r =>
          if negb accepted then notWatched fs
          else
            let addedCounter := match addedEntries with Some l => length l | None => 0 end in
            let removedCounter := match removedEntries with Some l => length l | None => 0 end in
            let counter := Z.of_nat (addedCounter + removedCounter) in
            if (counter =? 0)%Z
            then applyDirCallback callback addedEntries removedEntries fs
            else
              let join := length (joins fs) in
              let fs := set_joins (joins fs ++ [mkJoin counter addedEntries removedEntries callback]) fs in
              let fs := forEach_ (fun entry => _watchEntry entry r (CbWatchOrUnwatch join))
                          (match addedEntries with Some l => l | None => [] end) fs in
              forEach_ (fun entry => _unwatchEntry entry r (CbWatchOrUnwatch join))
                (match removedEntries with Some l => l | None => [] end) fs
      end
  end.

(** **** External changes *)

Definition get : M FileSystem := fun fs => (Ok fs, fs).

Definition _handleExternalChange (path : option string) (stat : option Stats.t)
    : M unit :=
  match path with
  | Some p =>
      if truthy path then
        let* fs := get in
        let* path := liftResult (_normalizePath (normalizeUNCPaths (_impl fs)) p false) in
        match getEntry path fs with
        | Some entry =>
            match entries fs !! entry with
            | Some e =>
                let oldStat := _stat e in
                if isFile e then
                  if negb (notNewer stat oldStat) then
                    run (fun fs =>
                           let fs := _clearCachedData false entry fs in
                           let fs := updateEntry (set_stat stat) entry fs in
                           _fireChangeEvent (Some entry) None None fs)
                  else ret tt
                else run (_handleDirectoryChange entry (DcExternalChange entry stat))
            | None => ret tt
            end
        | None => ret tt
        end
      else
        run (fun fs => _fireChangeEvent None None None
                         (visitAll (_clearCachedData true) fs))
  | None =>
      run (fun fs => _fireChangeEvent None None None
                       (visitAll (_clearCachedData true) fs))
  end.

Definition _triggerExternalChangesNow : M unit :=
  let* fs := get in
  let* _ := forEach (fun info => _handleExternalChange (change_path info) (change_stat info))
              (_externalChanges fs) in
  run (set_externalChanges []).

Definition _enqueueExternalChange (path : option string) (stat : option Stats.t)
    : M unit :=
  let* _ := run (fun fs => set_externalChanges
                             (_externalChanges fs ++ [mkChange path stat]) fs) in
  let* fs := get in
  if (_activeChangeCount fs =? 0)%Z then _triggerExternalChangesNow else ret tt.

Definition _endChange : M unit :=
  let* _ := run (fun fs => set_activeChangeCount (_activeChangeCount fs - 1)%Z fs) in
  let* fs := get in
  let* _ := (if (_activeChangeCount fs <? 0)%Z
             then run (emit (ConsoleError "FileSystem _activeChangeCount has fallen below zero!"))
             else ret tt) in
  if (_activeChangeCount fs =? 0)%Z then _triggerExternalChangesNow else ret tt.

Definition clearAllCaches : M unit := _handleExternalChange None None.

(** **** Watch roots *)

(** [new WatchedRoot(entry, filter, filterGitIgnore)]. *)
Definition newWatchedRoot (w : WatchedRoot.t) (fs : FileSystem) : ref * FileSystem :=
  (length (roots fs), set_roots (roots fs ++ [w]) fs).

(** [watch]; its first lines, which accept the callback in the place
    of [filterGitIgnore], concern the calling convention only. *)
Definition watch (entry : ref) (filter : string -> string -> bool)
    (filterGitIgnore : option (list string)) (callback : option Callback)
    (fs : FileSystem) : FileSystem :=
  let fullPath := pathOf fs entry in
  let callback := default CbNone callback in
  let watchingParentRoot := _findWatchedRootForPath fullPath fs in
  if match watchingParentRoot with
     | Some r => startingOrActive (statusOf fs r)
     | None => false
     end
  then applyCallback callback (Some "A parent of this root is already watched") fs
  else
    let watchingChildRoot :=
      JsBoolean
        (existsb (fun path =>
                    match Dict.get path (_watchedRoots fs) with
                    | Some r =>
                        match roots fs !! r with
                        | Some watchedRoot =>
                            let watchedPath := pathOf fs (WatchedRoot.entry watchedRoot) in
                            startsWith fullPath watchedPath
                        | None => false
                        end
                    | None => false
                    end)
           (Dict.keys (_watchedRoots fs))) in
    if jsTruthy watchingChildRoot
       && startingOrActive (jsStatus fs watchingChildRoot)
    then applyCallback callback (Some "A child of this root is already watched") fs
    else
      let (watchedRoot, fs) :=
        newWatchedRoot (WatchedRoot.mk entry filter filterGitIgnore WatchedRoot.INACTIVE) fs in
      let fs := set_watchedRoots (Dict.set fullPath watchedRoot (_watchedRoots fs)) fs in
      let fs := set_roots (alter (WatchedRoot.set_status WatchedRoot.STARTING)
                             watchedRoot (roots fs)) fs in
      _watchEntry entry watchedRoot (CbWatch fullPath entry watchedRoot callback) fs.

Definition unwatch (entry : ref) (callback : option Callback) (fs : FileSystem)
    : FileSystem :=
  let fullPath := pathOf fs entry in
  let callback := default CbNone callback in
  match Dict.get fullPath (_watchedRoots fs) with
  | None => applyCallback callback (Some FileSystemError.ROOT_NOT_WATCHED) fs
  | Some watchedRoot =>
      let fs := set_roots (alter (WatchedRoot.set_status WatchedRoot.INACTIVE)
                             watchedRoot (roots fs)) fs in
      _unwatchEntry entry watchedRoot (CbUnwatch fullPath entry callback) fs
  end.

Definition _unwatchAll : M unit :=
  let* _ := run (emit (ConsoleWarn "File watchers went offline!")) in
  let* fs := get in
  let* _ := run (forEach_
                   (fun path fs =>
                      match Dict.get path (_watchedRoots fs) with
                      | Some watchedRoot =>
                          let fs := set_roots (alter (WatchedRoot.set_status WatchedRoot.INACTIVE)
                                                 watchedRoot (roots fs)) fs in
                          let fs := set_watchedRoots (Dict.remove path (_watchedRoots fs)) fs in
                          match roots fs !! watchedRoot with
                          | Some w =>
                              _unwatchEntry (WatchedRoot.entry w) watchedRoot
                                (CbUnwatchAll watchedRoot) fs
                          | None => fs
                          end
                      | None => fs
                      end)
                   (Dict.keys (_watchedRoots fs))) in
  _handleExternalChange None None.

(** **** Protocol adapters *)

Definition priorityOf (a : Adapter) : Z := default 0%Z (priority a).

(** [adapters.sort((a, b) => (b.priority || 0) - (a.priority || 0))]:
    descending by priority, adapters of equal priority keep their
    order. *)
Fixpoint insertSorted (a : Adapter) (l : list Adapter) : list Adapter :=
  match l with
  | [] => [a]
  | b :: rest =>
      if (priorityOf b <? priorityOf a)%Z then a :: b :: rest
      else b :: insertSorted a rest
  end.

Definition sortAdapters (l : list Adapter) : list Adapter :=
  fold_left (fun acc a => insertSorted a acc) l [].

(** [registerProtocolAdapter].  The module variable
    [_fileProtocolPlugins] is a plain object: for a protocol that names
    a member of [Object.prototype] and has no adapters yet,
    [_fileProtocolPlugins[protocol] || []] is that member, which has no
    [push], and the call throws before anything is stored. *)
Definition registerProtocolAdapter (protocol : string) (adapter : Adapter) : M unit :=
  if truthy (Some protocol) then
    let* fs := get in
    let store adapters :=
      run (set_fileProtocolPlugins
             (Dict.set protocol (sortAdapters (adapters ++ [adapter]))
                (_fileProtocolPlugins fs))) in
    match Dict.member protocol (_fileProtocolPlugins fs) with
    | Dict.Own adapters => store adapters
    | Dict.Missing => store []
    | Dict.Inherited => throw "TypeError: adapters.push is not a function"
    end
  else ret tt.

(** [_getProtocolAdapter].  Where [_fileProtocolPlugins[protocol]] is a
    member of [Object.prototype], [_.forEach] finds no element in it to
    visit, and no adapter is selected. *)
Definition _getProtocolAdapter (protocol : string) (filePath : option string)
    (fs : FileSystem) : option Adapter :=
  let protocolAdapters :=
    match Dict.member protocol (_fileProtocolPlugins fs) with
    | Dict.Own adapters => adapters
    | Dict.Inherited | Dict.Missing => []
    end in
  List.find (fun adapter =>
               match canRead adapter with
               | Some f => f filePath
               | None => false
               end) protocolAdapters.

(** **** Entries for paths *)

(** [new File(path, this)] and [new Directory(path, this)]: nothing is
    cached yet. *)
Definition freshEntry (path : string) (file : bool) : Entry :=
  mkEntry path file None None.

(** [_getEntryForPath(File, path)] for [directory = false] and
    [_getEntryForPath(Directory, path)] for [directory = true]. *)
Definition _getEntryForPath (directory : bool) (path : string) : M ref :=
  let* fs := get in
  let isDirectory := directory in
  let* path := liftResult (_normalizePath (normalizeUNCPaths (_impl fs)) path isDirectory) in
  match getEntry path fs with
  | Some entry => ret entry
  | None =>
      fun fs =>
        let (entry, fs) := newEntry (freshEntry path (negb directory)) fs in
        (Ok entry, addEntry entry fs)
  end.

(** The first lines of [getFileForPath] and [getDirectoryForPath]: a
    virtual serving URL is replaced by the path it serves. *)
Definition servedPath (path : string) : string :=
  match getPathForVirtualServingURL path with
  | Some virtualServingPath =>
      if truthy (Some virtualServingPath) then virtualServingPath else path
  | None => path
  end.

Definition getFileForPath (path : string) : M ref :=
  let path := servedPath path in
  let protocol := parseUrlProtocol path in
  let* fs := get in
  let protocolAdapter := _getProtocolAdapter protocol None fs in
  match protocolAdapter with
  | Some adapter =>
      match fileImpl adapter with
      | Some _ =>
          fun fs =>
            let (entry, fs) := newEntry (freshEntry path true) fs in
            (Ok entry, fs)
      | None => _getEntryForPath false path
      end
  | None => _getEntryForPath false path
  end.

Definition getDirectoryForPath (path : string) : M ref :=
  let path := servedPath path in
  _getEntryForPath true path.

Definition addEntryForPathIfRequired (fileEntry : ref) (path : string)
    (fs : FileSystem) : FileSystem :=
  match getEntry path fs with
  | Some _ => fs
  | None => addEntry fileEntry fs
  end.

End Facade.

(** ** Free paths *)

(** [_getNewPath]. *)
Definition _getNewPath (suggestedPath : string) (isDir : bool) (i : nat)
    (pathLib : PathLib) : string :=
  let suggestedPath := normalize pathLib suggestedPath in
  if isDir then suggestedPath ++ " (copy " ++ ofNat i ++ ")"
  else
    let dir := dirname pathLib suggestedPath in
    let extName := extname pathLib suggestedPath in
    let baseName := basename pathLib suggestedPath extName in
    pjoin pathLib dir (baseName ++ "(copy " ++ ofNat i ++ ")" ++ extName).

(** What becomes of the callback of [getFreePath]: it is called with
    [(err, path)], or the promise of [existsAsync] is rejected and the
    callback is never called. *)
Inductive FreePath :=
| Callback_ (err : option string) (path : option string)
| Unsettled (err : string).

(** The loop [for (let i = 1; i < MAX_DEDUPE_NUMBER; i++)] of
    [getFreePath] and the call that follows it, by the number
    [remaining = MAX_DEDUPE_NUMBER - i] of values [i] has yet to take. *)
Fixpoint probe (impl : Impl) (suggestedPath : string) (isDir : bool)
    (remaining : nat) : FreePath :=
  match remaining with
  | 0 => Callback_ (Some FileSystemError.TOO_MANY_ENTRIES) None
  | S remaining' =>
      let i := MAX_DEDUPE_NUMBER - remaining in
      let newPath := _getNewPath suggestedPath isDir i (pathLib impl) in
      match existsAsync impl newPath with
      | Rejected err => Unsettled err
      | Resolved false => Callback_ None (Some newPath)
      | Resolved true => probe impl suggestedPath isDir remaining'
      end
  end.

Definition getFreePath (suggestedPath : string) (fs : FileSystem) : FreePath :=
  let impl := _impl fs in
  match stat impl suggestedPath with
  | (err, Some stat) =>
      let isDir := Stats.isDirectory stat in
      probe impl suggestedPath isDir (MAX_DEDUPE_NUMBER - 1)
  | (err, None) =>
      if truthy err && bool_decide (err = Some FileSystemError.NOT_FOUND)
      then Callback_ None (Some suggestedPath)
      else Callback_ err None
  end.

(** ** Collaborators used to run the facade on examples *)

(** A path library in the manner of POSIX [path], for paths without
    "." and ".." segments. *)
Module Posix.

Definition lastSegment (p : string) : string := List.last (split p) "".

Definition normalize (p : string) : string := replaceDupSlash false p.

Definition dirname (p : string) : string :=
  match join (removelast (split p)) with
  | EmptyString => if startsWith "/" p then "/" else "."
  | d => d
  end.

(** The suffix of [s] that starts at its last dot. *)
Fixpoint fromLastDot (s : string) : option string :=
  match s with
  | EmptyString => None
  | String c t =>
      match fromLastDot t with
      | Some e => Some e
      | None => if is_dot c then Some s else None
      end
  end.

Definition extname (p : string) : string :=
  match lastSegment p with
  | EmptyString => ""
  | String _ t => default "" (fromLastDot t)
  end.

Definition basename (p ext : string) : string :=
  let base := lastSegment p in
  let n := String.length base - String.length ext in
  if negb (String.eqb ext "") && negb (String.eqb base ext)
     && String.eqb (substring n (String.length ext) base) ext
  then substring 0 n base
  else base.

Definition join2 (a b : string) : string := normalize (a ++ "/" ++ b).

Definition lib : PathLib := mkPathLib normalize dirname extname basename join2.

End Posix.

(** The protocol of a URL as the leading group [(\w+:)?] of a URL
    pattern gives it: a run of word characters followed by a colon. *)
Module Url.

Definition is_word (c : ascii) : bool :=
  let n := nat_of_ascii c in
  ((48 <=? n) && (n <=? 57) || (65 <=? n) && (n <=? 90)
   || (97 <=? n) && (n <=? 122) || (n =? 95))%nat.

Fixpoint wordThenColon (s : string) : option string :=
  match s with
  | EmptyString => None
  | String c t =>
      if is_word c then String c <$> wordThenColon t
      else if Ascii.eqb c ":" then Some ":" else None
  end.

Definition protocol (url : string) : string :=
  match url with
  | String c _ => if is_word c then default "" (wordThenColon url) else ""
  | EmptyString => ""
  end.

End Url.

Module Examples.

(** A backend with nothing on disk. *)
Definition emptyImpl : Impl :=
  mkImpl false Posix.lib
    (fun _ => (Some FileSystemError.NOT_FOUND, None))
    (fun _ => Resolved false).

(** [new FileSystem()]. *)
Definition newFileSystem (impl : Impl) : FileSystem :=
  mkFileSystem impl [] [] [] ∅ [] [] [] 0 [] [].

(** The adapter the module registers for "http:" and "https:". *)
Definition protocolAdapter : Adapter :=
  mkAdapter (Some 0%Z) (Some "RemoteFile") (Some (fun _ => true)).

(** The facade as the module leaves it once loaded. *)
Definition loaded (impl : Impl) : FileSystem :=
  snd (registerProtocolAdapter "https:" protocolAdapter
         (snd (registerProtocolAdapter "http:" protocolAdapter (newFileSystem impl)))).

Definition noVirtualServing (_ : string) : option string := None.
Definition unwatched (_ : FileSystem) (_ : ref) : bool := false.
Definition acceptAll (_ _ : string) : bool := true.
Definition noName (_ : Entry) : string := "".

(** A facade that knows the file "/f.txt", with a cached stat of
    modification time 10 and cached text. *)
Definition cachedFile : FileSystem :=
  mkFileSystem emptyImpl
    [mkEntry "/f.txt" true (Some (Stats.mk true false 10)) (Some (FileText "text"))]
    [] [] {[ "/f.txt" := 0 ]} [] [] [] 0 [] [].

(** The state of an [M] computation, and its value. *)
Definition stateOf {A} (r : Result A * FileSystem) : FileSystem := snd r.
Definition valueOf {A} (r : Result A * FileSystem) : Result A := fst r.

(** A backend on which "/a/b/dir" is a directory and every path
    exists. *)
Definition crowdedImpl : Impl :=
  mkImpl false Posix.lib
    (fun _ => (None, Some (Stats.mk false true 0)))
    (fun _ => Resolved true).

(** A backend whose stat fails with [err]. *)
Definition failingImpl (err : string) : Impl :=
  mkImpl false Posix.lib (fun _ => (Some err, None)) (fun _ => Resolved false).

(** A backend on which the file "/a/b/test.html" exists and nothing
    else does. *)
Definition oneFileImpl : Impl :=
  mkImpl false Posix.lib
    (fun p => if String.eqb p "/a/b/test.html"
              then (None, Some (Stats.mk true false 0))
              else (Some FileSystemError.NOT_FOUND, None))
    (fun p => Resolved (String.eqb p "/a/b/test.html")).

(** A backend on which the directory "/a/b/dir" exists, and its first
    two copies. *)
Definition copiedDirImpl : Impl :=
  mkImpl false Posix.lib
    (fun p => if String.eqb p "/a/b/dir"
              then (None, Some (Stats.mk false true 0))
              else (Some FileSystemError.NOT_FOUND, None))
    (fun p => Resolved (String.eqb p "/a/b/dir (copy 1)"
                        || String.eqb p "/a/b/dir (copy 2)")).

(** The directories "/a/b/" and "/a/", asked for in this order: their
    entries are the references 0 and 1. *)
Definition twoDirectories : FileSystem :=
  stateOf (getDirectoryForPath noVirtualServing "/a/"
             (stateOf (getDirectoryForPath noVirtualServing "/a/b/"
                         (newFileSystem emptyImpl)))).

(** "/a/b/" is watched, and the backend has confirmed the watch. *)
Definition childWatched : FileSystem :=
  requestCb unwatched None
    (watch unwatched 0 acceptAll None (Some (CbClient 1)) twoDirectories).

(** "/a/b/" is watched and confirmed; the files "/a/b/x.txt" and
    "/a/b/y.txt" are the entries 2 and 3. *)
Definition watchedWithFiles : FileSystem :=
  stateOf (getFileForPath noVirtualServing Url.protocol "/a/b/y.txt"
             (stateOf (getFileForPath noVirtualServing Url.protocol "/a/b/x.txt"
                         childWatched))).

(** "/a/" is watched and confirmed, then unwatched, and the backend has
    not answered the unwatch yet; meanwhile "/a/b/" is watched. *)
Definition parentLeaving : FileSystem :=
  watch unwatched 0 acceptAll None (Some (CbClient 3))
    (unwatch unwatched 1 (Some (CbClient 2))
       (requestCb unwatched None
          (watch unwatched 1 acceptAll None (Some (CbClient 1)) twoDirectories))).

End Examples.

Import Examples.



(** ** Predicates used in the properties *)

(** Every entry of the index is filed under its own path. *)
Definition indexKeyed (fs : FileSystem) : Prop :=
  forall path r, _index fs !! path = Some r ->
    exists e, entries fs !! r = Some e /\ fullPath e = path.

(** The implementation a protocol adapter provides for files at [path],
    when [getFileForPath] selects one. *)
Definition adapterFileImpl (parseUrlProtocol : string -> string)
    (path : string) (fs : FileSystem) : option string :=
  match _getProtocolAdapter (parseUrlProtocol path) None fs with
  | Some adapter => fileImpl adapter
  | None => None
  end.

(** A change record [_handleExternalChange] handles without a thrown
    error: the path is [null] or empty, or [_normalizePath] accepts it. *)
Definition reportable (normalizeUNC : bool) (c : ChangeInfo) : Prop :=
  truthy (change_path c) = false
  \/ exists p np, change_path c = Some p /\ _normalizePath normalizeUNC p false = Ok np.

(** The calls of the client callback [id] of a directory change, with
    the change sets it was given. *)
Definition dirCall (id : nat) (ev : Effect)
    : option (option (list ref) * option (list ref)) :=
  match ev with
  | CallDirClient i added removed => if Nat.eqb i id then Some (added, removed) else None
  | _ => None
  end.

Definition dirCalls (id : nat) (fs : FileSystem)
    : list (option (list ref) * option (list ref)) :=
  omap (dirCall id) (trace fs).

(** The watch and unwatch operations a directory change issues. *)
Inductive SubOperation :=
| SubWatch (entry : ref)
| SubUnwatch (entry : ref).

Definition subEntry (op : SubOperation) : ref :=
  match op with
  | SubWatch entry | SubUnwatch entry => entry
  end.

Definition isWatch (op : SubOperation) : bool :=
  match op with
  | SubWatch _ => true
  | SubUnwatch _ => false
  end.

Definition issued (added removed : list ref) : list SubOperation :=
  map SubWatch added ++ map SubUnwatch removed.

(** The callback with which [_watchEntry] or [_unwatchEntry] reaches
    [_watchOrUnwatchEntry], for the counter [join]. *)
Definition subCallback (join : ref) (op : SubOperation) : Callback :=
  match op with
  | SubWatch _ => CbWatchOrUnwatch join
  | SubUnwatch entry => CbUnwatchEntry entry (CbWatchOrUnwatch join)
  end.

(** The sub-operations of a schedule complete one after the other, each
    with its own error or none. *)
Definition complete (isWatched : FileSystem -> ref -> bool) (join : ref)
    (schedule : list (SubOperation * option string)) (fs : FileSystem) : FileSystem :=
  forEach_ (fun oe => applyCallback isWatched (subCallback join (fst oe)) (snd oe))
    schedule fs.

(** ** Devices for the properties of path normalisation *)

(** [true] when [s] has no two slashes in a row; [prevSlash] tells that
    a slash comes just before [s]. *)
Fixpoint noDupSlash (prevSlash : bool) (s : string) : bool :=
  match s with
  | EmptyString => true
  | String c t =>
      if is_slash c then negb prevSlash && noDupSlash true t
      else noDupSlash false t
  end.

(** [true] when [s] has no slash at all. *)
Fixpoint noSlash (s : string) : bool :=
  match s with
  | EmptyString => true
  | String c t => negb (is_slash c) && noSlash t
  end.

(** [s] ends with a slash. *)
Definition endsWithSlash (s : string) : bool := is_char "/" (lastChar s).

(** The loop that removes ".." segments, on the segments already
    passed, last one first, and the segments still to come. *)
Fixpoint resolveDotDot (path : string) (passed coming : list string)
    : Result (list string) :=
  match coming with
  | [] => Ok (rev passed)
  | segment :: coming' =>
      if String.eqb segment ".."
      then if lt_dec (length passed) 2
           then Throw ("Invalid absolute path: '" ++ path ++ "'")
           else resolveDotDot path (tail passed) coming'
      else resolveDotDot path (segment :: passed) coming'
  end.

(** [_normalizePath] between its test of the path and the restoring of
    the slash of a UNC path, on the path without duplicated slashes. *)
Definition normalizeCore (path : string) (isDirectory : bool) : Result string :=
  let r :=
    if hasDotDot path
    then match removeDotDot path (split path) 1 with
         | Ok segments => Ok (join segments)
         | Throw msg => Throw msg
         end
    else Ok path in
  match r with
  | Throw msg => Throw msg
  | Ok path => Ok (if isDirectory then _ensureTrailingSlash path else path)
  end.

(** ** Resolving a path *)

(** What [resolve] does with its callback: it leaves it to the [stat]
    method of the entry it has found in the index, or to the function
    it hands to [impl.stat]. *)
Inductive Resolution :=
| ResolveByEntry (item : ref)
    (** [item.stat(...)] is called *)
| ResolveByBackend (path : string)
    (** [this._impl.stat(path, ...)] is called *).

(** [resolve] up to its call of [item.stat] or [impl.stat]. *)
Definition resolve (path : string) : M Resolution :=
  let* fs := get in
  let* normalizedPath :=
    liftResult (_normalizePath (normalizeUNCPaths (_impl fs)) path false) in
  let item := getEntry normalizedPath fs in
  let item :=
    match item with
    | Some _ => item
    | None => getEntry (_ensureTrailingSlash normalizedPath) fs
    end in
  match item with
  | Some item => ret (ResolveByEntry item)
  | None => ret (ResolveByBackend path)
  end.

(** The function [resolve] hands to [impl.stat], called with
    [(err, stat)]; its value is the arguments [(err, item, stat)] the
    callback of [resolve] is called with.  An answer with neither an
    error nor a stat makes [stat.isFile] throw. *)
Definition resolveStatCallback (isWatched : FileSystem -> ref -> bool)
    (getPathForVirtualServingURL : string -> option string)
    (parseUrlProtocol : string -> string) (path : string)
    (err : option string) (stat : option Stats.t)
    : M (option string * option ref * option Stats.t) :=
  if truthy err then ret (err, None, None)
  else
    match stat with
    | None => throw "TypeError: Cannot read properties of undefined (reading 'isFile')"
    | Some st =>
        let* item :=
          (if Stats.isFile st
           then getFileForPath getPathForVirtualServingURL parseUrlProtocol path
           else getDirectoryForPath getPathForVirtualServingURL path) in
        let* fs := get in
        let* _ := (if isWatched fs item
                   then run (updateEntry (set_stat (Some st)) item)
                   else ret tt) in
        ret (None, Some item, Some st)
    end.
(** ** Further definitions used in the properties *)

(** The number of ".." among segments. *)
Definition dotDots (segments : list string) : nat :=
  length (List.filter (fun x => String.eqb x "..") segments).

(** Adapters in descending order of priority. *)
Definition descending (adapters : list Adapter) : Prop :=
  StronglySorted (fun a b => (priorityOf b <= priorityOf a)%Z) adapters.

(** [adapter.canRead && adapter.canRead(filePath)]. *)
Definition readable (filePath : option string) (adapter : Adapter) : bool :=
  match canRead adapter with
  | Some f => f filePath
  | None => false
  end.

(** A protocol under which adapters can be registered in a list of
    adapters that has none yet: not the empty string, which
    [registerProtocolAdapter] ignores, and not the name of a member of
    [Object.prototype], for which it throws. *)
Definition registrable (protocol : string) : bool :=
  negb (String.eqb protocol "") && negb (Dict.inherited protocol).

(** Registrations made one after the other, each by a call of its own:
    a call that throws stores nothing and the next one is made on the
    same list. *)
Definition registerAll (registrations : list (string * Adapter)) (fs : FileSystem)
    : FileSystem :=
  forEach_ (fun pa fs => snd (registerProtocolAdapter (fst pa) (snd pa) fs))
    registrations fs.

(** The adapters registered for [protocol], in the order of their
    registration. *)
Definition registeredFor (protocol : string) (registrations : list (string * Adapter))
    : list Adapter :=
  map snd (List.filter (fun pa => String.eqb (fst pa) protocol) registrations).

(** [fs'] has the entry objects of [fs] and no other, each with the
    path and the kind it has in [fs]. *)
Definition sameObjects (fs fs' : FileSystem) : Prop :=
  map fullPath (entries fs') = map fullPath (entries fs)
  /\ map isFile (entries fs') = map isFile (entries fs).

(** [fs'] differs from [fs] in what its entries cache and in the
    effects that have followed those of [fs], and in nothing else. *)
Definition cachesOnly (fs fs' : FileSystem) : Prop :=
  exists es t,
    fs' = set_trace (trace fs ++ t) (set_entries es fs)
    /\ map fullPath es = map fullPath (entries fs)
    /\ map isFile es = map isFile (entries fs).

(** What a callback of the facade leaves as it is, and in which
    direction it changes the rest. *)
Definition callbackFrame (fs fs' : FileSystem) : Prop :=
  _impl fs' = _impl fs
  /\ _watchRequests fs' = _watchRequests fs
  /\ _externalChanges fs' = _externalChanges fs
  /\ _activeChangeCount fs' = _activeChangeCount fs
  /\ _fileProtocolPlugins fs' = _fileProtocolPlugins fs
  /\ sameObjects fs fs'
  /\ map WatchedRoot.entry (roots fs') = map WatchedRoot.entry (roots fs)
  /\ length (joins fs') = length (joins fs)
  /\ _index fs' ⊆ _index fs
  /\ sublist (_watchedRoots fs') (_watchedRoots fs)
  /\ trace fs `prefix_of` trace fs'.

(** The command an effect gives the backend, if it gives one. *)
Definition backendCall (e : Effect)
    : option (WatchCommand * string * option (list string)) :=
  match e with
  | ImplCall command path filterGitIgnore => Some (command, path, filterGitIgnore)
  | _ => None
  end.

(** The commands given to the backend so far. *)
Definition backendCalls (fs : FileSystem)
    : list (WatchCommand * string * option (list string)) :=
  omap backendCall (trace fs).

(** The command a request stands for. *)
Definition commandOf (fs : FileSystem) (request : WatchRequest)
    : WatchCommand * string * option (list string) :=
  (req_command request, pathOf fs (req_entry request), req_filterGitIgnore request).

(** What happens to the queue of requests: a request joins it, or the
    backend reports that the command it was running has finished. *)
Inductive QueueEvent :=
| Enqueued (request : WatchRequest)
| Finished (err : option string).

(** The facade takes the event. *)
Definition queueStep (isWatched : FileSystem -> ref -> bool) (ev : QueueEvent)
    (fs : FileSystem) : FileSystem :=
  match ev with
  | Enqueued request => _enqueueWatchRequest request fs
  | Finished err => requestCb isWatched err fs
  end.

(** The requests that have joined the queue, in their order. *)
Definition enqueued (evs : list QueueEvent) : list WatchRequest :=
  omap (fun ev => match ev with Enqueued request => Some request | Finished _ => None end)
    evs.

(** The number of commands the backend has reported finished. *)
Definition finished (evs : list QueueEvent) : nat :=
  length (List.filter (fun ev => match ev with Finished _ => true | Enqueued _ => false end)
            evs).

(** What every operation of the facade that creates no entry leaves as
    it is: [fs'] has the backend and the entry objects of [fs], its
    index has no entry that the index of [fs] has not, and the effects
    of [fs] are the first of its effects. *)
Definition indexFrame (fs fs' : FileSystem) : Prop :=
  _impl fs' = _impl fs
  /\ sameObjects fs fs'
  /\ _index fs' ⊆ _index fs
  /\ trace fs `prefix_of` trace fs'.

(** The operations of the facade that create no entry, as its clients
    and its backend bring them about. *)
Inductive Operation :=
| OpWatch (entry : ref) (filter : string -> string -> bool)
    (filterGitIgnore : option (list string)) (callback : option Callback)
| OpUnwatch (entry : ref) (callback : option Callback)
| OpRequestCb (err : option string)
    (** the backend reports the end of a watch or unwatch command *)
| OpUnwatchAll
| OpBeginChange
| OpEndChange
| OpEnqueueExternalChange (path : option string) (stat : option Stats.t)
| OpClearAllCaches
| OpHandleDirectoryChange (directory : ref) (callback : DirCallback)
| OpContents (k : ContentsCallback) (contents : list ref)
    (** a directory answers [getContents] *).

(** The facade carries out the operation; what a method returns or
    throws is left aside, the state it leaves is kept. *)
Definition perform (isWatched : FileSystem -> ref -> bool)
    (name parentPath : Entry -> string) (op : Operation) (fs : FileSystem)
    : FileSystem :=
  match op with
  | OpWatch entry filter filterGitIgnore callback =>
      watch isWatched entry filter filterGitIgnore callback fs
  | OpUnwatch entry callback => unwatch isWatched entry callback fs
  | OpRequestCb err => requestCb isWatched err fs
  | OpUnwatchAll => snd (_unwatchAll isWatched fs)
  | OpBeginChange => _beginChange fs
  | OpEndChange => snd (_endChange fs)
  | OpEnqueueExternalChange path stat => snd (_enqueueExternalChange path stat fs)
  | OpClearAllCaches => snd (clearAllCaches fs)
  | OpHandleDirectoryChange directory callback =>
      _handleDirectoryChange directory callback fs
  | OpContents k contents =>
      applyContentsCallback isWatched name parentPath k contents fs
  end.

(** The request [_unwatchAll] makes for the watched root [r]. *)
Definition unwatchRequest (rs : list WatchedRoot.t) (r : ref) : option WatchRequest :=
  match rs !! r with
  | Some w =>
      Some (mkRequest unwatchPath (WatchedRoot.entry w) (WatchedRoot.filterGitIgnore w)
              (CbUnwatchEntry (WatchedRoot.entry w) (CbUnwatchAll r)))
  | None => None
  end.

(** The body of the loop of [_unwatchAll]. *)
Definition unwatchAllStep (isWatched : FileSystem -> ref -> bool) (path : string)
    (fs : FileSystem) : FileSystem :=
  match Dict.get path (_watchedRoots fs) with
  | Some watchedRoot =>
      let fs := set_roots (alter (WatchedRoot.set_status WatchedRoot.INACTIVE)
                             watchedRoot (roots fs)) fs in
      let fs := set_watchedRoots (Dict.remove path (_watchedRoots fs)) fs in
      match roots fs !! watchedRoot with
      | Some w =>
          _unwatchEntry isWatched (WatchedRoot.entry w) watchedRoot
            (CbUnwatchAll watchedRoot) fs
      | None => fs
      end
  | None => fs
  end.

(** The requests that can put an entry in the index. *)
Inductive Creation :=
| GetFile (path : string)
| GetDirectory (path : string)
| AddEntry (fileEntry : ref) (path : string)
| ResolveStat (path : string) (err : option string) (stat : option Stats.t)
    (** the backend answers the [stat] request of [resolve] *).

(** The facade answers the request; the state it leaves is kept. *)
Definition create (isWatched : FileSystem -> ref -> bool)
    (getPathForVirtualServingURL : string -> option string)
    (parseUrlProtocol : string -> string) (c : Creation) (fs : FileSystem)
    : FileSystem :=
  match c with
  | GetFile path =>
      snd (getFileForPath getPathForVirtualServingURL parseUrlProtocol path fs)
  | GetDirectory path => snd (getDirectoryForPath getPathForVirtualServingURL path fs)
  | AddEntry fileEntry path => addEntryForPathIfRequired fileEntry path fs
  | ResolveStat path err stat =>
      snd (resolveStatCallback isWatched getPathForVirtualServingURL
             parseUrlProtocol path err stat fs)
  end.

(** One step of the clients or the backend. *)
Definition step (isWatched : FileSystem -> ref -> bool)
    (name parentPath : Entry -> string)
    (getPathForVirtualServingURL : string -> option string)
    (parseUrlProtocol : string -> string) (s : Operation + Creation)
    (fs : FileSystem) : FileSystem :=
  match s with
  | inl op => perform isWatched name parentPath op fs
  | inr c => create isWatched getPathForVirtualServingURL parseUrlProtocol c fs
  end.

(** The entry handed to [addEntryForPathIfRequired] is an object of the
    state in which it is handed over. *)
Definition given (s : Operation + Creation) (fs : FileSystem) : bool :=
  match s with
  | inr (AddEntry fileEntry _) =>
      match entries fs !! fileEntry with
      | Some _ => true
      | None => false
      end
  | _ => true
  end.

(** Every step of the sequence is handed an object of the state it is
    taken in. *)
Fixpoint allGiven (isWatched : FileSystem -> ref -> bool)
    (name parentPath : Entry -> string)
    (getPathForVirtualServingURL : string -> option string)
    (parseUrlProtocol : string -> string) (steps : list (Operation + Creation))
    (fs : FileSystem) : bool :=
  match steps with
  | [] => true
  | s :: rest =>
      given s fs
      && allGiven isWatched name parentPath getPathForVirtualServingURL
           parseUrlProtocol rest
           (step isWatched name parentPath getPathForVirtualServingURL
              parseUrlProtocol s fs)
  end.

(** An instance of the [_isWatched] of entries that looks at the
    state: the entry is under a watched root whose watch the backend
    has confirmed. *)
Definition underActiveRoot (fs : FileSystem) (entry : ref) : bool :=
  match _findWatchedRootForPath (pathOf fs entry) fs with
  | Some watchedRoot =>
      match statusOf fs watchedRoot with
      | Some WatchedRoot.ACTIVE => true
      | _ => false
      end
  | None => false
  end.

(** * Properties *)

Local Open Scope list_scope.

(** ** Caches *)

Lemma cleared_idemp e : cleared (cleared e) = cleared e.
Proof. reflexivity. Qed.

Lemma alter_missing {A} (f : A -> A) (l : list A) i :
  l !! i = None -> alter f i l = l.
Proof.
  revert i. induction l as [|a l IH]; intros [|i] H; simpl in *; try done.
  f_equal. by apply IH.
Qed.

Lemma clearCachedData_own r fs :
  _clearCachedData true r fs = set_entries (alter cleared r (entries fs)) fs.
Proof.
  unfold _clearCachedData. destruct (entries fs !! r) eqn:E.
  - rewrite andb_false_r. reflexivity.
  - rewrite alter_missing by done. by destruct fs.
Qed.

(** Clearing the caches of the entries [l] one after the other. *)
Lemma clear_each l fs :
  forEach_ (_clearCachedData true) l fs
  = set_entries (fold_left (fun es r => alter cleared r es) l (entries fs)) fs.
Proof.
  revert fs. induction l as [|r l IH]; intros fs; simpl.
  - by destruct fs.
  - rewrite IH, clearCachedData_own. reflexivity.
Qed.

Lemma fold_alter_cleared l (es : list Entry) r :
  fold_left (fun es r => alter cleared r es) l es !! r
  = if bool_decide (r ∈ l) then cleared <$> es !! r else es !! r.
Proof.
  revert es. induction l as [|a l IH]; intros es; cbn [fold_left].
  - rewrite bool_decide_eq_false_2; [done | apply not_elem_of_nil].
  - rewrite IH. destruct (decide (a = r)) as [->|Hne].
    + rewrite list_lookup_alter_eq.
      rewrite (bool_decide_eq_true_2 (r ∈ r :: l)) by apply list_elem_of_here.
      destruct (bool_decide (r ∈ l)); [|done].
      destruct (es !! r); simpl; by rewrite ?cleared_idemp.
    + rewrite list_lookup_alter_ne by done.
      destruct (decide (r ∈ l)) as [Hin|Hnin].
      * rewrite !bool_decide_eq_true_2; [done | by apply list_elem_of_further | done].
      * rewrite !bool_decide_eq_false_2; [done | | done].
        intros [?|?]%elem_of_cons; congruence.
Qed.

Lemma indexed_spec fs r :
  r ∈ indexed fs <-> exists path, _index fs !! path = Some r.
Proof.
  unfold indexed. rewrite list_elem_of_fmap. split.
  - intros [[path r'] [-> Hin]]. exists path. by apply elem_of_map_to_list.
  - intros [path Hp]. exists (path, r). split; [done|]. by apply elem_of_map_to_list.
Qed.

Lemma alter_alter_insert (es : list Entry) r e stat :
  es !! r = Some e ->
  alter (set_stat stat) r (alter cleared r es)
  = <[r := mkEntry (fullPath e) (isFile e) stat None]> es.
Proof.
  intros H. apply list_eq. intros i. destruct (decide (i = r)) as [->|Hne].
  - rewrite list_lookup_alter_eq, list_lookup_alter_eq, H.
    rewrite list_lookup_insert_eq by (by eapply lookup_lt_Some). reflexivity.
  - rewrite !list_lookup_alter_ne, list_lookup_insert_ne by done. reflexivity.
Qed.

(** ** External changes *)

(** C7: [_handleExternalChange(null, ...)] clears the cached data of every
    entry of the index and fires exactly one change event, whose entry
    argument is null; the trace grows by that event and by nothing else,
    so no event is fired for a single entry. *)
Theorem handleExternalChange_wholesale (stat : option Stats.t) (fs : FileSystem) :
  exists fs',
    _handleExternalChange None stat fs = (Ok tt, fs')
    /\ (forall path r e,
          _index fs !! path = Some r -> entries fs !! r = Some e ->
          entries fs' !! r = Some (cleared e))
    /\ trace fs' = trace fs ++ [TriggerChange None None None]
    /\ _index fs' = _index fs.
Proof.
  exists (emit (TriggerChange None None None)
            (set_entries (fold_left (fun es r => alter cleared r es)
                            (indexed fs) (entries fs)) fs)).
  split.
  { unfold _handleExternalChange, run, _fireChangeEvent, visitAll.
    by rewrite clear_each. }
  split; [|done].
  intros path r e Hidx He.
  change (fold_left (fun es r => alter cleared r es) (indexed fs) (entries fs) !! r
          = Some (cleared e)).
  rewrite fold_alter_cleared, He.
  rewrite bool_decide_eq_true_2; [done|].
  apply indexed_spec. eauto.
Qed.

(** C5, as the code has it: for a file entry found in the index, an
    external change is a no-op when an incoming stat and a cached stat
    are both there and the incoming modification time is not newer; in
    every other case (a newer time, no incoming stat, no cached stat) the
    cached data are cleared, the stat becomes the incoming one and one
    change event is fired for the entry. *)
Theorem handleExternalChange_file (fs : FileSystem) (p np : string)
    (stat : option Stats.t) (r : ref) (e : Entry) :
  truthy (Some p) = true ->
  _normalizePath (normalizeUNCPaths (_impl fs)) p false = Ok np ->
  getEntry np fs = Some r ->
  entries fs !! r = Some e ->
  isFile e = true ->
  (forall s o, stat = Some s -> _stat e = Some o ->
     (Stats.mtime s <= Stats.mtime o)%Z ->
     _handleExternalChange (Some p) stat fs = (Ok tt, fs))
  /\ ((~ exists s o, stat = Some s /\ _stat e = Some o
                     /\ (Stats.mtime s <= Stats.mtime o)%Z) ->
      _handleExternalChange (Some p) stat fs
      = (Ok tt,
         emit (TriggerChange (Some r) None None)
           (set_entries (<[r := mkEntry (fullPath e) true stat None]> (entries fs)) fs))).
Proof.
  intros Hp Hn Hidx He Hfile.
  assert (Hstep : _handleExternalChange (Some p) stat fs
                  = if negb (notNewer stat (_stat e))
                    then (Ok tt,
                          emit (TriggerChange (Some r) None None)
                            (set_entries (<[r := mkEntry (fullPath e) true stat None]>
                                            (entries fs)) fs))
                    else (Ok tt, fs)).
  { unfold _handleExternalChange. rewrite Hp.
    unfold bind, get, liftResult. rewrite Hn. unfold ret. rewrite Hidx, He, Hfile.
    destruct (notNewer stat (_stat e)); [reflexivity|].
    cbn [negb]. unfold run, _fireChangeEvent. do 2 f_equal.
    unfold _clearCachedData. rewrite He. unfold isDirectory. rewrite Hfile.
    cbn [negb andb forEach_ fold_left]. unfold updateEntry. cbn.
    rewrite (alter_alter_insert _ _ e) by done. by rewrite Hfile. }
  rewrite Hstep. split.
  - intros s o -> Ho Hle. rewrite Ho. cbn.
    destruct (Z.leb_spec (Stats.mtime s) (Stats.mtime o)); [reflexivity | lia].
  - intros Hnot. destruct (notNewer stat (_stat e)) eqn:E; [|reflexivity].
    exfalso. apply Hnot. unfold notNewer in E.
    destruct stat as [s|], (_stat e) as [o|]; try discriminate.
    exists s, o. repeat split. by apply Z.leb_le.
Qed.

Lemma handleExternalChange_file_witness :
  _handleExternalChange (Some "/f.txt") (Some (Stats.mk true false 10)) cachedFile
  = (Ok tt, cachedFile).
Proof.
  refine (proj1 (handleExternalChange_file cachedFile "/f.txt" "/f.txt"
                   (Some (Stats.mk true false 10)) 0
                   (mkEntry "/f.txt" true (Some (Stats.mk true false 10))
                      (Some (FileText "text"))) _ _ _ _ _)
            (Stats.mk true false 10) (Stats.mk true false 10) _ _ _);
    reflexivity.
Defined.

(** C5, as stated, fails: a change reported without a stat for a file
    whose stat is cached clears the cache and fires a change event,
    although no incoming modification time is newer than the cached one. *)
Lemma stale_change_counterexample :
  let fs' := stateOf (_handleExternalChange (Some "/f.txt") None cachedFile) in
  entries cachedFile !! 0
    = Some (mkEntry "/f.txt" true (Some (Stats.mk true false 10)) (Some (FileText "text")))
  /\ trace cachedFile = []
  /\ entries fs' !! 0 = Some (mkEntry "/f.txt" true None None)
  /\ trace fs' = [TriggerChange (Some 0) None None].
Proof. vm_compute. repeat split. Qed.

(** ** The change barrier *)

Lemma forEach_entries_only {A} (f : A -> FileSystem -> FileSystem) (l : list A) fs :
  (forall x fs, exists es, f x fs = set_entries es fs) ->
  exists es, forEach_ f l fs = set_entries es fs.
Proof.
  intros Hf. revert fs. induction l as [|x l IH]; intros fs; simpl.
  - exists (entries fs). by destruct fs.
  - destruct (Hf x fs) as [es ->]. destruct (IH (set_entries es fs)) as [es' ->].
    by exists es'.
Qed.

Lemma clearCachedData_entries_only b r fs :
  exists es, _clearCachedData b r fs = set_entries es fs.
Proof.
  unfold _clearCachedData. destruct (entries fs !! r).
  - destruct (forEach_entries_only (updateEntry cleared)
                (if isDirectory e && negb b
                 then match childrenOf e with Some l => l | None => [] end
                 else [])
                (updateEntry cleared r fs)) as [es Hes].
    + intros x fs0. by eexists.
    + rewrite Hes. by exists es.
  - exists (entries fs). by destruct fs.
Qed.

(** Handling an external change touches neither the barrier count nor
    the queue of pending changes. *)
Lemma handleExternalChange_barrier path stat fs :
  let fs' := snd (_handleExternalChange path stat fs) in
  _activeChangeCount fs' = _activeChangeCount fs
  /\ _externalChanges fs' = _externalChanges fs
  /\ _impl fs' = _impl fs.
Proof.
  assert (Hall : let fs' := _fireChangeEvent None None None
                              (visitAll (_clearCachedData true) fs) in
                 _activeChangeCount fs' = _activeChangeCount fs
                 /\ _externalChanges fs' = _externalChanges fs
                 /\ _impl fs' = _impl fs).
  { unfold visitAll. rewrite clear_each. by cbn. }
  unfold _handleExternalChange. destruct path as [p|]; [|exact Hall].
  destruct (truthy (Some p)); [|exact Hall].
  unfold bind, get, liftResult.
  destruct (_normalizePath _ p false) as [np|msg]; [|by cbn].
  unfold ret. destruct (getEntry np fs) as [r|]; [|by cbn].
  destruct (entries fs !! r) as [e|] eqn:He; [|by cbn].
  destruct (isFile e).
  - destruct (negb _); [|by cbn]. unfold run.
    destruct (clearCachedData_entries_only false r fs) as [es ->]. by cbn.
  - unfold run, _handleDirectoryChange.
    destruct (clearCachedData_entries_only false r fs) as [es ->]. by cbn.
Qed.

(** A reportable change is handled without a thrown error. *)
Lemma handleExternalChange_returns c fs :
  reportable (normalizeUNCPaths (_impl fs)) c ->
  fst (_handleExternalChange (change_path c) (change_stat c) fs) = Ok tt.
Proof.
  unfold _handleExternalChange. intros [Hnull|(p & np & Hp & Hn)].
  - destruct (change_path c) as [p|]; [|done]. by rewrite Hnull.
  - rewrite Hp. destruct (truthy (Some p)); [|done].
    unfold bind, get, liftResult. rewrite Hn. unfold ret.
    destruct (getEntry np fs) as [r|]; [|done].
    destruct (entries fs !! r) as [e|]; [|done].
    destruct (isFile e); [|done]. by destruct (negb _).
Qed.

(** Replaying reportable changes ends without a thrown error and leaves
    the barrier count and the queue as they were. *)
Lemma replay_returns cs fs :
  Forall (reportable (normalizeUNCPaths (_impl fs))) cs ->
  exists fs',
    forEach (fun c => _handleExternalChange (change_path c) (change_stat c)) cs fs
    = (Ok tt, fs')
    /\ _activeChangeCount fs' = _activeChangeCount fs
    /\ _externalChanges fs' = _externalChanges fs.
Proof.
  revert fs. induction cs as [|c cs IH]; intros fs Hall; [by exists fs|].
  apply Forall_cons in Hall as [Hc Hall].
  cbn [forEach]. unfold bind.
  pose proof (handleExternalChange_barrier (change_path c) (change_stat c) fs) as H.
  pose proof (handleExternalChange_returns c fs Hc) as Hok.
  destruct (_handleExternalChange (change_path c) (change_stat c) fs) as [res fs1].
  cbn in H, Hok. subst res. destruct H as (Hcount & Hqueue & Himpl).
  rewrite <- Himpl in Hall.
  destruct (IH fs1 Hall) as (fs' & Hrun & Hcount' & Hqueue').
  exists fs'. split; [exact Hrun|]. split; congruence.
Qed.

Lemma enqueue_blocked path stat fs :
  _activeChangeCount fs <> 0%Z ->
  _enqueueExternalChange path stat fs
  = (Ok tt, set_externalChanges (_externalChanges fs ++ [mkChange path stat]) fs).
Proof.
  intros Hc. unfold _enqueueExternalChange, bind, run, get. cbn.
  destruct (Z.eqb_spec (_activeChangeCount fs) 0); [done | reflexivity].
Qed.

(** C1: while the barrier count is not zero every change handed to
    [_enqueueExternalChange] is appended to the queue and nothing else
    happens; the [_endChange] that brings the count to zero hands the
    queued changes to [_handleExternalChange] in the order they arrived
    and leaves the queue empty; an [_endChange] that leaves the count
    non-zero leaves them queued.  The changes are those a watcher
    reports: their paths are null or paths [_normalizePath] accepts. *)
Theorem change_barrier (fs : FileSystem) (cs : list ChangeInfo) :
  _activeChangeCount fs <> 0%Z ->
  let enqueue c := _enqueueExternalChange (change_path c) (change_stat c) in
  let handle c := _handleExternalChange (change_path c) (change_stat c) in
  let queued := set_externalChanges (_externalChanges fs ++ cs) fs in
  forEach enqueue cs fs = (Ok tt, queued)
  /\ (_activeChangeCount fs = 1%Z ->
      Forall (reportable (normalizeUNCPaths (_impl fs))) (_externalChanges fs ++ cs) ->
      exists fs',
        forEach handle (_externalChanges fs ++ cs) (set_activeChangeCount 0 queued)
        = (Ok tt, fs')
        /\ _endChange queued = (Ok tt, set_externalChanges [] fs')
        /\ _activeChangeCount fs' = 0%Z)
  /\ (_activeChangeCount fs <> 1%Z ->
      exists fs',
        _endChange queued = (Ok tt, fs')
        /\ _externalChanges fs' = _externalChanges fs ++ cs
        /\ entries fs' = entries fs
        /\ _index fs' = _index fs
        /\ forall ev, ev ∈ trace fs' -> ev ∈ trace fs \/ exists msg, ev = ConsoleError msg).
Proof.
  intros Hc enqueue handle queued. split; [|split].
  - subst queued. clear handle. revert fs Hc.
    induction cs as [|c cs IH]; intros fs Hc.
    + cbn. rewrite app_nil_r. by destruct fs.
    + cbn [forEach]. unfold bind, enqueue at 1.
      rewrite enqueue_blocked by done.
      rewrite IH by done. cbn. destruct c. cbn. by rewrite <- app_assoc.
  - intros H1 Hrep.
    destruct (replay_returns (_externalChanges fs ++ cs)
                (set_activeChangeCount 0 queued) Hrep) as (fs' & Hreplay & Hcount & _).
    exists fs'. split; [exact Hreplay|]. split; [|exact Hcount].
    unfold _endChange, bind, run, get, ret.
    simpl (_activeChangeCount _). rewrite H1.
    change ((1 - 1 <? 0)%Z) with false. change ((1 - 1 =? 0)%Z) with true.
    cbv iota beta.
    unfold _triggerExternalChangesNow, bind, get, run.
    simpl (_externalChanges _). fold handle.
    change (1 - 1)%Z with 0%Z. fold queued.
    fold handle in Hreplay. rewrite Hreplay. reflexivity.
  - intros H1. unfold _endChange, bind, run, get. cbn.
    destruct (Z.eqb_spec (_activeChangeCount fs - 1) 0) as [E|E]; [lia|].
    destruct (Z.ltb_spec (_activeChangeCount fs - 1) 0).
    + cbn. destruct (Z.eqb_spec (_activeChangeCount fs - 1) 0); [lia|].
      eexists. split; [reflexivity|]. cbn. repeat split.
      intros ev [Hin| ->%list_elem_of_singleton]%elem_of_app; eauto.
    + cbn. destruct (Z.eqb_spec (_activeChangeCount fs - 1) 0); [lia|].
      eexists. split; [reflexivity|]. cbn. repeat split. eauto.
Qed.

Lemma change_barrier_witness :
  let fs := _beginChange cachedFile in
  let cs := [mkChange (Some "/f.txt") (Some (Stats.mk true false 20)); mkChange None None] in
  let queued := set_externalChanges (_externalChanges fs ++ cs) fs in
  _activeChangeCount fs <> 0%Z
  /\ _activeChangeCount fs = 1%Z
  /\ Forall (reportable (normalizeUNCPaths (_impl fs))) (_externalChanges fs ++ cs)
  /\ forEach (fun c => _enqueueExternalChange (change_path c) (change_stat c)) cs fs
     = (Ok tt, queued)
  /\ trace queued = []
  /\ exists fs',
       _endChange queued = (Ok tt, set_externalChanges [] fs')
       /\ trace fs' = [TriggerChange (Some 0) None None; TriggerChange None None None].
Proof.
  intros fs cs queued.
  assert (Hne : _activeChangeCount fs <> 0%Z) by (cbn; lia).
  assert (Hrep : Forall (reportable (normalizeUNCPaths (_impl fs)))
                   (_externalChanges fs ++ cs)).
  { change (Forall (reportable false) cs).
    constructor; [|constructor; [|constructor]].
    - right. exists "/f.txt", "/f.txt". split; reflexivity.
    - left. reflexivity. }
  destruct (change_barrier fs cs Hne) as (Hq & Hend & _).
  destruct (Hend eq_refl Hrep) as (fs' & Hreplay & Hdone & _).
  split; [exact Hne|]. split; [reflexivity|]. split; [exact Hrep|].
  split; [exact Hq|]. split; [reflexivity|].
  exists fs'. split; [exact Hdone|].
  pose proof (f_equal snd Hreplay) as Hfs'. cbn [snd] in Hfs'.
  rewrite <- Hfs'. vm_compute. reflexivity.
Defined.

(** ** Free paths *)

Lemma probe_exhausted impl suggestedPath isDir remaining :
  (forall i, MAX_DEDUPE_NUMBER - remaining <= i < MAX_DEDUPE_NUMBER ->
     existsAsync impl (_getNewPath suggestedPath isDir i (pathLib impl)) = Resolved true) ->
  probe impl suggestedPath isDir remaining
  = Callback_ (Some FileSystemError.TOO_MANY_ENTRIES) None.
Proof.
  induction remaining as [|n IH]; intros H; [reflexivity|].
  cbn [probe]. rewrite H.
  - apply IH. intros i Hi. apply H. lia.
  - assert (0 < MAX_DEDUPE_NUMBER) by (unfold MAX_DEDUPE_NUMBER; lia). lia.
Qed.

(** The loop returns the candidate of the first index that is free. *)
Lemma probe_first_free impl suggestedPath isDir remaining k :
  MAX_DEDUPE_NUMBER - remaining <= k < MAX_DEDUPE_NUMBER ->
  remaining <= MAX_DEDUPE_NUMBER ->
  (forall i, MAX_DEDUPE_NUMBER - remaining <= i < k ->
     existsAsync impl (_getNewPath suggestedPath isDir i (pathLib impl)) = Resolved true) ->
  existsAsync impl (_getNewPath suggestedPath isDir k (pathLib impl)) = Resolved false ->
  probe impl suggestedPath isDir remaining
  = Callback_ None (Some (_getNewPath suggestedPath isDir k (pathLib impl))).
Proof.
  induction remaining as [|n IH]; intros Hk Hm Hbusy Hfree; [lia|].
  cbn [probe]. destruct (decide (k = MAX_DEDUPE_NUMBER - S n)) as [->|Hne].
  - by rewrite Hfree.
  - rewrite Hbusy by lia. apply IH; [lia | lia | | done].
    intros i Hi. apply Hbusy. lia.
Qed.

(** C9: [getFreePath] returns the suggested path itself, with no error,
    when the stat of the backend fails with NOT_FOUND; it fails with
    TOO_MANY_ENTRIES when every candidate it probes, those of the indices
    from 1 up to the bound MAX_DEDUPE_NUMBER, exists; any other error of
    the stat is handed to the callback as it is. *)
Theorem getFreePath_errors (fs : FileSystem) (suggestedPath : string) :
  (stat (_impl fs) suggestedPath = (Some FileSystemError.NOT_FOUND, None) ->
   getFreePath suggestedPath fs = Callback_ None (Some suggestedPath))
  /\ (forall err st,
        stat (_impl fs) suggestedPath = (err, Some st) ->
        (forall i, 1 <= i < MAX_DEDUPE_NUMBER ->
           existsAsync (_impl fs)
             (_getNewPath suggestedPath (Stats.isDirectory st) i (pathLib (_impl fs)))
           = Resolved true) ->
        getFreePath suggestedPath fs
        = Callback_ (Some FileSystemError.TOO_MANY_ENTRIES) None)
  /\ (forall err,
        stat (_impl fs) suggestedPath = (err, None) ->
        err <> Some FileSystemError.NOT_FOUND ->
        getFreePath suggestedPath fs = Callback_ err None).
Proof.
  unfold getFreePath. split; [|split].
  - intros ->. reflexivity.
  - intros err st -> Hall. apply probe_exhausted.
    intros i Hi. apply Hall. unfold MAX_DEDUPE_NUMBER in *. lia.
  - intros err -> Hne. rewrite (bool_decide_eq_false_2 _ Hne), andb_false_r.
    reflexivity.
Qed.

Lemma getFreePath_errors_witness :
  (stat emptyImpl "/a/b/dir" = (Some FileSystemError.NOT_FOUND, None)
   /\ getFreePath "/a/b/dir" (newFileSystem emptyImpl) = Callback_ None (Some "/a/b/dir"))
  /\ (stat crowdedImpl "/a/b/dir" = (None, Some (Stats.mk false true 0))
      /\ getFreePath "/a/b/dir" (newFileSystem crowdedImpl)
         = Callback_ (Some FileSystemError.TOO_MANY_ENTRIES) None)
  /\ (stat (failingImpl "NotReadable") "/a/b/dir" = (Some "NotReadable", None)
      /\ Some "NotReadable" <> Some FileSystemError.NOT_FOUND
      /\ getFreePath "/a/b/dir" (newFileSystem (failingImpl "NotReadable"))
         = Callback_ (Some "NotReadable") None).
Proof.
  split; [|split].
  - split; [reflexivity|].
    exact (proj1 (getFreePath_errors (newFileSystem emptyImpl) "/a/b/dir") eq_refl).
  - split; [reflexivity|].
    refine (proj1 (proj2 (getFreePath_errors (newFileSystem crowdedImpl) "/a/b/dir"))
              None (Stats.mk false true 0) eq_refl _).
    intros i _. reflexivity.
  - split; [reflexivity|]. split; [discriminate|].
    refine (proj2 (proj2 (getFreePath_errors
                            (newFileSystem (failingImpl "NotReadable")) "/a/b/dir"))
              (Some "NotReadable") eq_refl _).
    discriminate.
Defined.

(** For a directory the candidates are the normalised name with
    " (copy i)" appended, and the first free one is returned. *)
Lemma getNewPath_directory suggestedPath i lib :
  _getNewPath suggestedPath true i lib
  = (normalize lib suggestedPath ++ " (copy " ++ ofNat i ++ ")")%string.
Proof. reflexivity. Qed.

Example getFreePath_directory :
  getFreePath "/a/b/dir" (newFileSystem copiedDirImpl)
  = Callback_ None (Some "/a/b/dir (copy 3)").
Proof. vm_compute. reflexivity. Qed.

(** For a file the suffix goes between the base name and the extension,
    with no space before "(copy". *)
Lemma getNewPath_file suggestedPath i lib :
  _getNewPath suggestedPath false i lib
  = let p := normalize lib suggestedPath in
    pjoin lib (dirname lib p)
      (basename lib p (extname lib p) ++ "(copy " ++ ofNat i ++ ")" ++ extname lib p)%string.
Proof. reflexivity. Qed.

(** C4 at the file "/a/b/test.html", which exists while no copy of it
    does: the path handed to the callback is "/a/b/test(copy 1).html",
    not "/a/b/test (copy 1).html". *)
Theorem getFreePath_file_copy :
  stat oneFileImpl "/a/b/test.html" = (None, Some (Stats.mk true false 0))
  /\ getFreePath "/a/b/test.html" (newFileSystem oneFileImpl)
     = Callback_ None (Some "/a/b/test(copy 1).html")
  /\ getFreePath "/a/b/test.html" (newFileSystem oneFileImpl)
     <> Callback_ None (Some "/a/b/test (copy 1).html").
Proof.
  split; [reflexivity|].
  assert (H : getFreePath "/a/b/test.html" (newFileSystem oneFileImpl)
              = Callback_ None (Some "/a/b/test(copy 1).html"))
    by (vm_compute; reflexivity).
  split; [exact H|]. rewrite H. discriminate.
Qed.

(** ** Watch roots *)

(** The test on [watchingChildRoot] never succeeds: the variable holds
    the boolean that [some] returns, which has no status.  So [watch]
    either reports the error of the first test or registers the root. *)
Lemma watch_child_test_dead isWatched entry filter filterGitIgnore callback fs :
  let fullPath := pathOf fs entry in
  let cb := default CbNone callback in
  watch isWatched entry filter filterGitIgnore callback fs
  = if match _findWatchedRootForPath fullPath fs with
       | Some r => startingOrActive (statusOf fs r)
       | None => false
       end
    then applyCallback isWatched cb (Some "A parent of this root is already watched") fs
    else
      let (watchedRoot, fs) :=
        newWatchedRoot (WatchedRoot.mk entry filter filterGitIgnore WatchedRoot.INACTIVE) fs in
      let fs := set_watchedRoots (Dict.set fullPath watchedRoot (_watchedRoots fs)) fs in
      let fs := set_roots (alter (WatchedRoot.set_status WatchedRoot.STARTING)
                             watchedRoot (roots fs)) fs in
      _watchEntry isWatched entry watchedRoot
        (CbWatch fullPath entry watchedRoot cb) fs.
Proof.
  unfold watch. cbv zeta.
  destruct (match _findWatchedRootForPath (pathOf fs entry) fs with
            | Some r => startingOrActive (statusOf fs r)
            | None => false
            end); [reflexivity|].
  cbn [jsStatus startingOrActive]. rewrite andb_false_r. reflexivity.
Qed.

(** [watch] refuses an entry when the first registered root whose path
    is a prefix of the entry's path is starting or active, and registers
    nothing. *)
Lemma watch_under_watched_root isWatched entry filter filterGitIgnore id fs r :
  _findWatchedRootForPath (pathOf fs entry) fs = Some r ->
  startingOrActive (statusOf fs r) = true ->
  watch isWatched entry filter filterGitIgnore (Some (CbClient id)) fs
  = emit (CallClient id (Some "A parent of this root is already watched")) fs.
Proof.
  intros Hf Hs. rewrite watch_child_test_dead. cbv zeta. by rewrite Hf, Hs.
Qed.

(** C3 at the entry "/a/", while its descendant "/a/b/" is an active
    watched root: [watch] reports no error; it registers "/a/" as a
    second, starting root and asks the backend to watch it. *)
Theorem watch_over_watched_descendant :
  let fs := childWatched in
  let fs' := watch unwatched 1 acceptAll None (Some (CbClient 2)) fs in
  pathOf fs 0 = "/a/b/" /\ pathOf fs 1 = "/a/"
  /\ _watchedRoots fs = [("/a/b/", 0)]
  /\ statusOf fs 0 = Some WatchedRoot.ACTIVE
  /\ _watchedRoots fs' = [("/a/b/", 0); ("/a/", 1)]
  /\ statusOf fs' 0 = Some WatchedRoot.ACTIVE
  /\ statusOf fs' 1 = Some WatchedRoot.STARTING
  /\ trace fs' = trace fs ++ [ImplCall watchPath "/a/" None].
Proof. vm_compute. repeat split. Qed.

(** C10 at the entry "/a/b/", a starting watched root, while the root
    "/a/", registered before it, is inactive and still waits for the
    backend to unwatch it: the lookup stops at "/a/", [watch] reports no
    error and registers "/a/b/" a second time, with a second request to
    the backend behind the first. *)
Theorem watch_again_behind_inactive_root :
  let fs := parentLeaving in
  let fs' := watch unwatched 0 acceptAll None (Some (CbClient 4)) fs in
  pathOf fs 0 = "/a/b/"
  /\ _watchedRoots fs = [("/a/", 0); ("/a/b/", 1)]
  /\ statusOf fs 0 = Some WatchedRoot.INACTIVE
  /\ statusOf fs 1 = Some WatchedRoot.STARTING
  /\ _findWatchedRootForPath "/a/b/" fs = Some 0
  /\ _watchedRoots fs' = [("/a/", 0); ("/a/b/", 2)]
  /\ statusOf fs' 2 = Some WatchedRoot.STARTING
  /\ trace fs' = trace fs
  /\ map req_cb (_watchRequests fs')
     = [CbUnwatchEntry 1 (CbUnwatch "/a/" 1 (CbClient 2));
        CbWatch "/a/b/" 0 1 (CbClient 3);
        CbWatch "/a/b/" 0 2 (CbClient 4)].
Proof. vm_compute. repeat split. Qed.

(** ** Entries for paths *)

Lemma getEntryForPath_indexed directory path n fs :
  _normalizePath (normalizeUNCPaths (_impl fs)) path directory = Ok n ->
  indexKeyed fs ->
  exists r fs',
    _getEntryForPath directory path fs = (Ok r, fs')
    /\ _index fs' !! n = Some r
    /\ indexKeyed fs'
    /\ normalizeUNCPaths (_impl fs') = normalizeUNCPaths (_impl fs)
    /\ _fileProtocolPlugins fs' = _fileProtocolPlugins fs
    /\ (forall r0, getEntry n fs = Some r0 -> r = r0 /\ fs' = fs).
Proof.
  intros Hn Hk. unfold _getEntryForPath, bind, get, liftResult. rewrite Hn.
  unfold ret. destruct (getEntry n fs) as [r|] eqn:E.
  - exists r, fs. repeat split; try done; intros; congruence.
  - unfold newEntry, addEntry, pathOf.
    cbn [entries set_entries _index set_index _impl _fileProtocolPlugins].
    rewrite lookup_app_r by lia. rewrite Nat.sub_diag. cbn [lookup list_lookup fullPath freshEntry].
    eexists _, _. split; [reflexivity|].
    cbn [entries set_entries _index set_index _impl _fileProtocolPlugins].
    split; [apply lookup_insert_eq|].
    split; [|repeat split; intros; congruence].
    intros q r0 Hq. cbn [entries set_entries _index set_index] in *.
    destruct (decide (n = q)) as [->|Hne].
    + rewrite lookup_insert_eq in Hq. injection Hq as <-.
      exists (freshEntry q (negb directory)). split; [|reflexivity].
      rewrite lookup_app_r by lia. by rewrite Nat.sub_diag.
    + rewrite lookup_insert_ne in Hq by done.
      destruct (Hk q r0 Hq) as (e & He & Hp). exists e. split; [|done].
      by apply lookup_app_l_Some.
Qed.

(** In a keyed index two entries with the same path are one entry. *)
Lemma indexKeyed_unique fs q1 q2 r1 r2 :
  indexKeyed fs ->
  _index fs !! q1 = Some r1 -> _index fs !! q2 = Some r2 ->
  pathOf fs r1 = pathOf fs r2 -> r1 = r2.
Proof.
  intros Hk H1 H2 Hp. unfold pathOf in Hp.
  destruct (Hk _ _ H1) as (e1 & He1 & <-). destruct (Hk _ _ H2) as (e2 & He2 & <-).
  rewrite He1, He2 in Hp. rewrite Hp in H1. congruence.
Qed.

(** [_getEntryForPath], with what it leaves written out. *)
Lemma getEntryForPath_state directory path fs :
  _getEntryForPath directory path fs
  = match _normalizePath (normalizeUNCPaths (_impl fs)) path directory with
    | Throw msg => (Throw msg, fs)
    | Ok n =>
        match _index fs !! n with
        | Some r => (Ok r, fs)
        | None =>
            (Ok (length (entries fs)),
             set_index (<[n := length (entries fs)]> (_index fs))
               (set_entries (entries fs ++ [freshEntry n (negb directory)]) fs))
        end
    end.
Proof.
  unfold _getEntryForPath, bind, get, liftResult.
  destruct (_normalizePath _ path directory) as [n|msg]; [|done].
  unfold ret, getEntry. destruct (_index fs !! n); [done|].
  unfold newEntry, addEntry, pathOf. cbn [entries set_entries _index set_index].
  rewrite lookup_app_r by lia. by rewrite Nat.sub_diag.
Qed.

(** Where no adapter provides a file implementation, [getFileForPath]
    is [_getEntryForPath] on the path served. *)
Lemma getFileForPath_local getPathForVirtualServingURL parseUrlProtocol p fs :
  adapterFileImpl parseUrlProtocol (servedPath getPathForVirtualServingURL p) fs = None ->
  getFileForPath getPathForVirtualServingURL parseUrlProtocol p fs
  = _getEntryForPath false (servedPath getPathForVirtualServingURL p) fs.
Proof.
  intros Ha. unfold getFileForPath, bind, get. unfold adapterFileImpl in Ha.
  destruct (_getProtocolAdapter _ None fs) as [a|]; [|reflexivity].
  by rewrite Ha.
Qed.

(** Where an adapter provides one, [getFileForPath] constructs an
    object and leaves the index alone. *)
Lemma getFileForPath_remote getPathForVirtualServingURL parseUrlProtocol p fs impl :
  adapterFileImpl parseUrlProtocol (servedPath getPathForVirtualServingURL p) fs
  = Some impl ->
  getFileForPath getPathForVirtualServingURL parseUrlProtocol p fs
  = (Ok (length (entries fs)),
     set_entries
       (entries fs ++ [freshEntry (servedPath getPathForVirtualServingURL p) true]) fs).
Proof.
  intros Ha. unfold getFileForPath, bind, get. unfold adapterFileImpl in Ha.
  destruct (_getProtocolAdapter _ None fs) as [a|]; [|done].
  by rewrite Ha.
Qed.

(** C2, as the code has it.  Where no protocol adapter provides a file
    implementation for a path, [getFileForPath] returns the entry that
    the index holds under the normalised path (a virtual serving URL
    being first replaced by the path it serves), and creates and files
    one if it holds none.  A call that follows at once with a path that
    normalises to the same string returns the identical entry and
    changes nothing; a call in any later state returns the identical
    entry exactly if the index still holds it under that path, and
    otherwise another object.  The index, filed by the paths of its
    entries, has one entry per path.  Where an adapter provides a file
    implementation, each call constructs an object that did not exist
    before, the index is left as it is and does not hold the object, and
    no later call for a path an adapter claims returns it again. *)
Theorem getFileForPath_same_entry
    (getPathForVirtualServingURL : string -> option string)
    (parseUrlProtocol : string -> string)
    (fs : FileSystem) (p1 : string) :
  let served := servedPath getPathForVirtualServingURL in
  let getFile := getFileForPath getPathForVirtualServingURL parseUrlProtocol in
  indexKeyed fs ->
  (forall n,
     adapterFileImpl parseUrlProtocol (served p1) fs = None ->
     _normalizePath (normalizeUNCPaths (_impl fs)) (served p1) false = Ok n ->
     exists r fs1,
       getFile p1 fs = (Ok r, fs1)
       /\ _index fs1 !! n = Some r
       /\ pathOf fs1 r = n
       /\ indexKeyed fs1
       /\ (forall q1 q2 r1 r2,
             _index fs1 !! q1 = Some r1 -> _index fs1 !! q2 = Some r2 ->
             pathOf fs1 r1 = pathOf fs1 r2 -> r1 = r2)
       /\ (forall p2,
             adapterFileImpl parseUrlProtocol (served p2) fs = None ->
             _normalizePath (normalizeUNCPaths (_impl fs)) (served p2) false = Ok n ->
             getFile p2 fs1 = (Ok r, fs1))
       /\ (forall fs2 p2,
             is_Some (entries fs2 !! r) ->
             adapterFileImpl parseUrlProtocol (served p2) fs2 = None ->
             _normalizePath (normalizeUNCPaths (_impl fs2)) (served p2) false = Ok n ->
             exists r2 fs3,
               getFile p2 fs2 = (Ok r2, fs3)
               /\ (r2 = r <-> _index fs2 !! n = Some r)
               /\ (_index fs2 !! n = Some r -> fs3 = fs2)))
  /\ (forall impl,
        adapterFileImpl parseUrlProtocol (served p1) fs = Some impl ->
        exists r fs1,
          getFile p1 fs = (Ok r, fs1)
          /\ entries fs !! r = None
          /\ entries fs1 !! r = Some (freshEntry (served p1) true)
          /\ _index fs1 = _index fs
          /\ (forall q, _index fs1 !! q <> Some r)
          /\ (forall fs2 p2 impl2,
                is_Some (entries fs2 !! r) ->
                adapterFileImpl parseUrlProtocol (served p2) fs2 = Some impl2 ->
                exists r2 fs3, getFile p2 fs2 = (Ok r2, fs3) /\ r2 <> r)).
Proof.
  intros served getFile Hk. split.
  - intros n Ha1 Hn1.
    destruct (getEntryForPath_indexed false (served p1) n fs Hn1 Hk)
      as (r & fs1 & H1 & Hidx & Hk1 & Hunc & Hplug & _).
    exists r, fs1. unfold getFile. rewrite getFileForPath_local by done.
    split; [exact H1|]. split; [exact Hidx|]. split.
    { destruct (Hk1 n r Hidx) as (e & He & Hp). unfold pathOf. by rewrite He. }
    split; [exact Hk1|]. split.
    { intros q1 q2 r1 r2. by apply indexKeyed_unique. }
    split.
    + intros p2 Ha2 Hn2.
      assert (Ha2' : adapterFileImpl parseUrlProtocol (served p2) fs1 = None).
      { unfold adapterFileImpl, _getProtocolAdapter in *. by rewrite Hplug. }
      rewrite getFileForPath_local by done.
      rewrite <- Hunc in Hn2.
      destruct (getEntryForPath_indexed false (served p2) n fs1 Hn2 Hk1)
        as (r' & fs2 & H2 & _ & _ & _ & _ & Hsame).
      by destruct (Hsame r Hidx) as [-> ->].
    + intros fs2 p2 [e He] Ha2 Hn2.
      rewrite getFileForPath_local by done.
      fold served. rewrite getEntryForPath_state, Hn2.
      destruct (_index fs2 !! n) as [r'|] eqn:E.
      * exists r', fs2. split; [done|]. split; [|done].
        split; [by intros -> | by intros [= ->]].
      * eexists _, _. split; [reflexivity|]. split; [|done].
        split; [|done]. intros <-.
        apply lookup_lt_Some in He. lia.
  - intros impl Ha.
    exists (length (entries fs)),
      (set_entries (entries fs ++ [freshEntry (served p1) true]) fs).
    split; [by apply getFileForPath_remote with impl|].
    split; [by apply lookup_ge_None_2|].
    cbn [entries set_entries _index].
    split; [rewrite lookup_app_r by lia; by rewrite Nat.sub_diag|].
    split; [done|]. split.
    + intros q Hq. destruct (Hk q _ Hq) as (e & He & _).
      apply lookup_lt_Some in He. lia.
    + intros fs2 p2 impl2 [e He] Ha2. eexists _, _.
      split; [by apply getFileForPath_remote with impl2|].
      apply lookup_lt_Some in He. lia.
Qed.

Lemma getFileForPath_same_entry_witness :
  let fs := newFileSystem emptyImpl in
  let getFile := getFileForPath noVirtualServing Url.protocol in
  let url := "https://example.com/a.js" in
  indexKeyed fs
  /\ adapterFileImpl Url.protocol "/a//b/../f.txt" fs = None
  /\ _normalizePath false "/a//b/../f.txt" false = Ok "/a/f.txt"
  /\ adapterFileImpl Url.protocol "/a/f.txt" fs = None
  /\ _normalizePath false "/a/f.txt" false = Ok "/a/f.txt"
  /\ (exists r fs1,
        getFile "/a//b/../f.txt" fs = (Ok r, fs1)
        /\ getFile "/a/f.txt" fs1 = (Ok r, fs1)
        /\ _index fs1 !! "/a/f.txt" = Some r)
  /\ indexKeyed (loaded emptyImpl)
  /\ adapterFileImpl Url.protocol url (loaded emptyImpl) = Some "RemoteFile"
  /\ (exists r fs1,
        getFile url (loaded emptyImpl) = (Ok r, fs1)
        /\ entries (loaded emptyImpl) !! r = None
        /\ forall q, _index fs1 !! q <> Some r).
Proof.
  intros fs getFile url.
  assert (Hk : indexKeyed fs) by (intros q r H; discriminate H).
  assert (Hk' : indexKeyed (loaded emptyImpl)) by (intros q r H; discriminate H).
  split; [exact Hk|]. do 4 (split; [reflexivity|]). split.
  - destruct (proj1 (getFileForPath_same_entry noVirtualServing Url.protocol fs
                       "/a//b/../f.txt" Hk) "/a/f.txt" eq_refl eq_refl)
      as (r & fs1 & H1 & H2 & _ & _ & _ & H3 & _).
    exists r, fs1. split; [exact H1|]. split; [|exact H2].
    exact (H3 "/a/f.txt" eq_refl eq_refl).
  - split; [exact Hk'|]. split; [reflexivity|].
    destruct (proj2 (getFileForPath_same_entry noVirtualServing Url.protocol
                       (loaded emptyImpl) url Hk') "RemoteFile" eq_refl)
      as (r & fs1 & H1 & H2 & _ & _ & H3 & _).
    exists r, fs1. split; [exact H1|]. split; [exact H2 | exact H3].
Defined.

(** C2, as stated, fails: with the adapters the module registers for
    "http:" and "https:", two calls of [getFileForPath] on the same URL
    return two distinct objects, and neither is in the index. *)
Lemma getFileForPath_remote_counterexample :
  let getFile := getFileForPath noVirtualServing Url.protocol "https://example.com/a.js" in
  let first := getFile (loaded emptyImpl) in
  let second := getFile (stateOf first) in
  valueOf first = Ok 0
  /\ valueOf second = Ok 1
  /\ _index (stateOf second) = ∅.
Proof. vm_compute. repeat split. Qed.

(** An entry that has left the index is not found again: once the
    unwatch of the root "/a/b/" has completed, the file "/a/b/x.txt",
    which was the entry 2, is a new entry. *)
Lemma getFileForPath_after_unwatch :
  let getFile := getFileForPath noVirtualServing Url.protocol "/a/b/x.txt" in
  let unwatched_ := requestCb unwatched None (unwatch unwatched 0 None watchedWithFiles) in
  valueOf (getFile watchedWithFiles) = Ok 2
  /\ _index unwatched_ !! "/a/b/x.txt" = None
  /\ valueOf (getFile unwatched_) = Ok 4.
Proof. vm_compute. repeat split. Qed.

(** ** Directory changes *)

Lemma dirCalls_emit id ev fs :
  dirCalls id (emit ev fs)
  = dirCalls id fs ++ match dirCall id ev with Some c => [c] | None => [] end.
Proof.
  unfold dirCalls, emit. cbn [trace set_trace].
  rewrite omap_app. cbn. by destruct (dirCall id ev).
Qed.

Lemma visitAll_entries_only (f : ref -> FileSystem -> FileSystem) fs :
  (forall x fs, exists es, f x fs = set_entries es fs) ->
  exists es, visitAll f fs = set_entries es fs.
Proof. intros Hf. unfold visitAll. by apply forEach_entries_only. Qed.

Lemma clear_under_entries_only (which : FileSystem -> ref -> ref -> bool) entry fs :
  exists es,
    visitAll (fun child fs =>
                if which fs entry child then _clearCachedData true child fs else fs) fs
    = set_entries es fs.
Proof.
  apply visitAll_entries_only. intros x fs0.
  destruct (which fs0 entry x).
  - apply clearCachedData_entries_only.
  - exists (entries fs0). by destruct fs0.
Qed.

(** One completion: the counter goes down by one, and the client
    callback is called exactly if it reaches zero. *)
Lemma complete_one isWatched join op err fs j id :
  joins fs !! join = Some j ->
  join_callback j = DcClient id ->
  let fs' := applyCallback isWatched (subCallback join op) err fs in
  joins fs' !! join = Some (set_counter (counter j - 1) j)
  /\ dirCalls id fs'
     = dirCalls id fs
       ++ (if (counter j - 1 =? 0)%Z then [(addedEntries j, removedEntries j)] else [])
  /\ roots fs' = roots fs.
Proof.
  intros Hj Hcb.
  assert (Hcount : forall fs0,
             joins fs0 !! join = Some j ->
             let fs' := applyCallback isWatched (CbWatchOrUnwatch join) err fs0 in
             joins fs' !! join = Some (set_counter (counter j - 1) j)
             /\ dirCalls id fs'
                = dirCalls id fs0
                  ++ (if (counter j - 1 =? 0)%Z
                      then [(addedEntries j, removedEntries j)] else [])
             /\ roots fs' = roots fs0).
  { intros fs0 Hj0. cbn [applyCallback].
    set (fs1 := if truthy err then emit (ConsoleError _) fs0 else fs0).
    assert (H1 : joins fs1 = joins fs0 /\ dirCalls id fs1 = dirCalls id fs0
                 /\ roots fs1 = roots fs0).
    { subst fs1. destruct (truthy err); [|done].
      split; [done|]. split; [|done]. rewrite dirCalls_emit. cbn. by rewrite app_nil_r. }
    destruct H1 as (Hjs & Hdc & Hrs). rewrite Hjs, Hj0.
    assert (Hlook : <[join:=set_counter (counter j - 1) j]> (joins fs0) !! join
                    = Some (set_counter (counter j - 1) j)).
    { apply list_lookup_insert_eq. by eapply lookup_lt_Some. }
    destruct (counter j - 1 =? 0)%Z.
    - rewrite Hcb. cbn [applyDirCallback]. split; [|split].
      + exact Hlook.
      + rewrite dirCalls_emit. cbn [dirCall]. rewrite Nat.eqb_refl.
        f_equal. exact Hdc.
      + exact Hrs.
    - split; [|split].
      + exact Hlook.
      + rewrite app_nil_r. exact Hdc.
      + exact Hrs. }
  destruct op as [entry|entry]; cbn [subCallback].
  - by apply Hcount.
  - cbn [applyCallback].
    destruct (clear_under_entries_only
                (fun fs a b => isUnder fs a b) entry fs) as [es Hes].
    rewrite Hes.
    destruct (Hcount (set_entries es fs) Hj) as (H1 & H2 & H3).
    split; [exact H1|]. split; [exact H2|]. exact H3.
Qed.

(** Completions in any number up to the counter: the client callback
    has been called once if the counter has reached zero and not at all
    before. *)
Lemma complete_upto isWatched join id schedule :
  forall fs j,
    joins fs !! join = Some j ->
    join_callback j = DcClient id ->
    (0 < counter j)%Z ->
    (Z.of_nat (length schedule) <= counter j)%Z ->
    dirCalls id (complete isWatched join schedule fs)
    = dirCalls id fs
      ++ (if (Z.of_nat (length schedule) =? counter j)%Z
          then [(addedEntries j, removedEntries j)] else []).
Proof.
  induction schedule as [|[op err] schedule IH]; intros fs j Hj Hcb Hpos Hlen.
  - unfold complete, forEach_. cbn [fold_left length]. change (Z.of_nat 0) with 0%Z.
    destruct (Z.eqb_spec 0 (counter j)); [lia|]. by rewrite app_nil_r.
  - unfold complete, forEach_. cbn [fold_left fst snd].
    destruct (complete_one isWatched join op err fs j id Hj Hcb) as (Hj' & Hdc & _).
    cbn zeta in Hj', Hdc.
    set (fs' := applyCallback isWatched (subCallback join op) err fs) in *.
    change (fold_left _ schedule fs') with (complete isWatched join schedule fs').
    cbn [length] in Hlen |- *.
    destruct (Z.eqb_spec (counter j - 1) 0) as [E0|E0].
    + assert (schedule = []) as -> by (destruct schedule; [done | cbn in Hlen; lia]).
      unfold complete, forEach_. cbn [fold_left length]. rewrite Hdc.
      destruct (Z.eqb_spec (Z.of_nat 1) (counter j)); [done | lia].
    + rewrite (IH fs' (set_counter (counter j - 1) j) Hj' Hcb) by (cbn; lia).
      rewrite Hdc, app_nil_r. cbn [counter set_counter addedEntries removedEntries].
      f_equal.
      destruct (Z.eqb_spec (Z.of_nat (length schedule)) (counter j - 1)),
               (Z.eqb_spec (Z.of_nat (S (length schedule))) (counter j));
        try reflexivity; lia.
Qed.

Lemma forEach_app {A} (f : A -> FileSystem -> FileSystem) l1 l2 fs :
  forEach_ f (l1 ++ l2) fs = forEach_ f l2 (forEach_ f l1 fs).
Proof. unfold forEach_. apply fold_left_app. Qed.

Lemma forEach_map {A B} (g : A -> B) (f : B -> FileSystem -> FileSystem) l fs :
  forEach_ f (map g l) fs = forEach_ (fun x => f (g x)) l fs.
Proof. revert fs. induction l as [|x l IH]; intros fs; [done|]. cbn. apply IH. Qed.

(** Sub-operations on entries other than the root's own entry complete
    at once, without an error, in the order they are issued. *)
Lemma issue_completes isWatched join id r w ops :
  forall fs j,
    joins fs !! join = Some j ->
    join_callback j = DcClient id ->
    roots fs !! r = Some w ->
    Forall (fun op => subEntry op <> WatchedRoot.entry w) ops ->
    forEach_ (fun op => _watchOrUnwatchEntry isWatched (subEntry op) r
                          (subCallback join op) (isWatch op)) ops fs
    = complete isWatched join (map (fun op => (op, None)) ops) fs.
Proof.
  induction ops as [|op ops IH]; intros fs j Hj Hcb Hr Hall; [done|].
  apply Forall_cons in Hall as [Hop Hall].
  unfold complete, forEach_. cbn [fold_left map fst snd].
  change (fold_left _ ops ?s)
    with (forEach_ (fun op => _watchOrUnwatchEntry isWatched (subEntry op) r
                                (subCallback join op) (isWatch op)) ops s).
  change (fold_left _ (map _ ops) ?s)
    with (complete isWatched join (map (fun op => (op, None)) ops) s).
  assert (Hone : _watchOrUnwatchEntry isWatched (subEntry op) r
                   (subCallback join op) (isWatch op) fs
                 = applyCallback isWatched (subCallback join op) None fs).
  { unfold _watchOrUnwatchEntry. rewrite Hr.
    destruct (Nat.eqb_spec (subEntry op) (WatchedRoot.entry w)); [done|reflexivity]. }
  rewrite Hone.
  destruct (complete_one isWatched join op None fs j id Hj Hcb) as (Hj' & _ & Hrs).
  cbn zeta in Hj', Hrs.
  eapply IH; [exact Hj' | exact Hcb | by rewrite Hrs | exact Hall].
Qed.

(** C8: for a directory under a watched root whose filter accepts it,
    with [n > 0] entries added or removed, [_handleDirectoryChange]
    issues the [n] watch and unwatch operations with one counter set to
    [n]; whatever the order in which they complete and whatever errors
    they report, the change callback has not been called while one of
    them is outstanding and has been called exactly once, with the two
    change sets, when the last has completed.  As the facade runs them
    itself, on entries other than the root's own, they complete in the
    order of issue and the callback is called once. *)
Theorem directoryChange_callback_once
    (isWatched : FileSystem -> ref -> bool) (name parentPath : Entry -> string)
    (fs : FileSystem) (directory : ref) (d : Entry) (r : ref) (w : WatchedRoot.t)
    (old contents : list ref) (id : nat) :
  entries fs !! directory = Some d ->
  _findWatchedRootForPath (pathOf fs directory) fs = Some r ->
  roots fs !! r = Some w ->
  WatchedRoot.filter w (name d) (parentPath d) = true ->
  let added := List.filter (fun entry => negb (includes entry old)) contents in
  let removed := List.filter (fun entry => negb (includes entry contents)) old in
  let n := length added + length removed in
  0 < n ->
  let join := length (joins fs) in
  let issuing :=
    set_joins (joins fs ++ [mkJoin (Z.of_nat n) (Some added) (Some removed) (DcClient id)])
      fs in
  let listed :=
    applyContentsCallback isWatched name parentPath
      (CcDirectoryChange directory (Some old) (DcClient id)) contents fs in
  listed
  = forEach_ (fun op => _watchOrUnwatchEntry isWatched (subEntry op) r
                          (subCallback join op) (isWatch op))
      (issued added removed) issuing
  /\ (forall schedule,
        Permutation (map fst schedule) (issued added removed) ->
        forall completed outstanding,
          schedule = completed ++ outstanding ->
          dirCalls id (complete isWatched join completed issuing)
          = dirCalls id fs
            ++ (if bool_decide (outstanding = [])
                then [(Some added, Some removed)] else []))
  /\ (Forall (fun entry => entry <> WatchedRoot.entry w) (added ++ removed) ->
      dirCalls id listed = dirCalls id fs ++ [(Some added, Some removed)]).
Proof.
  intros Hd Hfind Hr Hfilter added removed n Hn join issuing listed.
  assert (Hjoin : joins issuing !! join
                  = Some (mkJoin (Z.of_nat n) (Some added) (Some removed) (DcClient id))).
  { subst issuing join. cbn [joins set_joins].
    rewrite lookup_app_r by lia. by rewrite Nat.sub_diag. }
  assert (Hissue : listed
                   = forEach_ (fun op => _watchOrUnwatchEntry isWatched (subEntry op) r
                                           (subCallback join op) (isWatch op))
                       (issued added removed) issuing).
  { subst listed. unfold applyContentsCallback. rewrite Hfind, Hr, Hd, Hfilter.
    cbn [negb]. fold added removed.
    change (length added + length removed) with n.
    destruct (Z.eqb_spec (Z.of_nat n) 0) as [E|_]; [lia|].
    fold join issuing. unfold issued. rewrite forEach_app, !forEach_map.
    reflexivity. }
  assert (Hlen : length (issued added removed) = n).
  { unfold issued. by rewrite length_app, !length_map. }
  assert (Hsched : forall schedule,
             (length schedule <= n)%nat ->
             dirCalls id (complete isWatched join schedule issuing)
             = dirCalls id fs
               ++ (if (Z.of_nat (length schedule) =? Z.of_nat n)%Z
                   then [(Some added, Some removed)] else [])).
  { intros schedule Hle.
    rewrite (complete_upto isWatched join id schedule issuing _ Hjoin)
      by (cbn; first [reflexivity | lia]).
    reflexivity. }
  split; [exact Hissue|]. split.
  - intros schedule Hperm completed outstanding ->.
    apply Permutation_length in Hperm.
    rewrite length_map, length_app, Hlen in Hperm.
    rewrite Hsched by lia.
    destruct outstanding as [|x outstanding].
    + rewrite bool_decide_eq_true_2 by done. cbn [length] in Hperm.
      destruct (Z.eqb_spec (Z.of_nat (length completed)) (Z.of_nat n)); [done | lia].
    + rewrite bool_decide_eq_false_2 by done. cbn [length] in Hperm.
      destruct (Z.eqb_spec (Z.of_nat (length completed)) (Z.of_nat n)); [lia | done].
  - intros Hall. rewrite Hissue.
    rewrite (issue_completes isWatched join id r w (issued added removed) issuing _
               Hjoin eq_refl Hr).
    + rewrite Hsched by (rewrite length_map; lia).
      rewrite length_map, Hlen.
      destruct (Z.eqb_spec (Z.of_nat n) (Z.of_nat n)); [done | lia].
    + unfold issued. apply Forall_app in Hall as [Ha Hrm].
      apply Forall_app. split; apply Forall_map; [exact Ha | exact Hrm].
Qed.

Lemma directoryChange_callback_once_witness :
  let fs := watchedWithFiles in
  let d := mkEntry "/a/b/" false None None in
  let w := WatchedRoot.mk 0 acceptAll None WatchedRoot.ACTIVE in
  let issuing :=
    set_joins (joins fs ++ [mkJoin 2 (Some [3]) (Some [2]) (DcClient 9)]) fs in
  let listed :=
    applyContentsCallback unwatched noName noName
      (CcDirectoryChange 0 (Some [2]) (DcClient 9)) [3] fs in
  (entries fs !! 0 = Some d
   /\ _findWatchedRootForPath (pathOf fs 0) fs = Some 0
   /\ roots fs !! 0 = Some w
   /\ WatchedRoot.filter w (noName d) (noName d) = true
   /\ 0 < 2)
  /\ dirCalls 9 fs = []
  /\ dirCalls 9 listed = dirCalls 9 fs ++ [(Some [3], Some [2])]
  /\ dirCalls 9 (complete unwatched 0 [(SubUnwatch 2, Some "failed")] issuing)
     = dirCalls 9 fs ++ []
  /\ dirCalls 9 (complete unwatched 0
                   [(SubUnwatch 2, Some "failed"); (SubWatch 3, None)] issuing)
     = dirCalls 9 fs ++ [(Some [3], Some [2])].
Proof.
  intros fs d w issuing listed.
  assert (Hn : 0 < 2) by lia.
  destruct (directoryChange_callback_once unwatched noName noName fs 0 d 0 w [2] [3] 9
              eq_refl eq_refl eq_refl eq_refl Hn) as (_ & Horder & Hrun).
  split; [repeat split; lia|]. split; [reflexivity|]. split; [|split].
  - apply Hrun. repeat constructor; discriminate.
  - apply (Horder [(SubUnwatch 2, Some "failed"); (SubWatch 3, None)]
             (perm_swap _ _ _) [(SubUnwatch 2, Some "failed")] [(SubWatch 3, None)] eq_refl).
  - apply (Horder [(SubUnwatch 2, Some "failed"); (SubWatch 3, None)]
             (perm_swap _ _ _) [(SubUnwatch 2, Some "failed"); (SubWatch 3, None)] [] eq_refl).
Defined.

(** ** Path normalisation *)

Lemma is_slash_true c : is_slash c = true -> c = "/"%char.
Proof. unfold is_slash. apply Ascii.eqb_eq. Qed.

Lemma at_index (segments : list string) i :
  i < length segments ->
  drop i segments = nth i segments "" :: drop (S i) segments
  /\ take (S i) segments = take i segments ++ [nth i segments ""].
Proof.
  intros Hi. destruct (lookup_lt_is_Some_2 segments i Hi) as [y Hy].
  rewrite (nth_lookup_Some _ _ _ _ Hy). split.
  - by apply drop_S.
  - by apply take_S_r.
Qed.

Lemma removeDotDot_resolve path segments i :
  removeDotDot path segments i
  = resolveDotDot path (rev (take i segments)) (drop i segments).
Proof.
  funelim (removeDotDot path segments i).
  - (* the end of the array *)
    rewrite drop_ge by lia. rewrite take_ge by lia. cbn. by rewrite rev_involutive.
  - (* an ordinary segment *)
    destruct (at_index segments i Hlt) as [Hdrop Htake].
    rewrite H, Hdrop. cbn [resolveDotDot]. rewrite Heq.
    replace (i + 1) with (S i) by lia. rewrite Htake, rev_app_distr. reflexivity.
  - (* a ".." too close to the start *)
    destruct (at_index segments i Hlt) as [Hdrop _].
    rewrite Hdrop. cbn [resolveDotDot]. rewrite Heq0.
    rewrite length_rev, length_take.
    destruct (lt_dec (i `min` length segments) 2); [reflexivity | lia].
  - (* a ".." that takes its predecessor with it *)
    destruct (at_index segments i Hlt) as [Hdrop _].
    destruct (at_index segments (i - 1)) as [_ Htake]; [lia|].
    replace (S (i - 1)) with i in Htake by lia.
    rewrite H, Hdrop. cbn [resolveDotDot]. rewrite Heq0.
    rewrite length_rev, length_take.
    destruct (lt_dec (i `min` length segments) 2); [lia|].
    unfold splice2. replace (i - 2 + 1) with (i - 1) by lia.
    replace (i - 1 + 2) with (S i) by lia.
    f_equal.
    + rewrite take_app_le by (rewrite length_take; lia).
      rewrite take_take. replace ((i - 1) `min` (i - 1)) with (i - 1) by lia.
      rewrite Htake, rev_app_distr. reflexivity.
    + rewrite drop_app_ge by (rewrite length_take; lia).
      rewrite length_take.
      replace (i - 1 - (i - 1) `min` length segments) with 0 by lia. reflexivity.
Qed.


(** *** Splitting and joining *)

Lemma app_String c t s : String c t +:+ s = String c (t +:+ s).
Proof. reflexivity. Qed.

Lemma app_empty s : "" +:+ s = s.
Proof. reflexivity. Qed.

Lemma split_nonempty s : split s <> [].
Proof.
  destruct s as [|c t]; cbn; [done|].
  destruct (is_slash c); [done|]. by destruct (split t).
Qed.

Lemma split_cons s : exists b m, split s = b :: m.
Proof. destruct (split s) eqn:E; [by apply split_nonempty in E | eauto]. Qed.

Lemma split_noSlash x : noSlash x = true -> split x = [x].
Proof.
  induction x as [|c t IH]; cbn; [done|].
  intros [Hc Ht]%andb_true_iff. apply negb_true_iff in Hc. rewrite Hc.
  by rewrite (IH Ht).
Qed.

Lemma split_app x s :
  noSlash x = true -> split (x +:+ "/" +:+ s) = x :: split s.
Proof.
  induction x as [|c t IH]; [done|]. cbn [noSlash].
  intros [Hc Ht]%andb_true_iff. apply negb_true_iff in Hc.
  rewrite app_String. cbn [split]. rewrite Hc. by rewrite (IH Ht).
Qed.

Lemma split_segments s : Forall (fun x => noSlash x = true) (split s).
Proof.
  induction s as [|c t IH]; cbn; [by repeat constructor|].
  destruct (is_slash c) eqn:Hc; [by constructor|].
  destruct (split_cons t) as (b & m & E). rewrite E in *.
  apply Forall_cons in IH as [Hb Hm]. constructor; [|done]. cbn [noSlash]. by rewrite Hc, Hb.
Qed.

Lemma join_cons b m :
  join (b :: m) = match m with [] => b | _ => b +:+ "/" +:+ join m end.
Proof. by destruct m. Qed.

Lemma join_split s : join (split s) = s.
Proof.
  induction s as [|c t IH]; [done|]. cbn [split].
  destruct (split_cons t) as (b & m & E). rewrite E in *.
  destruct (is_slash c) eqn:Hc.
  - apply is_slash_true in Hc as ->. rewrite join_cons, IH. reflexivity.
  - rewrite join_cons. rewrite join_cons in IH.
    destruct m; [by rewrite IH | by rewrite app_String, IH].
Qed.

Lemma split_join l :
  l <> [] -> Forall (fun x => noSlash x = true) l -> split (join l) = l.
Proof.
  induction l as [|x l IH]; [done|]. intros _ [Hx Hl]%Forall_cons.
  rewrite join_cons. destruct l as [|y l]; [by apply split_noSlash|].
  rewrite split_app by done. f_equal. by apply IH.
Qed.

Lemma split_snoc s : split (s +:+ "/") = split s ++ [""].
Proof.
  induction s as [|c t IH]; [done|]. rewrite app_String. cbn [split]. rewrite IH.
  destruct (is_slash c); [done|]. destruct (split_cons t) as (b & m & ->). done.
Qed.

(** *** Duplicated slashes *)

Lemma noDupSlash_replace b s : noDupSlash b (replaceDupSlash b s) = true.
Proof.
  revert b. induction s as [|c t IH]; intros b; [done|]. cbn.
  destruct (is_slash c) eqn:Hc.
  - destruct b; [apply IH|]. cbn. rewrite Hc. cbn. apply IH.
  - cbn. rewrite Hc. apply IH.
Qed.

Lemma replace_noDupSlash b s : noDupSlash b s = true -> replaceDupSlash b s = s.
Proof.
  revert b. induction s as [|c t IH]; intros b; [done|]. cbn.
  destruct (is_slash c).
  - intros [Hb Ht]%andb_true_iff. apply negb_true_iff in Hb as ->.
    by rewrite (IH _ Ht).
  - intros Ht. by rewrite (IH _ Ht).
Qed.

Lemma noDupSlash_weaken b s : noDupSlash b s = true -> noDupSlash false s = true.
Proof.
  destruct s as [|c t]; [done|]. cbn. destruct (is_slash c); [|done].
  by intros [_ ->]%andb_true_iff.
Qed.

Lemma noSlash_noDupSlash b x : noSlash x = true -> noDupSlash b x = true.
Proof.
  revert b. induction x as [|c t IH]; intros b; [done|]. cbn.
  intros [Hc Ht]%andb_true_iff. apply negb_true_iff in Hc. rewrite Hc. by apply IH.
Qed.

(** A slash-free, non-empty segment in front hides what came before. *)
Lemma noDupSlash_app b x s :
  noSlash x = true ->
  noDupSlash b (x +:+ s) = if String.eqb x "" then noDupSlash b s else noDupSlash false s.
Proof.
  revert b. induction x as [|c t IH]; intros b; [done|]. cbn [noSlash].
  intros [Hc Ht]%andb_true_iff. apply negb_true_iff in Hc.
  rewrite app_String. cbn [noDupSlash]. rewrite Hc.
  rewrite (IH false Ht). change (String c t =? "")%string with false.
  by destruct (String.eqb t "").
Qed.

(** The segments of a path without duplicated slashes: none but the
    first and the last is empty. *)
Lemma noDupSlash_segments b s :
  noDupSlash b s = true ->
  forall first rest,
    split s = first :: rest ->
    (b = true -> rest <> [] -> first <> "")
    /\ Forall (fun x => x <> "") (removelast rest).
Proof.
  revert b. induction s as [|c t IH]; intros b H first rest E.
  - cbn in E. injection E as <- <-. split; [done | constructor].
  - cbn in H, E. destruct (split_cons t) as (b' & m' & Et). rewrite Et in E.
    destruct (is_slash c).
    + apply andb_true_iff in H as [Hb Ht]. apply negb_true_iff in Hb as ->.
      injection E as <- <-. split; [done|].
      destruct (IH true Ht b' m' Et) as [Hfirst Hrest].
      destruct m' as [|y m']; [constructor|].
      cbn [removelast]. constructor; [by apply Hfirst | exact Hrest].
    + injection E as <- <-. split; [done|].
      by destruct (IH false H b' m' Et).
Qed.

Lemma noDupSlash_join_tail m :
  m <> [] ->
  Forall (fun x => noSlash x = true) m ->
  Forall (fun x => x <> "") (removelast m) ->
  noDupSlash true (join m) = true.
Proof.
  induction m as [|x m IH]; [done|]. intros _ [Hx Hm]%Forall_cons Hne.
  rewrite join_cons. destruct m as [|y m]; [by apply noSlash_noDupSlash|].
  cbn [removelast] in Hne. apply Forall_cons in Hne as [Hx0 Hne].
  rewrite noDupSlash_app by done.
  destruct (String.eqb_spec x ""); [done|].
  change (noDupSlash true (join (y :: m)) = true). by apply IH.
Qed.

Lemma noDupSlash_join first rest :
  Forall (fun x => noSlash x = true) (first :: rest) ->
  Forall (fun x => x <> "") (removelast rest) ->
  noDupSlash false (join (first :: rest)) = true.
Proof.
  intros [Hf Hr]%Forall_cons Hne. rewrite join_cons.
  destruct rest as [|y rest]; [by apply noSlash_noDupSlash|].
  rewrite noDupSlash_app by done.
  assert (noDupSlash false ("/" +:+ join (y :: rest)) = true) as ->.
  { change (noDupSlash true (join (y :: rest)) = true).
    by apply noDupSlash_join_tail. }
  by destruct (String.eqb first "").
Qed.


(** *** Removing ".." segments *)

Lemma resolveDotDot_noop path passed coming :
  Forall (fun x => x <> "..") coming ->
  resolveDotDot path passed coming = Ok (rev passed ++ coming).
Proof.
  revert passed. induction coming as [|seg coming IH]; intros passed H; cbn.
  - by rewrite app_nil_r.
  - apply Forall_cons in H as [Hseg H].
    destruct (String.eqb_spec seg ".."); [done|].
    rewrite IH by done. cbn. by rewrite <- app_assoc.
Qed.

Lemma Forall_removelast {A} (P : A -> Prop) l : Forall P l -> Forall P (removelast l).
Proof.
  induction l as [|x l IH]; [done|]. intros [Hx Hl]%Forall_cons.
  destruct l; [constructor|]. cbn [removelast]. constructor; [done | by apply IH].
Qed.

Lemma removelast_snoc {A} (l : list A) x : removelast (l ++ [x]) = l.
Proof. apply removelast_last. Qed.

Lemma last_Forall {A} (P : A -> Prop) l x : Forall P l -> last l = Some x -> P x.
Proof.
  intros H Hl. apply last_Some in Hl as [l' ->].
  apply Forall_app in H as [_ H]. by apply Forall_cons in H as [H _].
Qed.

(** What the loop returns: the first segment stays; no ".." is left
    after it; of the segments after it only the last can be empty, and
    it is empty exactly if the last segment to come was. *)
Lemma resolveDotDot_shape path coming :
  forall passed first mid res,
    rev passed = first :: mid ->
    Forall (fun x => x <> "" /\ x <> ".." /\ noSlash x = true) mid ->
    Forall (fun x => x <> "") (removelast coming) ->
    Forall (fun x => noSlash x = true) coming ->
    resolveDotDot path passed coming = Ok res ->
    exists rest,
      res = first :: rest
      /\ Forall (fun x => x <> ".." /\ noSlash x = true) rest
      /\ Forall (fun x => x <> "") (removelast rest)
      /\ (last rest = Some "" <-> last coming = Some "").
Proof.
  induction coming as [|seg coming IH]; intros passed first mid res Hp Hmid Hne Hns Hres.
  - cbn in Hres. injection Hres as <-. rewrite Hp. exists mid. split; [done|].
    split; [eapply Forall_impl; [exact Hmid | by intros x (_ & ? & ?)]|].
    split; [apply Forall_removelast; eapply Forall_impl; [exact Hmid | by intros x (? & _)]|].
    split; [|done].
    intros Hl. by destruct (last_Forall _ _ _ Hmid Hl) as [? _].
  - apply Forall_cons in Hns as [Hseg Hns].
    assert (Hne' : Forall (fun x => x <> "") (removelast coming)).
    { destruct coming; [constructor|]. cbn [removelast] in Hne.
      by apply Forall_cons in Hne as [_ ?]. }
    assert (Hlast : coming <> [] -> last (seg :: coming) = last coming).
    { destruct coming; [done|]. by rewrite last_cons_cons. }
    cbn [resolveDotDot] in Hres. destruct (String.eqb_spec seg "..") as [->|Hdd].
    + destruct (lt_dec (length passed) 2) as [|Hlen]; [done|].
      destruct passed as [|top passed]; [cbn in Hlen; lia|].
      cbn [tail] in Hres. cbn [rev] in Hp.
      destruct (decide (mid = [])) as [->|Hmid0].
      { apply (f_equal length) in Hp. rewrite length_app, length_rev in Hp.
        cbn in Hp, Hlen. lia. }
      destruct (exists_last Hmid0) as (mid' & y & ->).
      change (first :: mid' ++ [y]) with ((first :: mid') ++ [y]) in Hp.
      apply app_inj_tail in Hp as [Hp _].
      apply Forall_app in Hmid as [Hmid _].
      destruct (IH passed first mid' res Hp Hmid Hne' Hns Hres)
        as (rest & -> & H1 & H2 & H3).
      exists rest. split; [done|]. split; [done|]. split; [done|].
      rewrite H3. destruct coming as [|next coming]; [done|]. by rewrite Hlast.
    + destruct coming as [|next coming].
      * cbn in Hres. injection Hres as <-. rewrite Hp.
        exists (mid ++ [seg]). split; [by rewrite app_comm_cons|].
        split.
        { apply Forall_app. split.
          - eapply Forall_impl; [exact Hmid | by intros x (_ & ? & ?)].
          - by repeat constructor. }
        split.
        { rewrite removelast_snoc.
          eapply Forall_impl; [exact Hmid | by intros x (? & _)]. }
        rewrite last_snoc. cbn [last]. split; by intros [= ->].
      * cbn [removelast] in Hne. apply Forall_cons in Hne as [Hseg0 _].
        assert (Hp' : rev (seg :: passed) = first :: (mid ++ [seg])).
        { cbn [rev]. by rewrite Hp. }
        assert (Hmid' : Forall (fun x => x <> "" /\ x <> ".." /\ noSlash x = true)
                          (mid ++ [seg])).
        { apply Forall_app. split; [done|]. by repeat constructor. }
        destruct (IH (seg :: passed) first (mid ++ [seg]) res Hp' Hmid' Hne' Hns Hres)
          as (rest & -> & H1 & H2 & H3).
        exists rest. split; [done|]. split; [done|]. split; [done|].
        by rewrite H3, Hlast.
Qed.


(** *** Trailing and leading slashes *)

Lemma lastChar_cons c t : t <> "" -> lastChar (String c t) = lastChar t.
Proof. by destruct t. Qed.

Lemma lastChar_app s1 s2 : s2 <> "" -> lastChar (s1 +:+ s2) = lastChar s2.
Proof.
  intros H. induction s1 as [|c t IH]; [done|].
  rewrite app_String, lastChar_cons; [exact IH|].
  destruct t; [exact H | by rewrite app_String].
Qed.

Lemma endsWithSlash_snoc s : endsWithSlash (s +:+ "/") = true.
Proof. unfold endsWithSlash. by rewrite lastChar_app. Qed.

Lemma noSlash_endsWithSlash x : noSlash x = true -> endsWithSlash x = false.
Proof.
  unfold endsWithSlash. induction x as [|c t IH]; [done|]. cbn [noSlash].
  intros [Hc Ht]%andb_true_iff. apply negb_true_iff in Hc.
  destruct t as [|d t]; [exact Hc|]. rewrite lastChar_cons by done. by apply IH.
Qed.

Lemma ensureTrailingSlash_spec s :
  _ensureTrailingSlash s = if endsWithSlash s then s else s +:+ "/".
Proof. unfold _ensureTrailingSlash, endsWithSlash. by destruct (is_char _ _). Qed.

Lemma endsWithSlash_ensure s : endsWithSlash (_ensureTrailingSlash s) = true.
Proof.
  rewrite ensureTrailingSlash_spec. destruct (endsWithSlash s) eqn:E; [done|].
  apply endsWithSlash_snoc.
Qed.

Lemma lastChar_app_slash x s : lastChar (x +:+ "/" +:+ s) = lastChar ("/" +:+ s).
Proof. apply lastChar_app. by change ("/" +:+ s) with (String "/" s). Qed.

Lemma lastChar_slash_app_slash x s :
  lastChar ("/" +:+ x +:+ "/" +:+ s) = lastChar ("/" +:+ s).
Proof.
  change ("/" +:+ x +:+ "/" +:+ s) with (String "/" (x +:+ "/" +:+ s)).
  rewrite lastChar_cons; [apply lastChar_app_slash|].
  destruct x as [|c t]; [by change ("" +:+ "/" +:+ s) with (String "/" s)|].
  by rewrite app_String.
Qed.

(** After a slash, the joined segments end with a slash exactly when
    the last of them is empty. *)
Lemma endsWithSlash_join_tail m :
  m <> [] -> Forall (fun x => noSlash x = true) m ->
  endsWithSlash ("/" +:+ join m) = true <-> last m = Some "".
Proof.
  induction m as [|x m IH]; [done|]. intros _ [Hx Hm]%Forall_cons.
  rewrite join_cons. destruct m as [|y m].
  - cbn [last]. destruct x as [|c t]; [done|].
    unfold endsWithSlash. rewrite lastChar_app by done.
    fold (endsWithSlash (String c t)). rewrite noSlash_endsWithSlash by done.
    split; [done | by intros [=]].
  - rewrite last_cons_cons. rewrite <- IH by done.
    unfold endsWithSlash.
    by rewrite lastChar_slash_app_slash.
Qed.

Lemma endsWithSlash_join first rest :
  Forall (fun x => noSlash x = true) (first :: rest) ->
  endsWithSlash (join (first :: rest)) = true <-> last rest = Some "".
Proof.
  intros [Hf Hr]%Forall_cons. rewrite join_cons. destruct rest as [|y rest].
  - rewrite noSlash_endsWithSlash by done. split; [done | by intros [=]].
  - rewrite <- endsWithSlash_join_tail by done.
    unfold endsWithSlash. by rewrite lastChar_app_slash.
Qed.

Lemma replaceDupSlash_ends b s :
  s <> "" ->
  (replaceDupSlash b s = "" /\ b = true /\ endsWithSlash s = true)
  \/ (replaceDupSlash b s <> ""
      /\ endsWithSlash (replaceDupSlash b s) = endsWithSlash s).
Proof.
  revert b. induction s as [|c t IH]; intros b Hs; [done|]. clear Hs.
  cbn [replaceDupSlash]. destruct (decide (t = "")) as [->|Ht].
  - destruct (is_slash c) eqn:Hc.
    + apply is_slash_true in Hc as ->. destruct b; [by left | by right].
    + by right.
  - assert (Hends : endsWithSlash (String c t) = endsWithSlash t).
    { unfold endsWithSlash. by rewrite lastChar_cons. }
    rewrite Hends. destruct (is_slash c) eqn:Hc.
    + destruct b.
      * destruct (IH true Ht) as [(? & _ & ?)|[? ?]]; [by left | by right].
      * right. split; [done|].
        destruct (IH true Ht) as [(-> & _ & ->)|[Hn <-]].
        -- by apply is_slash_true in Hc as ->.
        -- unfold endsWithSlash. by rewrite lastChar_cons.
    + right. split; [done|].
      destruct (IH false Ht) as [(_ & [=] & _)|[Hn <-]].
      unfold endsWithSlash. by rewrite lastChar_cons.
Qed.

Lemma endsWithSlash_replace s :
  endsWithSlash (replaceDupSlash false s) = endsWithSlash s.
Proof.
  destruct (decide (s = "")) as [->|Hs]; [done|].
  by destruct (replaceDupSlash_ends false s Hs) as [(_ & [=] & _)|[_ ?]].
Qed.

Lemma noDupSlash_snoc b s :
  noDupSlash b s = true ->
  (if String.eqb s "" then b = false else endsWithSlash s = false) ->
  noDupSlash b (s +:+ "/") = true.
Proof.
  revert b. induction s as [|c t IH]; intros b H He.
  - cbn in He. by subst b.
  - rewrite app_String. cbn [noDupSlash] in *. change (String c t =? "")%string with false in He.
    assert (Ht : if (t =? "")%string then is_slash c = false else endsWithSlash t = false).
    { destruct t as [|d t]; [exact He|]. unfold endsWithSlash in *.
      by rewrite lastChar_cons in He. }
    destruct (is_slash c) eqn:Hc.
    + apply andb_true_iff in H as [-> H]. cbn. apply IH; [done|].
      destruct (t =? "")%string; [done | exact Ht].
    + apply IH; [done|]. by destruct (t =? "")%string.
Qed.

Lemma hasDotDot_snoc s : hasDotDot (s +:+ "/") = hasDotDot s.
Proof.
  induction s as [|c t IH]; [done|]. rewrite app_String. cbn [hasDotDot].
  rewrite IH. f_equal. f_equal. by destruct t.
Qed.

Lemma startsWith_slash s : startsWith "/" s = is_char "/" (charAt 0 s).
Proof.
  unfold startsWith. destruct s as [|c t]; [done|].
  change (charAt 0 (String c t)) with (Some c). cbn [is_char].
  destruct (Ascii.eqb_spec c "/") as [->|Hne].
  - by destruct t.
  - cbn [String.prefix]. destruct (Ascii.ascii_dec "/" c); congruence.
Qed.


Lemma startsWith_slash_inv s : startsWith "/" s = true -> exists t, s = String "/" t.
Proof.
  rewrite startsWith_slash. destruct s as [|c t]; [done|].
  change (charAt 0 (String c t)) with (Some c). cbn [is_char].
  intros ->%Ascii.eqb_eq. by exists t.
Qed.

Lemma startsWith_dslash_inv s :
  startsWith "//" s = true -> exists t, s = String "/" (String "/" t).
Proof.
  unfold startsWith. destruct s as [|c [|d t]]; cbn [String.prefix]; try done.
  - by destruct (Ascii.ascii_dec "/" c).
  - destruct (Ascii.ascii_dec "/" c) as [<-|]; [|done].
    destruct (Ascii.ascii_dec "/" d) as [<-|]; [|done]. by exists t.
Qed.

Lemma startsWith_dslash t : startsWith "//" (String "/" (String "/" t)) = true.
Proof.
  unfold startsWith. cbn [String.prefix].
  destruct (Ascii.ascii_dec "/" "/"); [by destruct t | done].
Qed.

Lemma noDupSlash_startsWith s : noDupSlash false s = true -> startsWith "//" s = false.
Proof.
  intros H. destruct (startsWith "//" s) eqn:E; [|done].
  apply startsWith_dslash_inv in E as [t ->]. done.
Qed.

Lemma noDupSlash_dslash b t : noDupSlash b (t +:+ "//") = false.
Proof.
  revert b. induction t as [|c t IH]; intros b; [by destruct b|].
  rewrite app_String. cbn [noDupSlash]. rewrite !IH. by destruct (is_slash c), b.
Qed.

(** *** The stages of [_normalizePath] *)

Lemma normalizePath_unfold unc p d :
  _normalizePath unc p d
  = if negb (isAbsolutePath p)
    then Throw ("Paths must be absolute: '" +:+ p +:+ "'")
    else match normalizeCore (replaceDupSlash false p) d with
         | Throw msg => Throw msg
         | Ok r1 => Ok (if unc && startsWith "//" p then "/" +:+ r1 else r1)
         end.
Proof.
  unfold _normalizePath, normalizeCore. destruct (negb (isAbsolutePath p)); [done|].
  destruct (hasDotDot _); [|done]. by destruct (removeDotDot _ _ _).
Qed.

(** The path as the removal of ".." segments leaves it. *)
Lemma dotDot_stage c r0 :
  noDupSlash false c = true ->
  (if hasDotDot c
   then match removeDotDot c (split c) 1 with
        | Ok segments => Ok (join segments)
        | Throw msg => Throw msg
        end
   else Ok c) = Ok r0 ->
  noDupSlash false r0 = true
  /\ (hasDotDot r0 = true ->
      exists first rest, split r0 = first :: rest /\ Forall (fun x => x <> "..") rest)
  /\ (startsWith "/" c = true -> r0 = "" \/ startsWith "/" r0 = true)
  /\ (endsWithSlash r0 = true <-> endsWithSlash c = true).
Proof.
  intros Hc. destruct (hasDotDot c) eqn:Hdd.
  2:{ intros [= <-]. rewrite Hdd. repeat split; auto; done. }
  rewrite removeDotDot_resolve.
  destruct (split_cons c) as (first0 & rest0 & Hsplit). rewrite Hsplit.
  change (rev (take 1 (first0 :: rest0))) with [first0].
  change (drop 1 (first0 :: rest0)) with rest0.
  destruct (resolveDotDot c [first0] rest0) as [res|msg] eqn:Hres; [|done].
  intros [= <-].
  pose proof (split_segments c) as Hns. rewrite Hsplit in Hns.
  pose proof Hns as Hns'. apply Forall_cons in Hns' as [Hf0 Hr0].
  destruct (noDupSlash_segments false c Hc first0 rest0 Hsplit) as [_ Hne0].
  destruct (resolveDotDot_shape c rest0 [first0] first0 [] res eq_refl
              ltac:(constructor) Hne0 Hr0 Hres) as (rest & -> & Hrest & Hne & Hlast).
  assert (Hns1 : Forall (fun x => noSlash x = true) (first0 :: rest)).
  { constructor; [done|]. eapply Forall_impl; [exact Hrest | by intros x [_ ?]]. }
  split; [by apply noDupSlash_join|]. split; [|split].
  - intros _. exists first0, rest. split; [by apply split_join|].
    eapply Forall_impl; [exact Hrest | by intros x [? _]].
  - intros [t ->]%startsWith_slash_inv. cbn [split] in Hsplit.
    change (is_slash "/") with true in Hsplit. injection Hsplit as <- _.
    rewrite join_cons. destruct rest; [by left | right; by rewrite startsWith_slash].
  - rewrite <- (join_split c), Hsplit.
    rewrite !endsWithSlash_join by done. exact Hlast.
Qed.

Lemma normalizeCore_stable c d r1 :
  noDupSlash false c = true ->
  normalizeCore c d = Ok r1 ->
  noDupSlash false r1 = true
  /\ (hasDotDot r1 = true ->
      exists first rest, split r1 = first :: rest /\ Forall (fun x => x <> "..") rest)
  /\ (d = true -> endsWithSlash r1 = true)
  /\ (startsWith "/" c = true -> r1 = "" \/ startsWith "/" r1 = true)
  /\ (d = false -> (endsWithSlash r1 = true <-> endsWithSlash c = true)).
Proof.
  intros Hc. unfold normalizeCore.
  destruct (if hasDotDot c then _ else _) as [r0|msg] eqn:Hstage; [|done].
  destruct (dotDot_stage c r0 Hc Hstage) as (Hnd & Hseg & Hstart & Hend).
  intros [= <-]. destruct d.
  2:{ split; [done|]. split; [done|]. split; [done|]. split; [done|].
      intros _. exact Hend. }
  rewrite ensureTrailingSlash_spec. destruct (endsWithSlash r0) eqn:He.
  { repeat split; auto; done. }
  split; [|split; [|split; [|split]]]; try done.
  - apply noDupSlash_snoc; [done|]. by destruct (String.eqb r0 "").
  - rewrite hasDotDot_snoc. intros (first & rest & Hs & Hr)%Hseg.
    exists first, (rest ++ [""]). rewrite split_snoc, Hs. split; [done|].
    apply Forall_app. split; [done|]. by repeat constructor.
  - intros _. apply endsWithSlash_snoc.
  - intros [->|[t ->]%startsWith_slash_inv]%Hstart; right; by rewrite startsWith_slash.
Qed.

Lemma normalizeCore_fixed r1 d :
  noDupSlash false r1 = true ->
  (hasDotDot r1 = true ->
   exists first rest, split r1 = first :: rest /\ Forall (fun x => x <> "..") rest) ->
  (d = true -> endsWithSlash r1 = true) ->
  normalizeCore r1 d = Ok r1.
Proof.
  intros Hnd Hseg Hd. unfold normalizeCore.
  assert (Hens : (if d then _ensureTrailingSlash r1 else r1) = r1).
  { destruct d; [|done]. by rewrite ensureTrailingSlash_spec, Hd. }
  destruct (hasDotDot r1); [|by rewrite Hens].
  destruct Hseg as (first & rest & Hs & Hr); [done|].
  rewrite removeDotDot_resolve, Hs.
  change (rev (take 1 (first :: rest))) with [first].
  change (drop 1 (first :: rest)) with rest.
  rewrite resolveDotDot_noop by done. cbn [rev app].
  rewrite <- Hs, join_split. by rewrite Hens.
Qed.

(** C6, as the code has it: normalising a normalised path that is still
    absolute returns it unchanged; a directory path ends, once
    normalised, with a slash, and with one only unless it is "//", a
    UNC prefix with nothing behind; a file path keeps the slash it ends
    with and is given none: normalised, it ends with a slash only if it
    ended with one before, or if it is the "/" that is left of a UNC
    path. *)
Theorem normalizePath_stable (unc : bool) (p : string) (d : bool) (r : string) :
  _normalizePath unc p d = Ok r ->
  (isAbsolutePath r = true -> _normalizePath unc r d = Ok r)
  /\ (d = true ->
      endsWithSlash r = true /\ forall t, r = t +:+ "//" -> t = "")
  /\ (d = false ->
      (endsWithSlash p = true -> endsWithSlash r = true)
      /\ (endsWithSlash r = true -> endsWithSlash p = true \/ r = "/")).
Proof.
  rewrite normalizePath_unfold.
  destruct (negb (isAbsolutePath p)); [done|].
  destruct (normalizeCore (replaceDupSlash false p) d) as [r1|msg] eqn:Hcore; [|done].
  destruct (normalizeCore_stable _ d r1 (noDupSlash_replace false p) Hcore)
    as (Hnd & Hseg & Hd & Hstart & Hfile).
  rewrite endsWithSlash_replace in Hfile.
  pose proof (normalizeCore_fixed r1 d Hnd Hseg Hd) as Hfix.
  destruct (unc && startsWith "//" p) eqn:Hunc; intros [= <-].
  - (* a UNC path *)
    apply andb_true_iff in Hunc as [-> Hp].
    destruct (startsWith_dslash_inv p Hp) as [t ->].
    destruct Hstart as [->|[u ->]%startsWith_slash_inv];
      [by rewrite startsWith_slash| |].
    + (* nothing is left behind the restored slash *)
      assert (d = false) as -> by (destruct d; [by specialize (Hd eq_refl)|done]).
      split; [by intros _|]. split; [done|]. intros _. split; [done | by right].
    + assert (Hends : endsWithSlash ("/" +:+ String "/" u)
                      = endsWithSlash (String "/" u)).
      { unfold endsWithSlash.
        change ("/" +:+ String "/" u) with (String "/" (String "/" u)).
        by rewrite lastChar_cons. }
      split; [|split].
      * intros _. rewrite normalizePath_unfold.
        change (isAbsolutePath ("/" +:+ String "/" u)) with true. cbn [negb].
        assert (replaceDupSlash false ("/" +:+ String "/" u) = String "/" u) as ->.
        { rewrite <- (replace_noDupSlash false (String "/" u) Hnd) at 2. reflexivity. }
        rewrite Hfix.
        change ("/" +:+ String "/" u) with (String "/" (String "/" u)).
        by rewrite startsWith_dslash.
      * intros ->. specialize (Hd eq_refl). split; [by rewrite Hends|].
        intros [|c v] E; [done|].
        change ("/" +:+ String "/" u) with (String "/" (String "/" u)) in E.
        rewrite app_String in E. injection E as _ E.
        rewrite E in Hnd. by rewrite noDupSlash_dslash in Hnd.
      * intros ->. rewrite Hends. split.
        -- by apply Hfile.
        -- intros He. left. by apply Hfile.
  - (* any other path *)
    split; [|split].
    + intros Habs. rewrite normalizePath_unfold, Habs. cbn [negb].
      rewrite (replace_noDupSlash false r1 Hnd), Hfix.
      by rewrite (noDupSlash_startsWith r1 Hnd), andb_false_r.
    + intros ->. split; [by apply Hd|].
      intros t ->. by rewrite noDupSlash_dslash in Hnd.
    + intros ->. split.
      * by apply Hfile.
      * intros He. left. by apply Hfile.
Qed.

Lemma normalizePath_stable_witness :
  _normalizePath false "/a//b/../c" true = Ok "/a/c/"
  /\ isAbsolutePath "/a/c/" = true
  /\ _normalizePath false "/a/c/" true = Ok "/a/c/"
  /\ endsWithSlash "/a/c/" = true
  /\ (forall t, "/a/c/" = t +:+ "//" -> t = "")
  /\ _normalizePath false "/a/b/../c/" false = Ok "/a/c/"
  /\ (endsWithSlash "/a/b/../c/" = true -> endsWithSlash "/a/c/" = true)
  /\ (endsWithSlash "/a/c/" = true ->
      endsWithSlash "/a/b/../c/" = true \/ "/a/c/" = "/").
Proof.
  assert (Hdir : _normalizePath false "/a//b/../c" true = Ok "/a/c/")
    by (vm_compute; reflexivity).
  assert (Hfile : _normalizePath false "/a/b/../c/" false = Ok "/a/c/")
    by (vm_compute; reflexivity).
  destruct (normalizePath_stable false "/a//b/../c" true "/a/c/" Hdir)
    as (Hidem & Hslash & _).
  destruct (normalizePath_stable false "/a/b/../c/" false "/a/c/" Hfile)
    as (_ & _ & Hkeep).
  split; [exact Hdir|]. split; [reflexivity|].
  split; [exact (Hidem eq_refl)|].
  split; [exact (proj1 (Hslash eq_refl))|].
  split; [exact (proj2 (Hslash eq_refl))|].
  split; [exact Hfile|]. exact (Hkeep eq_refl).
Defined.

(** C6, as stated, fails: the path of a file that is given with a
    trailing slash keeps it. *)
Lemma normalizePath_file_counterexample :
  _normalizePath false "/a/" false = Ok "/a/"
  /\ endsWithSlash "/a/" = true.
Proof. split; vm_compute; reflexivity. Qed.

(** When ".." segments use up every segment behind the first, the path
    of a file comes out empty or as a bare drive, which is not absolute:
    normalising it again is an error. *)
Lemma normalizePath_consumed :
  _normalizePath false "/a/.." false = Ok ""
  /\ _normalizePath false "" false = Throw "Paths must be absolute: ''"
  /\ _normalizePath false "c:/a/.." false = Ok "c:"
  /\ _normalizePath false "c:" false = Throw "Paths must be absolute: 'c:'".
Proof. repeat split; vm_compute; reflexivity. Qed.

(** With UNC paths a directory can come out as "//". *)
Lemma normalizePath_unc_root :
  _normalizePath true "//" true = Ok "//"
  /\ _normalizePath true "//a/.." true = Ok "//".
Proof. split; vm_compute; reflexivity. Qed.

(** * Further properties *)

(** ** Path normalisation: what is returned and when it fails *)

Lemma noDupSlash_inside b a t : noDupSlash b (a +:+ "//" +:+ t) = false.
Proof.
  revert b. induction a as [|c a IH]; intros b.
  - change ("" +:+ "//" +:+ t) with (String "/" (String "/" t)).
    cbn [noDupSlash]. change (is_slash "/") with true. cbn. by destruct b.
  - rewrite app_String. cbn [noDupSlash]. rewrite !IH. by destruct (is_slash c), b.
Qed.

Lemma split_head_char t b m x b' :
  split t = b :: m -> b = String x b' -> exists t', t = String x t'.
Proof.
  intros Hs ->. destruct t as [|y t]; [by cbn in Hs|]. cbn [split] in Hs.
  destruct (is_slash y); [done|].
  destruct (split_cons t) as (b0 & m0 & E). rewrite E in Hs.
  injection Hs as -> _ _. by exists t.
Qed.

(** A path without the substring ".." has no ".." segment. *)
Lemma hasDotDot_segments s :
  hasDotDot s = false -> Forall (fun x => x <> "..") (split s).
Proof.
  induction s as [|c t IH]; [by repeat constructor|].
  cbn [hasDotDot split]. intros [Hhere Ht]%orb_false_iff. specialize (IH Ht).
  destruct (is_slash c); [by constructor|].
  destruct (split_cons t) as (b & m & E). rewrite E in *.
  apply Forall_cons in IH as [_ Hm]. constructor; [|done].
  intros [= -> ->].
  destruct (split_head_char t "." m "."%char "" E eq_refl) as [t' ->].
  done.
Qed.

Lemma resolveDotDot_climbs path coming :
  forall passed,
    1 <= length passed ->
    (exists msg, resolveDotDot path passed coming = Throw msg)
    <-> exists k, k + (length passed - 1) < 2 * dotDots (take k coming).
Proof.
  induction coming as [|seg coming IH]; intros passed Hp.
  - cbn. split; [by intros [? ?]|]. intros [k Hk]. rewrite take_nil in Hk.
    cbn in Hk. lia.
  - cbn [resolveDotDot]. destruct (String.eqb_spec seg "..") as [->|Hne].
    + destruct (lt_dec (length passed) 2) as [Hlt|Hge].
      * split; [|by eauto]. intros _. exists 1. cbn. lia.
      * destruct passed as [|top passed]; [cbn in Hp; lia|]. cbn [tail].
        cbn [length] in *. rewrite IH by lia. split.
        -- intros [k Hk]. exists (S k). cbn [take]. unfold dotDots in *.
           cbn [List.filter]. change (".." =? "..")%string with true.
           cbn [length]. lia.
        -- intros [[|k] Hk]; [cbn in Hk; lia|]. exists k.
           cbn [take] in Hk. unfold dotDots in *.
           cbn [List.filter] in Hk. change (".." =? "..")%string with true in Hk.
           cbn [length] in Hk. lia.
    + rewrite IH by (cbn [length]; lia). cbn [length]. split.
      * intros [k Hk]. exists (S k). cbn [take]. unfold dotDots in *.
        cbn [List.filter]. destruct (String.eqb_spec seg ".."); [done|]. lia.
      * intros [[|k] Hk]; [cbn in Hk; lia|]. exists k.
        cbn [take] in Hk. unfold dotDots in *.
        cbn [List.filter] in Hk. destruct (String.eqb_spec seg ".."); [done|]. lia.
Qed.

Lemma dotDots_none segments :
  Forall (fun x => x <> "..") segments -> dotDots segments = 0.
Proof.
  unfold dotDots. induction 1 as [|x l Hx _ IH]; [done|]. cbn.
  by destruct (String.eqb_spec x "..").
Qed.

(** The first segment of an absolute path is empty or a drive, and
    another segment follows it. *)
Lemma absolute_first p :
  isAbsolutePath p = true ->
  exists first rest,
    split (replaceDupSlash false p) = first :: rest
    /\ rest <> []
    /\ (first = "" \/ exists x, first = String x ":").
Proof.
  unfold isAbsolutePath. destruct p as [|c0 p]; [done|].
  cbn [charAt String.get is_char]. fold (is_slash c0).
  cbn [replaceDupSlash split]. destruct (is_slash c0) eqn:Hc0.
  - intros _. cbn [split]. rewrite Hc0. eexists _, _. split; [done|].
    split; [apply split_nonempty | by left].
  - cbn [orb]. destruct p as [|c1 [|c2 p]]; [done|by rewrite andb_false_r|].
    cbn [String.get is_char]. fold (is_slash c2).
    intros [Hc1%Ascii.eqb_eq Hc2]%andb_true_iff. subst c1.
    cbn [split replaceDupSlash]. change (is_slash ":") with false.
    rewrite Hc2. cbn [split]. rewrite Hc0, Hc2. change (is_slash ":") with false.
    eexists _, _. split; [done|]. split; [apply split_nonempty|].
    right. by eexists.
Qed.

(** The segments of what the core returns: the first segment of the
    path, and behind it segments none of which is "..". *)
Lemma normalizeCore_segments c d r1 :
  noDupSlash false c = true ->
  normalizeCore c d = Ok r1 ->
  exists first rest0 rest,
    split c = first :: rest0
    /\ split r1 = first :: rest
    /\ Forall (fun x => x <> "..") rest.
Proof.
  intros Hc. unfold normalizeCore.
  destruct (split_cons c) as (first0 & rest0 & Hsplit).
  assert (Hstage : forall r0,
    (if hasDotDot c
     then match removeDotDot c (split c) 1 with
          | Ok segments => Ok (join segments)
          | Throw msg => Throw msg
          end
     else Ok c) = Ok r0 ->
    exists rest, split r0 = first0 :: rest /\ Forall (fun x => x <> "..") rest).
  { intros r0. destruct (hasDotDot c) eqn:Hdd.
    - rewrite removeDotDot_resolve, Hsplit.
      change (rev (take 1 (first0 :: rest0))) with [first0].
      change (drop 1 (first0 :: rest0)) with rest0.
      destruct (resolveDotDot c [first0] rest0) as [res|msg] eqn:Hres; [|done].
      intros [= <-].
      pose proof (split_segments c) as Hns. rewrite Hsplit in Hns.
      pose proof Hns as Hns'. apply Forall_cons in Hns' as [Hf0 Hr0].
      destruct (noDupSlash_segments false c Hc first0 rest0 Hsplit) as [_ Hne0].
      destruct (resolveDotDot_shape c rest0 [first0] first0 [] res eq_refl
                  ltac:(constructor) Hne0 Hr0 Hres) as (rest & -> & Hrest & _ & _).
      exists rest. split.
      + apply split_join; [done|]. constructor; [done|].
        eapply Forall_impl; [exact Hrest | by intros x [_ ?]].
      + eapply Forall_impl; [exact Hrest | by intros x [? _]].
    - intros [= <-]. exists rest0. split; [done|].
      pose proof (hasDotDot_segments c Hdd) as H. rewrite Hsplit in H.
      by apply Forall_cons in H as [_ ?]. }
  destruct (if hasDotDot c then _ else _) as [r0|msg] eqn:E; [|done].
  intros [= <-]. destruct (Hstage r0 eq_refl) as (rest & Hs & Hr).
  exists first0, rest0. destruct d; [|by exists rest].
  rewrite ensureTrailingSlash_spec. destruct (endsWithSlash r0); [by exists rest|].
  exists (rest ++ [""]). split; [done|]. rewrite split_snoc, Hs. split; [done|].
  apply Forall_app. split; [done|]. by repeat constructor.
Qed.

(** X1. A normalised path has no ".." segment, and no two slashes in a
    row except the two that open a UNC path. *)
Theorem normalizePath_canonical (unc : bool) (p : string) (d : bool) (r : string) :
  _normalizePath unc p d = Ok r ->
  Forall (fun segment => segment <> "..") (split r)
  /\ forall a b, r = a +:+ "//" +:+ b ->
       a = "" /\ unc = true /\ startsWith "//" p = true.
Proof.
  rewrite normalizePath_unfold.
  destruct (isAbsolutePath p) eqn:Habs; [|done]. cbn [negb].
  destruct (normalizeCore (replaceDupSlash false p) d) as [r1|msg] eqn:Hcore; [|done].
  destruct (normalizeCore_stable _ d r1 (noDupSlash_replace false p) Hcore)
    as (Hnd & _).
  destruct (normalizeCore_segments _ d r1 (noDupSlash_replace false p) Hcore)
    as (first & rest0 & rest & Hc & Hr1 & Hrest).
  destruct (absolute_first p Habs) as (first' & rest' & Hc' & _ & Hfirst).
  rewrite Hc in Hc'. injection Hc' as <- _.
  assert (Hsegs : Forall (fun segment => segment <> "..") (split r1)).
  { rewrite Hr1. constructor; [|done]. by destruct Hfirst as [->|[x ->]]. }
  destruct (unc && startsWith "//" p) eqn:Hunc; intros [= <-].
  - apply andb_true_iff in Hunc as [-> Hp]. split.
    + change ("/" +:+ r1) with (String "/" r1). cbn [split].
      change (is_slash "/") with true. by constructor.
    + intros [|x a] b E; [done|].
      change ("/" +:+ r1) with (String "/" r1) in E. rewrite app_String in E.
      injection E as _ E. rewrite E in Hnd. by rewrite noDupSlash_inside in Hnd.
  - split; [done|]. intros a b E. rewrite E in Hnd.
    by rewrite noDupSlash_inside in Hnd.
Qed.

Lemma normalizePath_canonical_witness :
  _normalizePath true "//server//a/../b" true = Ok "//server/b/"
  /\ Forall (fun segment => segment <> "..") (split "//server/b/")
  /\ forall a b, "//server/b/" = a +:+ "//" +:+ b ->
       a = "" /\ true = true /\ startsWith "//" "//server//a/../b" = true.
Proof.
  assert (H : _normalizePath true "//server//a/../b" true = Ok "//server/b/")
    by (vm_compute; reflexivity).
  split; [exact H|].
  exact (normalizePath_canonical true "//server//a/../b" true "//server/b/" H).
Defined.

(** X2. Normalisation fails in two cases only: the path is not
    absolute, or, once its runs of slashes are merged, at some point
    behind the first segment the ".." segments met so far are more than
    the other segments met so far. *)
Theorem normalizePath_fails (unc : bool) (p : string) (d : bool) :
  (exists msg, _normalizePath unc p d = Throw msg)
  <-> isAbsolutePath p = false
      \/ exists k, k < 2 * dotDots (take k (tail (split (replaceDupSlash false p)))).
Proof.
  rewrite normalizePath_unfold. unfold normalizeCore.
  set (c := replaceDupSlash false p).
  destruct (split_cons c) as (first0 & rest0 & Hsplit).
  assert (Hloop : (exists msg, removeDotDot c (split c) 1 = Throw msg)
                  <-> exists k, k < 2 * dotDots (take k (tail (split c)))).
  { rewrite removeDotDot_resolve, Hsplit.
    change (rev (take 1 (first0 :: rest0))) with [first0].
    change (drop 1 (first0 :: rest0)) with rest0. cbn [tail].
    rewrite (resolveDotDot_climbs c rest0 [first0]) by (cbn; lia).
    cbn [length]. split; intros [k Hk]; exists k; lia. }
  destruct (isAbsolutePath p); cbn [negb]; [|split; eauto].
  destruct (hasDotDot c) eqn:Hdd.
  - rewrite <- Hloop. destruct (removeDotDot c (split c) 1) as [segs|msg].
    + split; [by intros [? ?] | by intros [|[? ?]]].
    + split; [intros _; right|]; eauto.
  - split; [by intros [? ?]|]. intros [|[k Hk]]; [done|].
    pose proof (hasDotDot_segments c Hdd) as H. rewrite Hsplit in H, Hk.
    apply Forall_cons in H as [_ H]. cbn [tail] in Hk.
    rewrite (dotDots_none (take k rest0)) in Hk by by apply Forall_take.
    lia.
Qed.

(** X3. The normalised path of a directory is absolute.  That of a
    file is absolute unless ".." segments have used up everything
    behind its first segment, which alone is then returned. *)
Theorem normalizePath_absolute (unc : bool) (p : string) (d : bool) (r : string) :
  _normalizePath unc p d = Ok r ->
  isAbsolutePath r = true
  \/ (d = false /\ noSlash r = true
      /\ head (split (replaceDupSlash false p)) = Some r).
Proof.
  rewrite normalizePath_unfold.
  destruct (isAbsolutePath p) eqn:Habs; [|done]. cbn [negb].
  destruct (normalizeCore (replaceDupSlash false p) d) as [r1|msg] eqn:Hcore; [|done].
  destruct (normalizeCore_stable _ d r1 (noDupSlash_replace false p) Hcore)
    as (_ & _ & Hd & _).
  destruct (normalizeCore_segments _ d r1 (noDupSlash_replace false p) Hcore)
    as (first & rest0 & rest & Hc & Hr1 & _).
  destruct (absolute_first p Habs) as (first' & rest' & Hc' & _ & Hfirst).
  rewrite Hc in Hc'. injection Hc' as <- _.
  destruct (unc && startsWith "//" p); intros [= <-]; [by left|].
  pose proof (join_split r1) as Hjoin. rewrite Hr1, join_cons in Hjoin.
  destruct rest as [|next rest].
  - right. subst r1. rewrite Hc.
    pose proof (split_segments (replaceDupSlash false p)) as Hns.
    rewrite Hc in Hns. apply Forall_cons in Hns as [Hns _].
    split; [|done]. destruct d; [|done].
    by rewrite (noSlash_endsWithSlash first Hns) in Hd; specialize (Hd eq_refl).
  - left. rewrite <- Hjoin. destruct Hfirst as [->|[x ->]]; [done|].
    unfold isAbsolutePath. rewrite !app_String. cbn. by rewrite orb_true_r.
Qed.

Lemma normalizePath_absolute_witness :
  _normalizePath false "c:/a/.." false = Ok "c:"
  /\ (isAbsolutePath "c:" = true
      \/ (false = false /\ noSlash "c:" = true
          /\ head (split (replaceDupSlash false "c:/a/..")) = Some "c:")).
Proof.
  assert (H : _normalizePath false "c:/a/.." false = Ok "c:")
    by (vm_compute; reflexivity).
  split; [exact H|].
  exact (normalizePath_absolute false "c:/a/.." false "c:" H).
Defined.

(** ** Protocol adapters *)

Lemma Dict_get_set {V} k (v : V) d : Dict.get k (Dict.set k v d) = Some v.
Proof.
  induction d as [|[k' w] d IH]; cbn; [by rewrite String.eqb_refl|].
  destruct (String.eqb_spec k' k) as [->|Hne]; cbn.
  - by rewrite String.eqb_refl.
  - by destruct (String.eqb_spec k' k).
Qed.

Lemma Dict_get_set_ne {V} k k' (v : V) d :
  k' <> k -> Dict.get k' (Dict.set k v d) = Dict.get k' d.
Proof.
  intros Hne. induction d as [|[k0 w] d IH]; cbn.
  - by destruct (String.eqb_spec k k').
  - destruct (String.eqb_spec k0 k) as [->|Hne0]; cbn.
    + by destruct (String.eqb_spec k k').
    + by rewrite IH.
Qed.

Lemma insertSorted_split a l :
  exists before after,
    l = before ++ after
    /\ insertSorted a l = before ++ a :: after
    /\ Forall (fun b => (priorityOf a <= priorityOf b)%Z) before
    /\ (descending l -> Forall (fun b => (priorityOf b < priorityOf a)%Z) after).
Proof.
  induction l as [|b l IH]; cbn [insertSorted].
  - exists [], []. repeat split; by constructor.
  - destruct (Z.ltb_spec (priorityOf b) (priorityOf a)) as [Hlt|Hge].
    + exists [], (b :: l). repeat split; [by constructor|].
      intros [Hl Hb]%StronglySorted_inv. constructor; [done|].
      eapply Forall_impl; [exact Hb|]. cbn. intros; lia.
    + destruct IH as (before & after & -> & -> & Hbefore & Hafter).
      exists (b :: before), after. repeat split; [by constructor|].
      intros [Hl _]%StronglySorted_inv. by apply Hafter.
Qed.

Lemma insertSorted_descending a l : descending l -> descending (insertSorted a l).
Proof.
  intros Hl. destruct (insertSorted_split a l) as (before & after & -> & -> & Hb & Ha).
  specialize (Ha Hl). unfold descending in *.
  induction before as [|b before IH]; cbn in *.
  - constructor; [done|]. eapply Forall_impl; [exact Ha|]. cbn. intros; lia.
  - apply StronglySorted_inv in Hl as [Hl Hall].
    apply Forall_cons in Hb as [Hba Hb].
    constructor; [by apply IH|].
    apply Forall_app in Hall as [H1 H2]. apply Forall_app. split; [done|].
    by constructor.
Qed.

Lemma insertSorted_perm a l : Permutation (insertSorted a l) (l ++ [a]).
Proof.
  destruct (insertSorted_split a l) as (before & after & -> & -> & _).
  rewrite <- app_assoc. apply Permutation_app_head.
  rewrite <- Permutation_cons_append. reflexivity.
Qed.

Lemma sortAdapters_snoc l a :
  sortAdapters (l ++ [a]) = insertSorted a (sortAdapters l).
Proof. unfold sortAdapters. by rewrite fold_left_app. Qed.

Lemma sortAdapters_descending l : descending (sortAdapters l).
Proof.
  induction l as [|a l IH] using rev_ind; [constructor|].
  rewrite sortAdapters_snoc. by apply insertSorted_descending.
Qed.

Lemma sortAdapters_perm l : Permutation (sortAdapters l) l.
Proof.
  induction l as [|a l IH] using rev_ind; [done|].
  rewrite sortAdapters_snoc, insertSorted_perm. by rewrite IH.
Qed.

(** Sorting leaves a sorted list as it is. *)
Lemma sortAdapters_sorted l : descending l -> sortAdapters l = l.
Proof.
  induction l as [|a l IH] using rev_ind; [done|].
  intros Hl. rewrite sortAdapters_snoc.
  assert (Hl' : descending l).
  { clear IH. unfold descending in *. induction l as [|b l IHl]; [constructor|].
    cbn in Hl. apply StronglySorted_inv in Hl as [Hl Hall].
    apply Forall_app in Hall as [Hall _]. constructor; [by apply IHl | done]. }
  rewrite (IH Hl'). clear IH Hl'.
  induction l as [|b l IHl]; [done|].
  cbn in Hl. apply StronglySorted_inv in Hl as [Hl Hall].
  cbn [insertSorted]. apply Forall_app in Hall as [_ Ha].
  apply Forall_cons in Ha as [Ha _].
  destruct (Z.ltb_spec (priorityOf b) (priorityOf a)); [lia|].
  cbn. f_equal. by apply IHl.
Qed.

Lemma truthy_Some s : truthy (Some s) = negb (String.eqb s "").
Proof. reflexivity. Qed.

Lemma member_own {V : Type} (key : string) (d : list (string * V)) :
  match Dict.member key d with
  | Dict.Own v => Dict.get key d = Some v
  | Dict.Inherited => Dict.get key d = None /\ Dict.inherited key = true
  | Dict.Missing => Dict.get key d = None /\ Dict.inherited key = false
  end.
Proof.
  unfold Dict.member. destruct (Dict.get key d); [done|].
  by destruct (Dict.inherited key).
Qed.

Lemma register_empty adapter fs :
  registerProtocolAdapter "" adapter fs = (Ok tt, fs).
Proof. reflexivity. Qed.

Lemma register_throws protocol adapter fs :
  protocol <> "" ->
  Dict.get protocol (_fileProtocolPlugins fs) = None ->
  Dict.inherited protocol = true ->
  registerProtocolAdapter protocol adapter fs
  = (Throw "TypeError: adapters.push is not a function", fs).
Proof.
  intros Hp Hget Hin. unfold registerProtocolAdapter. rewrite truthy_Some.
  destruct (String.eqb_spec protocol ""); [done|]. cbn [negb].
  unfold bind, get, Dict.member. by rewrite Hget, Hin.
Qed.

Lemma register_stores protocol adapter fs :
  protocol <> "" ->
  is_Some (Dict.get protocol (_fileProtocolPlugins fs))
  \/ Dict.inherited protocol = false ->
  registerProtocolAdapter protocol adapter fs
  = (Ok tt,
     set_fileProtocolPlugins
       (Dict.set protocol
          (sortAdapters (default [] (Dict.get protocol (_fileProtocolPlugins fs))
                         ++ [adapter]))
          (_fileProtocolPlugins fs)) fs).
Proof.
  intros Hp Hown. unfold registerProtocolAdapter. rewrite truthy_Some.
  destruct (String.eqb_spec protocol ""); [done|]. cbn [negb].
  unfold bind, get, Dict.member.
  destruct (Dict.get protocol (_fileProtocolPlugins fs)) as [old|] eqn:Hget.
  - reflexivity.
  - destruct Hown as [[? ?]|Hin]; [done|]. by rewrite Hin.
Qed.

(** X4. [registerProtocolAdapter] with a protocol that names a member
    of [Object.prototype] (["toString"], ["constructor"],
    ["__proto__"], ...) and has no adapters throws a [TypeError] and
    stores nothing.  With any other non-empty protocol it returns and
    leaves the adapters of the protocol in descending order of
    priority, the new one among them; where they were in that order
    already, the new adapter goes behind those whose priority is at
    least its own, and the others keep their places.  The adapters of
    other protocols are not touched. *)
Theorem registerProtocolAdapter_sorted (protocol : string) (adapter : Adapter)
    (fs : FileSystem) :
  protocol <> "" ->
  let plugins := _fileProtocolPlugins fs in
  let old := default [] (Dict.get protocol plugins) in
  (Dict.get protocol plugins = None ->
   Dict.inherited protocol = true ->
   registerProtocolAdapter protocol adapter fs
   = (Throw "TypeError: adapters.push is not a function", fs))
  /\ (Dict.inherited protocol = false ->
      exists new fs',
        registerProtocolAdapter protocol adapter fs = (Ok tt, fs')
        /\ Dict.get protocol (_fileProtocolPlugins fs') = Some new
        /\ descending new
        /\ Permutation new (old ++ [adapter])
        /\ (descending old ->
            exists before after,
              old = before ++ after
              /\ new = before ++ adapter :: after
              /\ Forall (fun b => (priorityOf adapter <= priorityOf b)%Z) before
              /\ Forall (fun b => (priorityOf b < priorityOf adapter)%Z) after)
        /\ forall other, other <> protocol ->
             Dict.get other (_fileProtocolPlugins fs') = Dict.get other plugins).
Proof.
  intros Hp plugins old. split.
  - intros Hget Hin. by apply register_throws.
  - intros Hown. rewrite register_stores by auto. fold plugins old.
    exists (sortAdapters (old ++ [adapter])). eexists. split; [reflexivity|].
    cbn [_fileProtocolPlugins set_fileProtocolPlugins].
    split; [apply Dict_get_set|]. split; [apply sortAdapters_descending|].
    split; [apply sortAdapters_perm|]. split.
    + intros Hold. rewrite sortAdapters_snoc, (sortAdapters_sorted old Hold).
      destruct (insertSorted_split adapter old) as (before & after & E & E' & Hb & Ha).
      exists before, after. auto.
    + intros other Hne. by apply Dict_get_set_ne.
Qed.

Lemma registerProtocolAdapter_sorted_witness :
  let adapter := mkAdapter (Some 5%Z) None None in
  ("http:" <> ""
   /\ Dict.inherited "http:" = false
   /\ exists new fs',
        registerProtocolAdapter "http:" adapter (loaded emptyImpl) = (Ok tt, fs')
        /\ Dict.get "http:" (_fileProtocolPlugins fs') = Some new
        /\ descending new)
  /\ ("toString" <> ""
      /\ Dict.get "toString" (_fileProtocolPlugins (loaded emptyImpl)) = None
      /\ Dict.inherited "toString" = true
      /\ registerProtocolAdapter "toString" adapter (loaded emptyImpl)
         = (Throw "TypeError: adapters.push is not a function", loaded emptyImpl)).
Proof.
  intros adapter. split.
  - split; [done|]. split; [reflexivity|].
    destruct (registerProtocolAdapter_sorted "http:" adapter (loaded emptyImpl)
                ltac:(done)) as [_ Hstores].
    destruct (Hstores eq_refl) as (new & fs' & Hrun & Hnew & Hsorted & _).
    exists new, fs'. by repeat split.
  - split; [done|]. split; [reflexivity|]. split; [reflexivity|].
    destruct (registerProtocolAdapter_sorted "toString" adapter (loaded emptyImpl)
                ltac:(done)) as [Hthrows _].
    exact (Hthrows eq_refl eq_refl).
Defined.

(** The adapter [find] meets first once one more adapter is sorted in. *)
Lemma find_insertSorted f a l :
  descending l ->
  List.find f (insertSorted a l)
  = match List.find f l with
    | Some b => if f a && (priorityOf b <? priorityOf a)%Z then Some a else Some b
    | None => if f a then Some a else None
    end.
Proof.
  induction l as [|b l IH]; intros Hl; cbn [insertSorted List.find].
  - by destruct (f a).
  - apply StronglySorted_inv in Hl as [Hl Hall].
    destruct (Z.ltb_spec (priorityOf b) (priorityOf a)) as [Hlt|Hge].
    + cbn [List.find]. destruct (f a); cbn [andb];
        [|by destruct (f b), (List.find f l)].
      destruct (f b).
      * by destruct (Z.ltb_spec (priorityOf b) (priorityOf a)); [|lia].
      * destruct (List.find f l) as [c|] eqn:Hc; [|done].
        apply find_some in Hc as [Hc _].
        rewrite Forall_forall in Hall. specialize (Hall c). cbn in Hall.
        assert (c ∈ l) as Hin by by apply list_elem_of_In.
        specialize (Hall Hin).
        by destruct (Z.ltb_spec (priorityOf c) (priorityOf a)); [|lia].
    + cbn [List.find]. destruct (f b).
      * destruct (Z.ltb_spec (priorityOf b) (priorityOf a)); [lia|].
        by rewrite andb_false_r.
      * by apply IH.
Qed.

(** The adapter [find] meets first in the sorted list is, of those it
    accepts, the first of the highest priority in the unsorted list. *)
Lemma find_sortAdapters f l :
  match List.find f (sortAdapters l) with
  | Some a =>
      exists before after,
        l = before ++ a :: after
        /\ f a = true
        /\ Forall (fun b => f b = true -> (priorityOf b < priorityOf a)%Z) before
        /\ Forall (fun b => f b = true -> (priorityOf b <= priorityOf a)%Z) after
  | None => Forall (fun b => f b = false) l
  end.
Proof.
  induction l as [|a l IH] using rev_ind; [by constructor|].
  rewrite sortAdapters_snoc, find_insertSorted by apply sortAdapters_descending.
  destruct (List.find f (sortAdapters l)) as [b|].
  - destruct IH as (before & after & -> & Hb & Hbefore & Hafter).
    destruct (f a) eqn:Ha; cbn [andb].
    + destruct (Z.ltb_spec (priorityOf b) (priorityOf a)) as [Hlt|Hge].
      * exists (before ++ b :: after), []. split; [done|]. split; [done|].
        split; [|constructor].
        apply Forall_app. split.
        -- eapply Forall_impl; [exact Hbefore|]. cbn. intros x Hx Hfx.
           specialize (Hx Hfx). lia.
        -- constructor; [done|].
           eapply Forall_impl; [exact Hafter|]. cbn. intros x Hx Hfx.
           specialize (Hx Hfx). lia.
      * exists before, (after ++ [a]). split; [by rewrite <- app_assoc|].
        split; [done|]. split; [done|].
        apply Forall_app. split; [done|]. by repeat constructor.
    + exists before, (after ++ [a]). split; [by rewrite <- app_assoc|].
      split; [done|]. split; [done|].
      apply Forall_app. split; [done|]. constructor; [|constructor].
      by rewrite Ha.
  - destruct (f a) eqn:Ha.
    + exists l, []. split; [done|]. split; [done|]. split; [|constructor].
      eapply Forall_impl; [exact IH|]. cbn. intros x Hx. by rewrite Hx.
    + apply Forall_app. split; [done|]. by repeat constructor.
Qed.

(** What the registrations leave for each protocol. *)
Lemma registerAll_plugins regs :
  forall fs,
    _fileProtocolPlugins fs = [] ->
    forall protocol,
      let plugins := _fileProtocolPlugins (registerAll regs fs) in
      if registrable protocol
      then default [] (Dict.get protocol plugins)
           = sortAdapters (registeredFor protocol regs)
      else Dict.get protocol plugins = None.
Proof.
  induction regs as [|[p a] regs IH] using rev_ind; intros fs Hfs protocol.
  - cbn. rewrite Hfs. by destruct (registrable protocol).
  - cbn zeta. unfold registerAll in *. rewrite forEach_app.
    cbn [forEach_ fold_left fst snd].
    unfold registeredFor in *. rewrite List.filter_app, map_app.
    cbn [List.filter fst].
    assert (Hreg : forall q, registrable q = true -> q <> "" /\ Dict.inherited q = false).
    { intros q Hq. unfold registrable in Hq. apply andb_true_iff in Hq as [H1 H2].
      split; [by destruct (String.eqb_spec q "")|by destruct (Dict.inherited q)]. }
    destruct (String.eqb_spec p "") as [->|Hp0].
    { rewrite register_empty. cbn [snd]. specialize (IH fs Hfs protocol).
      cbn zeta in IH. destruct (registrable protocol) eqn:Hr; [|done].
      destruct (Hreg _ Hr) as [Hne _]. rewrite IH.
      destruct (String.eqb_spec "" protocol); [done|]. cbn [map].
      by rewrite app_nil_r. }
    destruct (Dict.inherited p) eqn:Hin.
    { pose proof (IH fs Hfs p) as Hp. cbn zeta in Hp. unfold registrable in Hp.
      rewrite Hin, andb_false_r in Hp.
      rewrite register_throws by done. cbn [snd]. specialize (IH fs Hfs protocol).
      cbn zeta in IH. destruct (registrable protocol) eqn:Hr; [|done].
      destruct (Hreg _ Hr) as [_ Hnin]. rewrite IH.
      destruct (String.eqb_spec p protocol) as [->|_]; [congruence|].
      cbn [map]. by rewrite app_nil_r. }
    rewrite register_stores by auto. cbn [snd _fileProtocolPlugins set_fileProtocolPlugins].
    destruct (String.eqb_spec p protocol) as [<-|Hne].
    + unfold registrable. rewrite Hin. destruct (String.eqb_spec p ""); [done|].
      cbn [negb andb]. rewrite Dict_get_set. cbn [default map snd].
      pose proof (IH fs Hfs p) as Hp. cbn zeta in Hp. unfold registrable in Hp.
      rewrite Hin in Hp. destruct (String.eqb_spec p ""); [done|]. cbn [negb andb] in Hp.
      rewrite Hp. rewrite !sortAdapters_snoc.
      by rewrite (sortAdapters_sorted _ (sortAdapters_descending _)).
    + rewrite Dict_get_set_ne by done. specialize (IH fs Hfs protocol).
      cbn zeta in IH. destruct (registrable protocol); [|done].
      rewrite IH. by rewrite app_nil_r.
Qed.

(** The adapters [_getProtocolAdapter] searches. *)
Lemma getProtocolAdapter_find protocol filePath fs :
  _getProtocolAdapter protocol filePath fs
  = List.find (readable filePath)
      (default [] (Dict.get protocol (_fileProtocolPlugins fs))).
Proof.
  unfold _getProtocolAdapter, Dict.member.
  destruct (Dict.get protocol (_fileProtocolPlugins fs)); [done|].
  by destruct (Dict.inherited protocol).
Qed.

(** X5. After any registrations made on an empty list of adapters,
    [_getProtocolAdapter] selects among the adapters registered for the
    protocol, which are none where the protocol is the empty string or
    names a member of [Object.prototype] (those registrations are
    ignored or throw): of the ones that can read the path it returns
    one of the highest priority, and of these the one registered first
    ([Array.prototype.sort] taken as stable); it returns none only if
    none of them can read the path. *)
Theorem getProtocolAdapter_first_best (registrations : list (string * Adapter))
    (fs : FileSystem) (protocol : string) (filePath : option string) :
  _fileProtocolPlugins fs = [] ->
  let candidates :=
    if registrable protocol then registeredFor protocol registrations else [] in
  match _getProtocolAdapter protocol filePath (registerAll registrations fs) with
  | Some a =>
      exists before after,
        candidates = before ++ a :: after
        /\ readable filePath a = true
        /\ Forall (fun b => readable filePath b = true ->
                            (priorityOf b < priorityOf a)%Z) before
        /\ Forall (fun b => readable filePath b = true ->
                            (priorityOf b <= priorityOf a)%Z) after
  | None => Forall (fun b => readable filePath b = false) candidates
  end.
Proof.
  intros Hfs candidates. rewrite getProtocolAdapter_find.
  pose proof (registerAll_plugins registrations fs Hfs protocol) as Hplugins.
  cbn zeta in Hplugins. subst candidates.
  destruct (registrable protocol).
  - rewrite Hplugins.
    exact (find_sortAdapters (readable filePath) (registeredFor protocol registrations)).
  - rewrite Hplugins. cbn. constructor.
Qed.

Lemma getProtocolAdapter_first_best_witness :
  let unreadable := mkAdapter (Some 9%Z) None (Some (fun _ => false)) in
  let low := mkAdapter None (Some "Low") (Some (fun _ => true)) in
  let first := mkAdapter (Some 2%Z) (Some "First") (Some (fun _ => true)) in
  let second := mkAdapter (Some 2%Z) (Some "Second") (Some (fun _ => true)) in
  let registrations :=
    [("http:", unreadable); ("http:", low); ("ftp:", second);
     ("toString", first); ("http:", first); ("http:", second)] in
  let fs := registerAll registrations (newFileSystem emptyImpl) in
  _fileProtocolPlugins (newFileSystem emptyImpl) = []
  /\ _getProtocolAdapter "http:" None fs = Some first
  /\ _getProtocolAdapter "toString" None fs = None
  /\ match _getProtocolAdapter "http:" None fs with
     | Some a =>
         exists before after,
           (if registrable "http:" then registeredFor "http:" registrations else [])
           = before ++ a :: after
           /\ readable None a = true
           /\ Forall (fun b => readable None b = true ->
                               (priorityOf b < priorityOf a)%Z) before
           /\ Forall (fun b => readable None b = true ->
                               (priorityOf b <= priorityOf a)%Z) after
     | None =>
         Forall (fun b => readable None b = false)
           (if registrable "http:" then registeredFor "http:" registrations else [])
     end.
Proof.
  intros unreadable low first second registrations fs.
  split; [reflexivity|]. split; [reflexivity|]. split; [reflexivity|].
  exact (getProtocolAdapter_first_best registrations (newFileSystem emptyImpl)
           "http:" None eq_refl).
Defined.

(** ** What the facade leaves alone *)

Lemma map_alter_same {A B} (g : A -> B) (f : A -> A) i (l : list A) :
  (forall x, g (f x) = g x) -> map g (alter f i l) = map g l.
Proof.
  intros Hf. revert i. induction l as [|a l IH]; intros [|i]; simpl; try done.
  - f_equal. apply Hf.
  - f_equal. apply IH.
Qed.

Lemma cachesOnly_refl fs : cachesOnly fs fs.
Proof.
  exists (entries fs), []. split; [|done].
  destruct fs. unfold set_trace, set_entries. cbn. by rewrite app_nil_r.
Qed.

Lemma cachesOnly_trans fs1 fs2 fs3 :
  cachesOnly fs1 fs2 -> cachesOnly fs2 fs3 -> cachesOnly fs1 fs3.
Proof.
  intros (es1 & t1 & -> & Hp1 & Hk1) (es2 & t2 & -> & Hp2 & Hk2).
  exists es2, (t1 ++ t2). split.
  - destruct fs1. unfold set_trace, set_entries. cbn. by rewrite app_assoc.
  - cbn in Hp2, Hk2. split; congruence.
Qed.

Lemma forEach_rel {A} (R : FileSystem -> FileSystem -> Prop)
    (f : A -> FileSystem -> FileSystem) (l : list A) :
  (forall fs, R fs fs) ->
  (forall fs1 fs2 fs3, R fs1 fs2 -> R fs2 fs3 -> R fs1 fs3) ->
  (forall x fs, R fs (f x fs)) ->
  forall fs, R fs (forEach_ f l fs).
Proof.
  intros Hrefl Htrans Hf. unfold forEach_.
  induction l as [|x l IH]; intros fs; cbn; [done|].
  eapply Htrans; [apply Hf | apply IH].
Qed.

Lemma cachesOnly_forEach {A} (f : A -> FileSystem -> FileSystem) l fs :
  (forall x fs, cachesOnly fs (f x fs)) -> cachesOnly fs (forEach_ f l fs).
Proof.
  intros Hf.
  apply forEach_rel; [apply cachesOnly_refl | apply cachesOnly_trans | done].
Qed.

Lemma cachesOnly_emit e fs : cachesOnly fs (emit e fs).
Proof. exists (entries fs), [e]. split; [|done]. by destruct fs. Qed.

Lemma cachesOnly_updateEntry f r fs :
  (forall e, fullPath (f e) = fullPath e) ->
  (forall e, isFile (f e) = isFile e) ->
  cachesOnly fs (updateEntry f r fs).
Proof.
  intros Hp Hk. exists (alter f r (entries fs)), []. split.
  - destruct fs. unfold updateEntry, set_trace, set_entries. cbn.
    by rewrite app_nil_r.
  - split; by apply map_alter_same.
Qed.

Lemma cachesOnly_clearCachedData b r fs : cachesOnly fs (_clearCachedData b r fs).
Proof.
  unfold _clearCachedData. destruct (entries fs !! r); [|apply cachesOnly_refl].
  eapply cachesOnly_trans; [by apply (cachesOnly_updateEntry cleared)|].
  apply cachesOnly_forEach. intros. by apply (cachesOnly_updateEntry cleared).
Qed.

Lemma cachesOnly_visitAll f fs :
  (forall x fs, cachesOnly fs (f x fs)) -> cachesOnly fs (visitAll f fs).
Proof. intros Hf. unfold visitAll. by apply cachesOnly_forEach. Qed.

Lemma cachesOnly_handleDirectoryChange directory callback fs :
  cachesOnly fs (_handleDirectoryChange directory callback fs).
Proof.
  unfold _handleDirectoryChange.
  eapply cachesOnly_trans; [apply cachesOnly_clearCachedData | apply cachesOnly_emit].
Qed.

Lemma cachesOnly_wholesale fs :
  cachesOnly fs (_fireChangeEvent None None None (visitAll (_clearCachedData true) fs)).
Proof.
  eapply cachesOnly_trans; [|apply cachesOnly_emit].
  apply cachesOnly_visitAll. intros. apply cachesOnly_clearCachedData.
Qed.

Lemma cachesOnly_pathOf fs fs' r : cachesOnly fs fs' -> pathOf fs' r = pathOf fs r.
Proof.
  intros (es & t & -> & Hp & _). unfold pathOf. cbn.
  apply (f_equal (fun l => l !! r)) in Hp. rewrite !list_lookup_fmap in Hp.
  destruct (es !! r), (entries fs !! r); cbn in Hp; congruence.
Qed.

Lemma cachesOnly_handleExternalChange path stat fs :
  cachesOnly fs (snd (_handleExternalChange path stat fs))
  /\ (forall msg, fst (_handleExternalChange path stat fs) = Throw msg ->
      snd (_handleExternalChange path stat fs) = fs).
Proof.
  unfold _handleExternalChange.
  destruct path as [p|]; [|split; [apply cachesOnly_wholesale | done]].
  destruct (truthy (Some p)); [|split; [apply cachesOnly_wholesale | done]].
  unfold bind, get, liftResult.
  destruct (_normalizePath _ p false) as [np|msg]; cbn [throw ret fst snd];
    [|split; [apply cachesOnly_refl | done]].
  destruct (getEntry np fs) as [entry|]; [|split; [apply cachesOnly_refl | done]].
  destruct (entries fs !! entry) as [e|]; [|split; [apply cachesOnly_refl | done]].
  destruct (isFile e).
  - destruct (negb (notNewer stat (_stat e))); [|split; [apply cachesOnly_refl | done]].
    split; [|done]. cbn [run snd].
    eapply cachesOnly_trans; [apply cachesOnly_clearCachedData|].
    eapply cachesOnly_trans;
      [by apply (cachesOnly_updateEntry (set_stat stat)) | apply cachesOnly_emit].
  - split; [|done]. apply cachesOnly_handleDirectoryChange.
Qed.

(** X6. An external change touches nothing but caches and the stream
    of events: the index, the watched roots, the queues, the barrier
    and the adapters are as before, and every entry is the object it
    was, with its path and its kind.  A change whose path is rejected
    changes nothing at all. *)
Theorem handleExternalChange_frame (path : option string) (stat : option Stats.t)
    (fs : FileSystem) :
  let fs' := snd (_handleExternalChange path stat fs) in
  (exists es t,
     fs' = set_trace (trace fs ++ t) (set_entries es fs)
     /\ map fullPath es = map fullPath (entries fs)
     /\ map isFile es = map isFile (entries fs))
  /\ (forall msg, fst (_handleExternalChange path stat fs) = Throw msg -> fs' = fs).
Proof. exact (cachesOnly_handleExternalChange path stat fs). Qed.

Lemma callbackFrame_refl fs : callbackFrame fs fs.
Proof. unfold callbackFrame, sameObjects. repeat split; done. Qed.

Lemma callbackFrame_trans fs1 fs2 fs3 :
  callbackFrame fs1 fs2 -> callbackFrame fs2 fs3 -> callbackFrame fs1 fs3.
Proof.
  unfold callbackFrame, sameObjects.
  intros (?&?&?&?&?&[? ?]&?&?&?&?&?) (?&?&?&?&?&[? ?]&?&?&?&?&?).
  repeat split; try congruence; by etrans.
Qed.

Lemma cachesOnly_callbackFrame fs fs' : cachesOnly fs fs' -> callbackFrame fs fs'.
Proof.
  intros (es & t & -> & Hp & Hk). unfold callbackFrame, sameObjects. cbn.
  repeat split; try done. by apply prefix_app_r.
Qed.

Lemma callbackFrame_applyDirCallback isWatched callback added removed fs :
  callbackFrame fs (applyDirCallback isWatched callback added removed fs).
Proof.
  apply cachesOnly_callbackFrame. destruct callback as [id|entry stat]; cbn.
  - apply cachesOnly_emit.
  - destruct (isWatched _ _).
    + eapply cachesOnly_trans; [by apply (cachesOnly_updateEntry (set_stat stat)) | apply cachesOnly_emit].
    + by apply (cachesOnly_updateEntry (set_stat stat)).
Qed.

Lemma Dict_remove_sublist {V} k (d : list (string * V)) : sublist (Dict.remove k d) d.
Proof.
  induction d as [|[k' v] d IH]; cbn; [constructor|].
  destruct (String.eqb k' k); [by apply sublist_cons | by apply sublist_skip].
Qed.

Lemma callbackFrame_set_watchedRoots k fs :
  callbackFrame fs (set_watchedRoots (Dict.remove k (_watchedRoots fs)) fs).
Proof.
  unfold callbackFrame, sameObjects. cbn. repeat split; try done.
  apply Dict_remove_sublist.
Qed.

Lemma callbackFrame_set_status s r fs :
  callbackFrame fs (set_roots (alter (WatchedRoot.set_status s) r (roots fs)) fs).
Proof.
  unfold callbackFrame, sameObjects. cbn. repeat split; try done.
  by apply map_alter_same.
Qed.

Lemma callbackFrame_removeEntry r fs : callbackFrame fs (removeEntry r fs).
Proof.
  unfold callbackFrame, sameObjects, removeEntry. cbn. repeat split; try done.
  apply delete_subseteq.
Qed.

Lemma callbackFrame_visitAll f fs :
  (forall x fs, callbackFrame fs (f x fs)) -> callbackFrame fs (visitAll f fs).
Proof.
  intros Hf. unfold visitAll.
  apply forEach_rel; [apply callbackFrame_refl | apply callbackFrame_trans | done].
Qed.

Lemma callbackFrame_applyCallback isWatched callback err fs :
  callbackFrame fs (applyCallback isWatched callback err fs).
Proof.
  revert err fs.
  induction callback as [id| |fullPath entry watchedRoot callback IH
                         |fullPath entry callback IH|watchedRoot
                         |entry callback IH|join]; intros err fs;
    cbn [applyCallback].
  - apply cachesOnly_callbackFrame, cachesOnly_emit.
  - apply callbackFrame_refl.
  - destruct (truthy err).
    + eapply callbackFrame_trans; [apply cachesOnly_callbackFrame, cachesOnly_emit|].
      eapply callbackFrame_trans; [apply callbackFrame_set_watchedRoots | apply IH].
    + eapply callbackFrame_trans; [apply callbackFrame_set_status | apply IH].
  - set (fs1 := set_watchedRoots _ fs).
    assert (H1 : callbackFrame fs fs1) by apply callbackFrame_set_watchedRoots.
    set (fs2 := visitAll _ fs1).
    assert (H2 : callbackFrame fs1 fs2).
    { apply callbackFrame_visitAll. intros child fs0.
      destruct (isUnder fs0 entry child);
        [apply callbackFrame_removeEntry | apply callbackFrame_refl]. }
    eapply callbackFrame_trans; [exact (callbackFrame_trans _ _ _ H1 H2)|].
    destruct (truthy err); [|apply IH].
    eapply callbackFrame_trans; [apply cachesOnly_callbackFrame, cachesOnly_emit | apply IH].
  - destruct (roots fs !! watchedRoot); [|apply callbackFrame_refl].
    apply cachesOnly_callbackFrame, cachesOnly_emit.
  - set (fs1 := visitAll _ fs).
    assert (H1 : cachesOnly fs fs1).
    { apply cachesOnly_visitAll. intros child fs0.
      destruct (isUnder fs0 entry child);
        [apply cachesOnly_clearCachedData | apply cachesOnly_refl]. }
    eapply callbackFrame_trans; [exact (cachesOnly_callbackFrame _ _ H1) | apply IH].
  - set (fs1 := if truthy err then _ else fs).
    assert (H1 : callbackFrame fs fs1).
    { subst fs1. destruct (truthy err); [|apply callbackFrame_refl].
      apply cachesOnly_callbackFrame, cachesOnly_emit. }
    eapply callbackFrame_trans; [exact H1|].
    destruct (joins fs1 !! join) as [j|] eqn:Hj; [|apply callbackFrame_refl].
    set (fs2 := set_joins _ fs1).
    assert (H2 : callbackFrame fs1 fs2).
    { subst fs2. unfold callbackFrame, sameObjects. cbn. repeat split; try done.
      by rewrite length_insert. }
    destruct (counter j - 1 =? 0)%Z; [|exact H2].
    eapply callbackFrame_trans; [exact H2 | apply callbackFrame_applyDirCallback].
Qed.

(** ** The queue of watch and unwatch requests *)

Lemma sameObjects_pathOf fs fs' r : sameObjects fs fs' -> pathOf fs' r = pathOf fs r.
Proof.
  intros [Hp _]. unfold pathOf.
  apply (f_equal (fun l => l !! r)) in Hp. rewrite !list_lookup_fmap in Hp.
  destruct (entries fs' !! r), (entries fs !! r); cbn in Hp; congruence.
Qed.

Lemma backendCalls_emit e fs :
  backendCalls (emit e fs)
  = backendCalls fs ++ match backendCall e with Some c => [c] | None => [] end.
Proof.
  unfold backendCalls, emit. cbn. rewrite omap_app. cbn.
  by destruct (backendCall e).
Qed.

Lemma backendCalls_entries_only fs fs' :
  (exists es, fs' = set_entries es fs) -> backendCalls fs' = backendCalls fs.
Proof. by intros [es ->]. Qed.

Lemma backendCalls_applyDirCallback isWatched callback added removed fs :
  backendCalls (applyDirCallback isWatched callback added removed fs) = backendCalls fs.
Proof.
  destruct callback as [id|entry stat]; cbn [applyDirCallback].
  - by rewrite backendCalls_emit, app_nil_r.
  - destruct (isWatched _ _); [|done].
    unfold _fireChangeEvent. by rewrite backendCalls_emit, app_nil_r.
Qed.

Lemma backendCalls_visitAll f fs :
  (forall x fs, backendCalls (f x fs) = backendCalls fs) ->
  backendCalls (visitAll f fs) = backendCalls fs.
Proof.
  intros Hf. unfold visitAll.
  apply (forEach_rel (fun fs fs' => backendCalls fs' = backendCalls fs)); [done| |done].
  intros ??? H1 H2. by rewrite H2.
Qed.

Lemma backendCalls_set_watchedRoots d fs :
  backendCalls (set_watchedRoots d fs) = backendCalls fs.
Proof. reflexivity. Qed.

(** A callback gives the backend no command. *)
Lemma applyCallback_quiet isWatched callback err fs :
  backendCalls (applyCallback isWatched callback err fs) = backendCalls fs.
Proof.
  revert err fs.
  induction callback as [id| |fullPath entry watchedRoot callback IH
                         |fullPath entry callback IH|watchedRoot
                         |entry callback IH|join]; intros err fs;
    cbn [applyCallback].
  - by rewrite backendCalls_emit, app_nil_r.
  - done.
  - destruct (truthy err); rewrite IH; [|done].
    rewrite backendCalls_set_watchedRoots.
    by rewrite backendCalls_emit, app_nil_r.
  - set (fs1 := set_watchedRoots _ fs). set (fs2 := visitAll _ fs1).
    assert (H2 : backendCalls fs2 = backendCalls fs).
    { subst fs2. rewrite backendCalls_visitAll; [done|]. intros child fs0.
      by destruct (isUnder fs0 entry child). }
    destruct (truthy err); rewrite IH; [|done].
    by rewrite backendCalls_emit, app_nil_r.
  - destruct (roots fs !! watchedRoot); [|done].
    by rewrite backendCalls_emit, app_nil_r.
  - rewrite IH. apply backendCalls_visitAll. intros child fs0.
    destruct (isUnder fs0 entry child); [|done].
    apply backendCalls_entries_only, clearCachedData_entries_only.
  - set (fs1 := if truthy err then _ else fs).
    assert (H1 : backendCalls fs1 = backendCalls fs).
    { subst fs1. destruct (truthy err); [|done].
      by rewrite backendCalls_emit, app_nil_r. }
    destruct (joins fs1 !! join) as [j|]; [|done].
    destruct (counter j - 1 =? 0)%Z; [|done].
    by rewrite backendCalls_applyDirCallback.
Qed.

(** X7. A callback the facade has built around a client's leaves, for
    its own part, the queue of requests, the queue of changes, the
    barrier, the backend and the adapters as they are, and gives the
    backend no command; the entries and the watched roots are the
    objects they were, the entries with their paths and kinds; the
    index and the registry of roots lose members at most; and the
    effects so far stay, others being added behind. *)
Theorem applyCallback_frame (isWatched : FileSystem -> ref -> bool)
    (callback : Callback) (err : option string) (fs : FileSystem) :
  let fs' := applyCallback isWatched callback err fs in
  (_impl fs' = _impl fs
   /\ _watchRequests fs' = _watchRequests fs
   /\ _externalChanges fs' = _externalChanges fs
   /\ _activeChangeCount fs' = _activeChangeCount fs
   /\ _fileProtocolPlugins fs' = _fileProtocolPlugins fs
   /\ sameObjects fs fs'
   /\ map WatchedRoot.entry (roots fs') = map WatchedRoot.entry (roots fs)
   /\ length (joins fs') = length (joins fs)
   /\ _index fs' ⊆ _index fs
   /\ sublist (_watchedRoots fs') (_watchedRoots fs)
   /\ trace fs `prefix_of` trace fs')
  /\ backendCalls fs' = backendCalls fs.
Proof.
  split; [apply callbackFrame_applyCallback | apply applyCallback_quiet].
Qed.

Lemma enqueued_snoc evs ev :
  enqueued (evs ++ [ev])
  = enqueued evs ++ match ev with Enqueued request => [request] | Finished _ => [] end.
Proof. unfold enqueued. rewrite omap_app. by destruct ev. Qed.

Lemma finished_snoc evs ev :
  finished (evs ++ [ev])
  = finished evs + match ev with Finished _ => 1 | Enqueued _ => 0 end.
Proof. unfold finished. rewrite List.filter_app, length_app. by destruct ev. Qed.

Lemma requestCb_head isWatched err fs request rest :
  _watchRequests fs = request :: rest ->
  requestCb isWatched err fs
  = _dequeueWatchRequest
      (set_watchRequests rest (applyCallback isWatched (req_cb request) err fs)).
Proof.
  intros Hq. unfold requestCb. rewrite Hq.
  destruct (callbackFrame_applyCallback isWatched (req_cb request) err fs)
    as (_ & Hq' & _).
  by rewrite Hq', Hq.
Qed.

(** The queue runs one command at a time, in the order of arrival. *)
Lemma queue_invariant isWatched evs fs :
  _watchRequests fs = [] ->
  (forall k, finished (take k evs) <= length (enqueued (take k evs))) ->
  let fs' := forEach_ (queueStep isWatched) evs fs in
  _watchRequests fs' = drop (finished evs) (enqueued evs)
  /\ backendCalls fs'
     = backendCalls fs
       ++ map (commandOf fs) (take (S (finished evs)) (enqueued evs))
  /\ sameObjects fs fs'.
Proof.
  intros Hfs. induction evs as [|ev evs IH] using rev_ind; intros Hwt.
  { cbn. rewrite Hfs, app_nil_r. by repeat split. }
  assert (Hwt' : forall k, finished (take k evs) <= length (enqueued (take k evs))).
  { intros k. destruct (le_lt_dec k (length evs)) as [Hk|Hk].
    - specialize (Hwt k). by rewrite take_app_le in Hwt.
    - rewrite take_ge by lia. specialize (Hwt (length evs)).
      by rewrite take_app_le, take_ge in Hwt by lia. }
  pose proof (Hwt' (length evs)) as Hd. rewrite take_ge in Hd by lia.
  pose proof (Hwt (S (length evs))) as Hfull.
  rewrite take_ge in Hfull by (rewrite length_app; cbn; lia).
  specialize (IH Hwt'). cbn zeta in IH. destruct IH as (Hq & Hc & Hs).
  cbn zeta. rewrite forEach_app. cbn [forEach_ fold_left].
  rewrite enqueued_snoc, finished_snoc in *.
  set (fs1 := forEach_ (queueStep isWatched) evs fs) in *.
  set (d := finished evs) in *. set (reqs := enqueued evs) in *.
  assert (Hpath : forall fs2 r, sameObjects fs1 fs2 -> pathOf fs2 r = pathOf fs r).
  { intros fs2 r H2. rewrite (sameObjects_pathOf fs1 fs2 r H2).
    by apply sameObjects_pathOf. }
  destruct ev as [request|err]; cbn [queueStep].
  - rewrite Nat.add_0_r. unfold _enqueueWatchRequest.
    cbn [_watchRequests set_watchRequests]. rewrite Hq.
    destruct (decide (d = length reqs)) as [Hfull'|Hmore].
    + rewrite (drop_ge reqs d) by lia. cbn [app length Nat.eqb].
      unfold _dequeueWatchRequest. cbn [_watchRequests set_watchRequests].
      unfold startRequest. rewrite backendCalls_emit. cbn [backendCall].
      split; [|split].
      * cbn. rewrite Hfull'. by rewrite drop_app_length.
      * change (backendCalls (set_watchRequests [request] fs1)) with (backendCalls fs1).
        rewrite Hc, <- app_assoc. f_equal.
        rewrite !take_ge by (rewrite ?length_app; cbn; lia).
        rewrite map_app. f_equal. cbn. unfold commandOf. do 3 f_equal.
        by apply Hpath.
      * exact Hs.
    + assert (Hlen : Nat.eqb (length (drop d reqs ++ [request])) 1 = false).
      { apply Nat.eqb_neq. rewrite length_app, length_drop. cbn. lia. }
      rewrite Hlen. split; [|split].
      * cbn. by rewrite drop_app_le by lia.
      * change (backendCalls (set_watchRequests _ fs1)) with (backendCalls fs1).
        rewrite Hc. by rewrite take_app_le by lia.
      * exact Hs.
  - rewrite app_nil_r in *. replace (d + 1) with (S d) in * by lia.
    destruct (lookup_lt_is_Some_2 reqs d ltac:(lia)) as [request Hreq].
    rewrite (drop_S _ _ _ Hreq) in Hq.
    rewrite (requestCb_head isWatched err fs1 request _ Hq).
    set (fs2 := applyCallback isWatched (req_cb request) err fs1).
    destruct (callbackFrame_applyCallback isWatched (req_cb request) err fs1)
      as (_ & _ & _ & _ & _ & Hs2 & _). fold fs2 in Hs2.
    pose proof (applyCallback_quiet isWatched (req_cb request) err fs1) as Hc2.
    fold fs2 in Hc2.
    assert (Hs' : sameObjects fs fs2).
    { destruct Hs as [? ?], Hs2 as [? ?]. split; congruence. }
    unfold _dequeueWatchRequest. cbn [_watchRequests set_watchRequests].
    destruct (drop (S d) reqs) as [|next rest] eqn:Hdrop.
    + split; [done|]. split; [|exact Hs'].
      change (backendCalls (set_watchRequests [] fs2)) with (backendCalls fs2).
      rewrite Hc2, Hc. f_equal. f_equal.
      assert (length reqs <= S d).
      { apply (f_equal length) in Hdrop. rewrite length_drop in Hdrop. cbn in Hdrop. lia. }
      by rewrite !take_ge by lia.
    + unfold startRequest. rewrite backendCalls_emit. cbn [backendCall].
      split; [done|]. split; [|exact Hs'].
      change (backendCalls (set_watchRequests (next :: rest) fs2)) with (backendCalls fs2).
      rewrite Hc2, Hc, <- app_assoc. f_equal.
      assert (Hnext : reqs !! S d = Some next).
      { rewrite <- (Nat.add_0_r (S d)), <- lookup_drop. by rewrite Hdrop. }
      rewrite (take_S_r _ _ _ Hnext), map_app. f_equal. cbn. unfold commandOf.
      do 3 f_equal. by apply Hpath.
Qed.

(** X8. The requests to the backend are served one at a time and in
    the order they were made.  From an empty queue, and as long as the
    backend reports no more commands finished than it was given: the
    queue holds the requests not yet finished, in their order; the
    commands the backend has been given are those of the finished
    requests and of the one request after them, in that order; and the
    next report of the backend goes to the callback of the first
    request not yet finished. *)
Theorem watchRequests_fifo (isWatched : FileSystem -> ref -> bool)
    (evs : list QueueEvent) (fs : FileSystem) :
  _watchRequests fs = [] ->
  (forall k, finished (take k evs) <= length (enqueued (take k evs))) ->
  let fs' := forEach_ (queueStep isWatched) evs fs in
  _watchRequests fs' = drop (finished evs) (enqueued evs)
  /\ backendCalls fs'
     = backendCalls fs
       ++ map (commandOf fs) (take (S (finished evs)) (enqueued evs))
  /\ forall err request,
       enqueued evs !! finished evs = Some request ->
       requestCb isWatched err fs'
       = _dequeueWatchRequest
           (set_watchRequests (drop (S (finished evs)) (enqueued evs))
              (applyCallback isWatched (req_cb request) err fs')).
Proof.
  intros Hfs Hwt.
  destruct (queue_invariant isWatched evs fs Hfs Hwt) as (Hq & Hc & _).
  cbn zeta in *. split; [exact Hq|]. split; [exact Hc|].
  intros err request Hreq. apply requestCb_head.
  by rewrite Hq, (drop_S _ _ _ Hreq).
Qed.

Lemma watchRequests_fifo_witness :
  let evs := [Enqueued (mkRequest watchPath 0 None (CbClient 1));
              Enqueued (mkRequest unwatchPath 1 None (CbClient 2));
              Finished None] in
  _watchRequests twoDirectories = []
  /\ (forall k, finished (take k evs) <= length (enqueued (take k evs)))
  /\ _watchRequests (forEach_ (queueStep unwatched) evs twoDirectories)
     = [mkRequest unwatchPath 1 None (CbClient 2)]
  /\ backendCalls (forEach_ (queueStep unwatched) evs twoDirectories)
     = [(watchPath, "/a/b/", None); (unwatchPath, "/a/", None)].
Proof.
  intros evs.
  assert (H1 : _watchRequests twoDirectories = []) by reflexivity.
  assert (H2 : forall k, finished (take k evs) <= length (enqueued (take k evs)))
    by (intros [|[|[|[|k]]]]; cbn; lia).
  split; [exact H1|]. split; [exact H2|].
  destruct (watchRequests_fifo unwatched evs twoDirectories H1 H2) as (Hq & Hc & _).
  split; [exact Hq | exact Hc].
Defined.

(** ** Watching and unwatching a root *)

Lemma alter_snoc {A} (f : A -> A) (l : list A) x :
  alter f (length l) (l ++ [x]) = l ++ [f x].
Proof. induction l as [|a l IH]; [done|]. cbn. f_equal. exact IH. Qed.

Lemma lookup_snoc {A} (l : list A) x : (l ++ [x]) !! length l = Some x.
Proof. induction l as [|a l IH]; [done|]. exact IH. Qed.

Lemma Dict_remove_set {V} k (v : V) d :
  Dict.get k d = None -> Dict.remove k (Dict.set k v d) = d.
Proof.
  induction d as [|[k' w] d IH]; cbn; [by rewrite String.eqb_refl|].
  destruct (String.eqb_spec k' k) as [->|Hne]; [done|]. cbn.
  destruct (String.eqb_spec k' k); [done|]. intros H. by rewrite IH.
Qed.

Lemma Dict_get_remove {V} k (d : list (string * V)) :
  NoDup (Dict.keys d) -> Dict.get k (Dict.remove k d) = None.
Proof.
  induction d as [|[k' w] d IH]; cbn; [done|].
  intros [Hk' Hd]%NoDup_cons. destruct (String.eqb_spec k' k) as [->|Hne].
  - clear IH Hd. induction d as [|[k0 w0] d IHd]; cbn; [done|].
    cbn in Hk'. apply not_elem_of_cons in Hk' as [Hne Hk'].
    destruct (String.eqb_spec k0 k); [congruence | by apply IHd].
  - cbn. destruct (String.eqb_spec k' k); [done | by apply IH].
Qed.

(** The state an accepted [watch] leaves when no request is under way. *)
Lemma watch_accepted isWatched entry filter filterGitIgnore callback fs :
  _watchRequests fs = [] ->
  match _findWatchedRootForPath (pathOf fs entry) fs with
  | Some r => startingOrActive (statusOf fs r)
  | None => false
  end = false ->
  let path := pathOf fs entry in
  let root := length (roots fs) in
  watch isWatched entry filter filterGitIgnore callback fs
  = emit (ImplCall watchPath path filterGitIgnore)
      (set_watchRequests
         [mkRequest watchPath entry filterGitIgnore
            (CbWatch path entry root (default CbNone callback))]
         (set_roots
            (roots fs ++ [WatchedRoot.mk entry filter filterGitIgnore WatchedRoot.STARTING])
            (set_watchedRoots (Dict.set path root (_watchedRoots fs)) fs))).
Proof.
  intros Hidle Hfree. cbn zeta. rewrite watch_child_test_dead. cbn zeta.
  rewrite Hfree. unfold newWatchedRoot, _watchEntry, _watchOrUnwatchEntry.
  cbn [roots set_roots set_watchedRoots].
  rewrite alter_snoc, lookup_snoc.
  cbn [WatchedRoot.set_status WatchedRoot.entry WatchedRoot.filter
       WatchedRoot.filterGitIgnore].
  rewrite Nat.eqb_refl. cbn [negb].
  unfold _enqueueWatchRequest, _dequeueWatchRequest, startRequest.
  destruct fs. cbn in Hidle. subst. reflexivity.
Qed.

(** X9. A watch that is accepted while no request is under way files
    the new root under the path of the entry, in the state STARTING,
    and gives the backend one command, to watch that path.  When the
    backend reports success the root becomes ACTIVE and the client is
    called without an error.  When it reports an error, the root is
    taken out of the registry again, which is then as it was before the
    watch if the path was not in it, a warning is logged, and the
    client is called with the error.  Either way the queue is empty
    again, and the client is called once. *)
Theorem watch_lifecycle (isWatched : FileSystem -> ref -> bool) (entry : ref)
    (filter : string -> string -> bool) (filterGitIgnore : option (list string))
    (id : nat) (fs : FileSystem) :
  _watchRequests fs = [] ->
  match _findWatchedRootForPath (pathOf fs entry) fs with
  | Some r => startingOrActive (statusOf fs r)
  | None => false
  end = false ->
  let path := pathOf fs entry in
  let root := length (roots fs) in
  let w := WatchedRoot.mk entry filter filterGitIgnore in
  let fs1 := watch isWatched entry filter filterGitIgnore (Some (CbClient id)) fs in
  (roots fs1 = roots fs ++ [w WatchedRoot.STARTING]
   /\ _watchedRoots fs1 = Dict.set path root (_watchedRoots fs)
   /\ length (_watchRequests fs1) = 1
   /\ trace fs1 = trace fs ++ [ImplCall watchPath path filterGitIgnore])
  /\ (let fs2 := requestCb isWatched None fs1 in
      roots fs2 = roots fs ++ [w WatchedRoot.ACTIVE]
      /\ _watchedRoots fs2 = Dict.set path root (_watchedRoots fs)
      /\ _watchRequests fs2 = []
      /\ trace fs2 = trace fs1 ++ [CallClient id None])
  /\ (forall err,
        err <> "" ->
        let fs2 := requestCb isWatched (Some err) fs1 in
        roots fs2 = roots fs1
        /\ _watchedRoots fs2 = Dict.remove path (Dict.set path root (_watchedRoots fs))
        /\ (Dict.get path (_watchedRoots fs) = None -> _watchedRoots fs2 = _watchedRoots fs)
        /\ _watchRequests fs2 = []
        /\ trace fs2
           = trace fs1 ++ [ConsoleWarn ("Failed to watch root: " +:+ path);
                           CallClient id (Some err)]).
Proof.
  intros Hidle Hfree path root w fs1. subst fs1.
  rewrite (watch_accepted isWatched entry filter filterGitIgnore (Some (CbClient id)) fs
             Hidle Hfree).
  change (default CbNone (Some (CbClient id))) with (CbClient id).
  subst path root w. cbn beta.
  unfold requestCb, _dequeueWatchRequest.
  split; [done|]. split.
  - cbn -[alter]. by rewrite alter_snoc.
  - intros err Herr. cbn [_watchRequests emit set_trace set_watchRequests req_cb].
    cbn [applyCallback]. rewrite truthy_Some.
    destruct (String.eqb_spec err ""); [done|]. cbn [negb].
    split; [done|]. split; [done|]. split; [|split; [done|]].
    + intros Hnone. cbn. by apply Dict_remove_set.
    + cbn. rewrite <- app_assoc. do 3 f_equal.
Qed.

Lemma watch_lifecycle_witness :
  _watchRequests twoDirectories = []
  /\ match _findWatchedRootForPath (pathOf twoDirectories 0) twoDirectories with
     | Some r => startingOrActive (statusOf twoDirectories r)
     | None => false
     end = false
  /\ trace (requestCb unwatched None
              (watch unwatched 0 acceptAll None (Some (CbClient 1)) twoDirectories))
     = [ImplCall watchPath "/a/b/" None; CallClient 1 None].
Proof.
  assert (H1 : _watchRequests twoDirectories = []) by reflexivity.
  assert (H2 : match _findWatchedRootForPath (pathOf twoDirectories 0) twoDirectories with
               | Some r => startingOrActive (statusOf twoDirectories r)
               | None => false
               end = false) by reflexivity.
  split; [exact H1|]. split; [exact H2|].
  destruct (watch_lifecycle unwatched 0 acceptAll None 1 twoDirectories H1 H2)
    as (_ & (_ & _ & _ & Ht) & _).
  exact Ht.
Defined.

(** *** Visitors of the index that act on the entries beneath a path *)

Lemma forEach_guarded (Inv : FileSystem -> Prop) (P : ref -> bool)
    (guard : FileSystem -> ref -> bool) (g : ref -> FileSystem -> FileSystem) l :
  (forall fs child, Inv fs -> guard fs child = P child) ->
  (forall fs child, Inv fs -> Inv (g child fs)) ->
  forall fs,
    Inv fs ->
    forEach_ (fun child fs => if guard fs child then g child fs else fs) l fs
    = forEach_ g (List.filter P l) fs.
Proof.
  intros Hguard Hg. unfold forEach_.
  induction l as [|child l IH]; intros fs Hfs; cbn [fold_left List.filter]; [done|].
  rewrite (Hguard fs child Hfs). destruct (P child); cbn [fold_left].
  - apply IH. by apply Hg.
  - by apply IH.
Qed.

Lemma forEach_removeEntry l fs :
  forEach_ removeEntry l fs
  = set_index (fold_left (fun m child => base.delete (pathOf fs child) m) l (_index fs)) fs.
Proof.
  unfold forEach_. revert fs. induction l as [|child l IH]; intros fs; cbn [fold_left].
  - by destruct fs.
  - rewrite IH. unfold removeEntry. by destruct fs.
Qed.

Lemma fold_delete_lookup (p : ref -> string) l (m : gmap string ref) q :
  fold_left (fun m child => base.delete (p child) m) l m !! q
  = if bool_decide (q ∈ map p l) then None else m !! q.
Proof.
  revert m. induction l as [|child l IH]; intros m; cbn [fold_left map]; [done|].
  rewrite IH. destruct (decide (q = p child)) as [->|Hne].
  - rewrite lookup_delete_eq.
    rewrite (bool_decide_eq_true_2 (p child ∈ p child :: map p l)) by apply list_elem_of_here.
    by destruct (bool_decide _).
  - rewrite lookup_delete_ne by done.
    destruct (bool_decide (q ∈ map p l)) eqn:E.
    + apply bool_decide_eq_true in E.
      by rewrite bool_decide_eq_true_2 by by apply list_elem_of_further.
    + apply bool_decide_eq_false in E.
      rewrite bool_decide_eq_false_2; [done|].
      by intros [?|?]%elem_of_cons.
Qed.

(** What is left of the index once the entries under [path] are taken
    out, every entry being filed under its own path. *)
Lemma remove_under_index entry fs :
  indexKeyed fs ->
  let fs' := visitAll (fun child fs =>
                         if isUnder fs entry child then removeEntry child fs else fs) fs in
  (exists m, fs' = set_index m fs)
  /\ forall q, _index fs' !! q
               = if startsWith (pathOf fs entry) q then None else _index fs !! q.
Proof.
  intros Hkeyed. cbn zeta. unfold visitAll.
  rewrite (forEach_guarded (fun fs0 => forall r, pathOf fs0 r = pathOf fs r)
             (fun child => isUnder fs entry child)).
  - rewrite forEach_removeEntry. split; [by eexists|]. intros q.
    cbn [_index set_index]. rewrite fold_delete_lookup.
    destruct (bool_decide _) eqn:E.
    + apply bool_decide_eq_true in E. apply list_elem_of_In, in_map_iff in E.
      destruct E as (child & <- & [_ Hunder]%filter_In). unfold isUnder in Hunder.
      by rewrite Hunder.
    + apply bool_decide_eq_false in E.
      destruct (startsWith (pathOf fs entry) q) eqn:Hq; [|done].
      destruct (_index fs !! q) as [r|] eqn:Hr; [|done]. exfalso. apply E.
      destruct (Hkeyed q r Hr) as (e & He & Hpath).
      assert (Hp : pathOf fs r = q) by (unfold pathOf; by rewrite He).
      apply list_elem_of_In, in_map_iff. exists r. split; [done|].
      apply filter_In. split.
      * apply list_elem_of_In, indexed_spec. by exists q.
      * unfold isUnder. by rewrite Hp.
  - intros fs0 child H0. unfold isUnder. by rewrite !H0.
  - intros fs0 child H0 r. unfold removeEntry, pathOf in *. cbn. apply H0.
  - done.
Qed.

(** The caches of the entries under [path] are dropped, those of the
    other entries are kept. *)
Lemma clear_under_entries entry fs :
  let fs' := visitAll (fun child fs =>
                         if isUnder fs entry child
                         then _clearCachedData true child fs else fs) fs in
  (exists es, fs' = set_entries es fs)
  /\ forall r, entries fs' !! r
               = if bool_decide (r ∈ indexed fs) && isUnder fs entry r
                 then cleared <$> entries fs !! r
                 else entries fs !! r.
Proof.
  cbn zeta. unfold visitAll.
  rewrite (forEach_guarded (fun fs0 => forall r, pathOf fs0 r = pathOf fs r)
             (fun child => isUnder fs entry child)).
  - rewrite clear_each. split; [by eexists|]. intros r.
    cbn [entries set_entries]. rewrite fold_alter_cleared.
    destruct (bool_decide (r ∈ List.filter _ _)) eqn:E.
    + apply bool_decide_eq_true in E.
      apply list_elem_of_In, filter_In in E as [Hin Hunder].
      rewrite Hunder, bool_decide_eq_true_2; [done|]. by apply list_elem_of_In.
    + apply bool_decide_eq_false in E.
      destruct (bool_decide (r ∈ indexed fs)) eqn:Hin; [|done].
      destruct (isUnder fs entry r) eqn:Hunder; [|done]. exfalso. apply E.
      apply bool_decide_eq_true in Hin.
      apply list_elem_of_In, filter_In. split; [by apply list_elem_of_In | done].
  - intros fs0 child H0. unfold isUnder. by rewrite !H0.
  - intros fs0 child H0 r.
    rewrite (cachesOnly_pathOf fs0 _ r (cachesOnly_clearCachedData true child fs0)).
    apply H0.
  - done.
Qed.

(** The state an [unwatch] of a watched root leaves when no request is
    under way. *)
Lemma unwatch_accepted isWatched entry callback fs root w :
  _watchRequests fs = [] ->
  Dict.get (pathOf fs entry) (_watchedRoots fs) = Some root ->
  roots fs !! root = Some w ->
  WatchedRoot.entry w = entry ->
  unwatch isWatched entry callback fs
  = emit (ImplCall unwatchPath (pathOf fs entry) (WatchedRoot.filterGitIgnore w))
      (set_watchRequests
         [mkRequest unwatchPath entry (WatchedRoot.filterGitIgnore w)
            (CbUnwatchEntry entry
               (CbUnwatch (pathOf fs entry) entry (default CbNone callback)))]
         (set_roots (alter (WatchedRoot.set_status WatchedRoot.INACTIVE) root (roots fs))
            fs)).
Proof.
  intros Hidle Hget Hroot Hentry. unfold unwatch. rewrite Hget.
  unfold _unwatchEntry, _watchOrUnwatchEntry. cbn [roots set_roots].
  rewrite list_lookup_alter, Hroot. cbn [fmap option_fmap option_map].
  destruct (decide (root = root)); [|done].
  cbn [WatchedRoot.set_status WatchedRoot.entry WatchedRoot.filterGitIgnore].
  rewrite Hentry, Nat.eqb_refl. cbn [negb].
  unfold _enqueueWatchRequest, _dequeueWatchRequest, startRequest.
  destruct fs. cbn in Hidle. subst. reflexivity.
Qed.

(** X10. An unwatch of a watched root, made while no request is under
    way, marks the root INACTIVE at once, keeps it in the registry, and
    gives the backend one command, to unwatch the path.  When the
    backend reports back, with an error or without: the root leaves the
    registry; the index, whose entries are filed under their own paths,
    loses exactly the entries whose path starts with the path of the
    root; the caches of those entries are dropped; the client is called
    once, with the error if there is one, after a warning; and the
    queue is empty again.  A second unwatch of the entry is then
    answered with ROOT_NOT_WATCHED. *)
Theorem unwatch_lifecycle (isWatched : FileSystem -> ref -> bool) (entry : ref)
    (id : nat) (fs : FileSystem) (root : ref) (w : WatchedRoot.t) :
  _watchRequests fs = [] ->
  Dict.get (pathOf fs entry) (_watchedRoots fs) = Some root ->
  roots fs !! root = Some w ->
  WatchedRoot.entry w = entry ->
  indexKeyed fs ->
  let path := pathOf fs entry in
  let fs1 := unwatch isWatched entry (Some (CbClient id)) fs in
  (statusOf fs1 root = Some WatchedRoot.INACTIVE
   /\ _watchedRoots fs1 = _watchedRoots fs
   /\ _index fs1 = _index fs
   /\ length (_watchRequests fs1) = 1
   /\ trace fs1 = trace fs ++ [ImplCall unwatchPath path (WatchedRoot.filterGitIgnore w)])
  /\ forall err,
       let fs2 := requestCb isWatched err fs1 in
       _watchedRoots fs2 = Dict.remove path (_watchedRoots fs)
       /\ (forall q, _index fs2 !! q
                     = if startsWith path q then None else _index fs !! q)
       /\ (forall q r e,
             _index fs !! q = Some r -> startsWith path q = true ->
             entries fs !! r = Some e ->
             entries fs2 !! r = Some (cleared e))
       /\ _watchRequests fs2 = []
       /\ trace fs2
          = trace fs1
            ++ (if truthy err
                then [ConsoleWarn ("Failed to unwatch root: " +:+ path);
                      CallClient id err]
                else [CallClient id None])
       /\ (NoDup (Dict.keys (_watchedRoots fs)) ->
           forall id',
             unwatch isWatched entry (Some (CbClient id')) fs2
             = emit (CallClient id' (Some FileSystemError.ROOT_NOT_WATCHED)) fs2).
Proof.
  intros Hidle Hget Hroot Hentry Hkeyed path fs1.
  assert (E1 : fs1 = _) by exact (unwatch_accepted isWatched entry (Some (CbClient id))
                                    fs root w Hidle Hget Hroot Hentry).
  change (default CbNone (Some (CbClient id))) with (CbClient id) in E1.
  fold path in E1. clearbody fs1. subst fs1.
  set (fs1 := emit _ _).
  split.
  { unfold statusOf. cbn. rewrite list_lookup_alter, Hroot.
    by destruct (decide (root = root)). }
  intros err fs2. subst fs2.
  rewrite (requestCb_head isWatched err fs1 _ [] eq_refl). cbn [req_cb applyCallback].
  (* the caches of the entries under the root *)
  destruct (clear_under_entries entry fs1) as ([esA HA] & HlookA). cbn zeta in *.
  rewrite HA in HlookA |- *. cbn [entries set_entries] in HlookA.
  assert (HpathA : forall r, fullPath <$> esA !! r = fullPath <$> entries fs !! r).
  { intros r. rewrite HlookA. change (entries fs1) with (entries fs).
    destruct (_ && _); [|done]. by destruct (entries fs !! r). }
  set (fsB := set_watchedRoots _ (set_entries esA fs1)).
  assert (HpathB : forall r, pathOf fsB r = pathOf fs r).
  { intros r. unfold pathOf. change (entries fsB) with esA.
    specialize (HpathA r). destruct (esA !! r), (entries fs !! r); cbn in HpathA; congruence. }
  assert (HkeyedB : indexKeyed fsB).
  { intros q r Hr. change (_index fsB) with (_index fs) in Hr.
    destruct (Hkeyed q r Hr) as (e & He & Hp). change (entries fsB) with esA.
    specialize (HpathA r). rewrite He in HpathA.
    destruct (esA !! r) as [e'|]; [|done]. exists e'. split; [done|].
    cbn in HpathA. congruence. }
  destruct (remove_under_index entry fsB HkeyedB) as ([m HC] & HlookC). cbn zeta in *.
  rewrite HC in HlookC |- *. cbn [_index set_index] in HlookC.
  rewrite HpathB in HlookC. change (_index fsB) with (_index fs) in HlookC.
  change (pathOf (set_index m fsB) entry) with (pathOf fsB entry). rewrite HpathB.
  fold path in HlookC |- *.
  assert (Hentries : forall q r e,
            _index fs !! q = Some r -> startsWith path q = true ->
            entries fs !! r = Some e -> esA !! r = Some (cleared e)).
  { intros q r e Hr Hq He. rewrite HlookA. change (entries fs1) with (entries fs).
    assert (Hin : r ∈ indexed fs1).
    { apply indexed_spec. by exists q. }
    rewrite (bool_decide_eq_true_2 _ Hin). unfold isUnder.
    change (pathOf fs1 ?x) with (pathOf fs x).
    assert (Hp : pathOf fs r = q).
    { destruct (Hkeyed q r Hr) as (e0 & He0 & Hp). unfold pathOf. by rewrite He0. }
    fold path. rewrite Hp, Hq. cbn. by rewrite He. }
  destruct (truthy err) eqn:Herr; cbn [applyCallback].
  - unfold _dequeueWatchRequest. cbn.
    split; [done|]. split; [exact HlookC|]. split; [exact Hentries|].
    split; [done|]. split; [by rewrite <- !app_assoc|].
    intros Hnodup id'. unfold unwatch.
    match goal with
    | |- context [Dict.get (pathOf ?s entry) ?d] =>
        change (pathOf s entry) with (pathOf fsB entry);
        change d with (Dict.remove path (_watchedRoots fs))
    end.
    rewrite HpathB. fold path. by rewrite Dict_get_remove.
  - unfold _dequeueWatchRequest. cbn.
    split; [done|]. split; [exact HlookC|]. split; [exact Hentries|].
    split; [done|]. split; [by rewrite <- !app_assoc|].
    intros Hnodup id'. unfold unwatch.
    match goal with
    | |- context [Dict.get (pathOf ?s entry) ?d] =>
        change (pathOf s entry) with (pathOf fsB entry);
        change d with (Dict.remove path (_watchedRoots fs))
    end.
    rewrite HpathB. fold path. by rewrite Dict_get_remove.
Qed.

(** ** What no operation does *)

Lemma indexFrame_refl fs : indexFrame fs fs.
Proof. unfold indexFrame, sameObjects. repeat split; done. Qed.

Lemma indexFrame_trans fs1 fs2 fs3 :
  indexFrame fs1 fs2 -> indexFrame fs2 fs3 -> indexFrame fs1 fs3.
Proof.
  unfold indexFrame, sameObjects. intros (?&[? ?]&?&?) (?&[? ?]&?&?).
  repeat split; try congruence; by etrans.
Qed.

(** A step that leaves the backend, the entries, the index and the
    effects as they are. *)
Lemma indexFrame_fields fs fs' :
  _impl fs' = _impl fs -> entries fs' = entries fs -> _index fs' = _index fs ->
  trace fs' = trace fs -> indexFrame fs fs'.
Proof.
  intros H1 H2 H3 H4. unfold indexFrame, sameObjects. rewrite H1, H2, H3, H4.
  repeat split; done.
Qed.

Lemma callbackFrame_indexFrame fs fs' : callbackFrame fs fs' -> indexFrame fs fs'.
Proof.
  intros (H1 & _ & _ & _ & _ & H6 & _ & _ & H9 & _ & H11).
  exact (conj H1 (conj H6 (conj H9 H11))).
Qed.

Lemma cachesOnly_indexFrame fs fs' : cachesOnly fs fs' -> indexFrame fs fs'.
Proof. intros H. by apply callbackFrame_indexFrame, cachesOnly_callbackFrame. Qed.

Lemma indexFrame_emit e fs : indexFrame fs (emit e fs).
Proof. apply cachesOnly_indexFrame, cachesOnly_emit. Qed.

Lemma indexFrame_forEach {A} (f : A -> FileSystem -> FileSystem) l fs :
  (forall x fs, indexFrame fs (f x fs)) -> indexFrame fs (forEach_ f l fs).
Proof.
  intros Hf. apply forEach_rel; [apply indexFrame_refl | apply indexFrame_trans | done].
Qed.

Lemma indexFrame_dequeue fs : indexFrame fs (_dequeueWatchRequest fs).
Proof.
  unfold _dequeueWatchRequest. destruct (_watchRequests fs); [apply indexFrame_refl|].
  apply indexFrame_emit.
Qed.

Lemma indexFrame_enqueue request fs : indexFrame fs (_enqueueWatchRequest request fs).
Proof.
  unfold _enqueueWatchRequest.
  set (fs1 := set_watchRequests _ fs).
  assert (H1 : indexFrame fs fs1) by by apply indexFrame_fields.
  destruct (Nat.eqb _ 1); [|done].
  eapply indexFrame_trans; [exact H1 | apply indexFrame_dequeue].
Qed.

Lemma indexFrame_applyCallback isWatched callback err fs :
  indexFrame fs (applyCallback isWatched callback err fs).
Proof. apply callbackFrame_indexFrame, callbackFrame_applyCallback. Qed.

Lemma indexFrame_watchOrUnwatchEntry isWatched entry watchedRoot callback shouldWatch fs :
  indexFrame fs (_watchOrUnwatchEntry isWatched entry watchedRoot callback shouldWatch fs).
Proof.
  unfold _watchOrUnwatchEntry. destruct (roots fs !! watchedRoot); [|apply indexFrame_refl].
  destruct (negb _); [apply indexFrame_applyCallback | apply indexFrame_enqueue].
Qed.

Lemma indexFrame_requestCb isWatched err fs : indexFrame fs (requestCb isWatched err fs).
Proof.
  unfold requestCb. destruct (_watchRequests fs) as [|request rest]; [apply indexFrame_refl|].
  eapply indexFrame_trans; [apply indexFrame_applyCallback|].
  eapply indexFrame_trans; [|apply indexFrame_dequeue].
  by apply indexFrame_fields.
Qed.

Lemma indexFrame_watch isWatched entry filter filterGitIgnore callback fs :
  indexFrame fs (watch isWatched entry filter filterGitIgnore callback fs).
Proof.
  rewrite watch_child_test_dead. cbn zeta.
  destruct (match _findWatchedRootForPath _ _ with Some _ => _ | None => _ end);
    [apply indexFrame_applyCallback|].
  unfold newWatchedRoot, _watchEntry.
  eapply indexFrame_trans; [|apply indexFrame_watchOrUnwatchEntry].
  by apply indexFrame_fields.
Qed.

Lemma indexFrame_unwatch isWatched entry callback fs :
  indexFrame fs (unwatch isWatched entry callback fs).
Proof.
  unfold unwatch. destruct (Dict.get _ _); [|apply indexFrame_applyCallback].
  unfold _unwatchEntry.
  eapply indexFrame_trans; [|apply indexFrame_watchOrUnwatchEntry].
  by apply indexFrame_fields.
Qed.

Lemma indexFrame_handleExternalChange path stat fs :
  indexFrame fs (snd (_handleExternalChange path stat fs)).
Proof. apply cachesOnly_indexFrame, cachesOnly_handleExternalChange. Qed.

Lemma indexFrame_forEachM {A} (f : A -> M unit) l :
  (forall x fs, indexFrame fs (snd (f x fs))) ->
  forall fs, indexFrame fs (snd (forEach f l fs)).
Proof.
  intros Hf. induction l as [|x l IH]; intros fs; cbn [forEach];
    [apply indexFrame_refl|].
  unfold bind. specialize (Hf x fs). destruct (f x fs) as [[[]|msg] fs1]; cbn in *.
  - eapply indexFrame_trans; [exact Hf | apply IH].
  - exact Hf.
Qed.

Lemma indexFrame_triggerExternalChangesNow fs :
  indexFrame fs (snd (_triggerExternalChangesNow fs)).
Proof.
  unfold _triggerExternalChangesNow, bind, get.
  pose proof (indexFrame_forEachM
                (fun info => _handleExternalChange (change_path info) (change_stat info))
                (_externalChanges fs)
                (fun x fs => indexFrame_handleExternalChange _ _ fs) fs) as H.
  destruct (forEach _ _ fs) as [[[]|msg] fs1]; cbn in *; [|exact H].
  eapply indexFrame_trans; [exact H|]. by apply indexFrame_fields.
Qed.

Lemma indexFrame_enqueueExternalChange path stat fs :
  indexFrame fs (snd (_enqueueExternalChange path stat fs)).
Proof.
  unfold _enqueueExternalChange, bind, run, get.
  set (fs1 := set_externalChanges _ fs).
  assert (H1 : indexFrame fs fs1) by by apply indexFrame_fields.
  destruct (_activeChangeCount fs1 =? 0)%Z; [|exact H1].
  eapply indexFrame_trans; [exact H1 | apply indexFrame_triggerExternalChangesNow].
Qed.

Lemma indexFrame_endChange fs : indexFrame fs (snd (_endChange fs)).
Proof.
  unfold _endChange, bind, run, get.
  set (fs1 := set_activeChangeCount _ fs).
  assert (H1 : indexFrame fs fs1) by by apply indexFrame_fields.
  destruct (_activeChangeCount fs1 <? 0)%Z eqn:Hneg; cbn [ret].
  - set (fs2 := emit _ fs1).
    assert (H2 : indexFrame fs fs2).
    { eapply indexFrame_trans; [exact H1 | apply indexFrame_emit]. }
    destruct (_activeChangeCount fs1 =? 0)%Z; [|exact H2].
    eapply indexFrame_trans; [exact H2 | apply indexFrame_triggerExternalChangesNow].
  - destruct (_activeChangeCount fs1 =? 0)%Z; [|exact H1].
    eapply indexFrame_trans; [exact H1 | apply indexFrame_triggerExternalChangesNow].
Qed.

Lemma indexFrame_unwatchAll isWatched fs : indexFrame fs (snd (_unwatchAll isWatched fs)).
Proof.
  unfold _unwatchAll, bind, run, get.
  eapply indexFrame_trans; [apply indexFrame_emit|].
  eapply indexFrame_trans; [|apply indexFrame_handleExternalChange].
  apply indexFrame_forEach. intros path fs0.
  destruct (Dict.get path (_watchedRoots fs0)) as [watchedRoot|]; [|apply indexFrame_refl].
  cbn [roots set_roots set_watchedRoots].
  destruct (alter _ watchedRoot (roots fs0) !! watchedRoot) as [w|].
  - unfold _unwatchEntry.
    eapply indexFrame_trans; [|apply indexFrame_watchOrUnwatchEntry].
    by apply indexFrame_fields.
  - by apply indexFrame_fields.
Qed.

Lemma indexFrame_applyContentsCallback isWatched name parentPath k contents fs :
  indexFrame fs (applyContentsCallback isWatched name parentPath k contents fs).
Proof.
  destruct k as [directory oldContents callback]. unfold applyContentsCallback.
  set (added := match oldContents with Some old => Some _ | None => None end).
  set (removed := match oldContents with Some old => Some _ | None => None end).
  assert (HnotWatched :
    indexFrame fs
      (applyDirCallback isWatched callback added removed
         (visitAll (fun entry fs => if isUnder fs directory entry
                                    then _clearCachedData true entry fs else fs) fs))).
  { eapply indexFrame_trans.
    - apply cachesOnly_indexFrame.
      apply (cachesOnly_visitAll
               (fun entry fs => if isUnder fs directory entry
                                then _clearCachedData true entry fs else fs)).
      intros child fs0.
      destruct (isUnder fs0 directory child);
        [apply cachesOnly_clearCachedData | apply cachesOnly_refl].
    - apply callbackFrame_indexFrame, callbackFrame_applyDirCallback. }
  destruct (_findWatchedRootForPath _ fs) as [r|]; [|exact HnotWatched].
  destruct (negb _); [exact HnotWatched|].
  destruct (Z.of_nat _ =? 0)%Z;
    [apply callbackFrame_indexFrame, callbackFrame_applyDirCallback|].
  eapply indexFrame_trans; [|apply indexFrame_forEach].
  - eapply indexFrame_trans; [|apply indexFrame_forEach].
    + by apply indexFrame_fields.
    + intros entry fs0. apply indexFrame_watchOrUnwatchEntry.
  - intros entry fs0. apply indexFrame_watchOrUnwatchEntry.
Qed.

Lemma indexFrame_perform isWatched name parentPath op fs :
  indexFrame fs (perform isWatched name parentPath op fs).
Proof.
  destruct op; cbn [perform].
  - apply indexFrame_watch.
  - apply indexFrame_unwatch.
  - apply indexFrame_requestCb.
  - apply indexFrame_unwatchAll.
  - by apply indexFrame_fields.
  - apply indexFrame_endChange.
  - apply indexFrame_enqueueExternalChange.
  - apply indexFrame_handleExternalChange.
  - apply cachesOnly_indexFrame, cachesOnly_handleDirectoryChange.
  - apply indexFrame_applyContentsCallback.
Qed.

Lemma indexFrame_indexKeyed fs fs' : indexFrame fs fs' -> indexKeyed fs -> indexKeyed fs'.
Proof.
  intros (_ & [Hp _] & Hsub & _) Hk q r Hr.
  assert (Hr0 : _index fs !! q = Some r) by by eapply lookup_weaken.
  destruct (Hk q r Hr0) as (e & He & Hpath).
  apply (f_equal (fun l => l !! r)) in Hp. rewrite !list_lookup_fmap, He in Hp.
  destruct (entries fs' !! r) as [e'|]; [|done]. exists e'. split; [done|].
  cbn in Hp. congruence.
Qed.

(** X11. Whatever the clients and the backend make the facade do, short
    of creating entries (watching and unwatching, the reports of the
    backend, external changes and the barrier, directory changes and
    their listings), the entries remain the objects they were, each
    with its path and its kind; the index gains no entry; the effects
    that have happened stay in their order; and an index whose entries
    are filed under their own paths remains one. *)
Theorem operations_frame (isWatched : FileSystem -> ref -> bool)
    (name parentPath : Entry -> string) (ops : list Operation) (fs : FileSystem) :
  let fs' := forEach_ (perform isWatched name parentPath) ops fs in
  sameObjects fs fs'
  /\ _index fs' ⊆ _index fs
  /\ trace fs `prefix_of` trace fs'
  /\ _impl fs' = _impl fs
  /\ (indexKeyed fs -> indexKeyed fs').
Proof.
  cbn zeta.
  assert (H : indexFrame fs (forEach_ (perform isWatched name parentPath) ops fs)).
  { apply indexFrame_forEach. intros op fs0. apply indexFrame_perform. }
  pose proof (indexFrame_indexKeyed _ _ H) as Hk.
  destruct H as (H1 & H2 & H3 & H4).
  exact (conj H2 (conj H3 (conj H4 (conj H1 Hk)))).
Qed.

(** ** Unwatching every root *)

Lemma unwatchRequest_alter s r0 rs r :
  unwatchRequest (alter (WatchedRoot.set_status s) r0 rs) r = unwatchRequest rs r.
Proof.
  unfold unwatchRequest. rewrite list_lookup_alter.
  destruct (decide (r0 = r)) as [->|]; [|done]. by destruct (rs !! r).
Qed.

Lemma fold_alter_status s l (rs : list WatchedRoot.t) r :
  fold_left (fun rs r => alter (WatchedRoot.set_status s) r rs) l rs !! r
  = if bool_decide (r ∈ l) then WatchedRoot.set_status s <$> rs !! r else rs !! r.
Proof.
  revert rs. induction l as [|r0 l IH]; intros rs; cbn [fold_left]; [done|].
  rewrite IH, list_lookup_alter. destruct (decide (r0 = r)) as [->|Hne].
  - rewrite (bool_decide_eq_true_2 (r ∈ r :: l)) by apply list_elem_of_here.
    destruct (bool_decide (r ∈ l)); [|done]. by destruct (rs !! r).
  - destruct (bool_decide (r ∈ l)) eqn:E.
    + apply bool_decide_eq_true in E.
      by rewrite bool_decide_eq_true_2 by by apply list_elem_of_further.
    + apply bool_decide_eq_false in E.
      rewrite bool_decide_eq_false_2; [done|].
      intros [?|?]%elem_of_cons; congruence.
Qed.

(** One pass of the loop of [_unwatchAll], for the path at the head of
    the registry. *)
Lemma unwatchAll_step isWatched k r d fs :
  _watchedRoots fs = (k, r) :: d ->
  let fs1 := unwatchAllStep isWatched k fs in
  _watchedRoots fs1 = d
  /\ roots fs1 = alter (WatchedRoot.set_status WatchedRoot.INACTIVE) r (roots fs)
  /\ _watchRequests fs1
     = _watchRequests fs
       ++ match unwatchRequest (roots fs) r with Some request => [request] | None => [] end
  /\ backendCalls fs1
     = backendCalls fs
       ++ match _watchRequests fs, unwatchRequest (roots fs) r with
          | [], Some request => [commandOf fs request]
          | _, _ => []
          end
  /\ entries fs1 = entries fs
  /\ _index fs1 = _index fs.
Proof.
  intros Hd. cbn zeta. unfold unwatchAllStep. rewrite Hd.
  cbn [Dict.get Dict.remove]. rewrite String.eqb_refl. cbn zeta.
  cbn [roots set_roots set_watchedRoots _watchedRoots]. rewrite Hd.
  cbn [Dict.remove]. rewrite String.eqb_refl.
  rewrite list_lookup_alter. destruct (decide (r = r)); [|done].
  unfold unwatchRequest.
  destruct (roots fs !! r) as [w|] eqn:Hw; cbn [fmap option_fmap option_map].
  2:{ replace (match _watchRequests fs with [] | _ => [] end)
        with (@nil (WatchCommand * string * option (list string)))
        by (by destruct (_watchRequests fs)).
      rewrite !app_nil_r. repeat split; done. }
  unfold _unwatchEntry, _watchOrUnwatchEntry. cbn [roots set_roots set_watchedRoots].
  rewrite list_lookup_alter, Hw. destruct (decide (r = r)); [|done].
  cbn [fmap option_fmap option_map].
  cbn [WatchedRoot.set_status WatchedRoot.entry WatchedRoot.filterGitIgnore].
  rewrite Nat.eqb_refl. cbn [negb].
  set (request := mkRequest _ _ _ _).
  unfold _enqueueWatchRequest. cbn [_watchRequests set_watchRequests set_roots set_watchedRoots].
  destruct (_watchRequests fs) as [|q0 q]; cbn [app length Nat.eqb].
  - unfold _dequeueWatchRequest. cbn [_watchRequests set_watchRequests].
    unfold startRequest. rewrite backendCalls_emit. cbn [backendCall].
    repeat split; done.
  - destruct (length (q ++ [request])) eqn:Hlen.
    { rewrite length_app in Hlen. cbn in Hlen. lia. }
    cbn [Nat.eqb]. rewrite app_nil_r. repeat split; done.
Qed.

(** The loop of [_unwatchAll] over the paths of the registry. *)
Lemma unwatchAll_loop isWatched d :
  forall fs,
    _watchedRoots fs = d ->
    NoDup (Dict.keys d) ->
    let fs' := forEach_ (unwatchAllStep isWatched) (Dict.keys d) fs in
    _watchedRoots fs' = []
    /\ roots fs'
       = fold_left (fun rs r => alter (WatchedRoot.set_status WatchedRoot.INACTIVE) r rs)
           (d.*2) (roots fs)
    /\ _watchRequests fs' = _watchRequests fs ++ omap (unwatchRequest (roots fs)) (d.*2)
    /\ backendCalls fs'
       = backendCalls fs
         ++ match _watchRequests fs, omap (unwatchRequest (roots fs)) (d.*2) with
            | [], request :: _ => [commandOf fs request]
            | _, _ => []
            end
    /\ entries fs' = entries fs
    /\ _index fs' = _index fs.
Proof.
  induction d as [|[k r] d IH]; intros fs Hd Hnodup.
  { cbn [Dict.keys map forEach_ fold_left fmap list_fmap omap list_omap]. rewrite Hd.
    destruct (_watchRequests fs); rewrite ?app_nil_r; repeat split; done. }
  cbn [Dict.keys map fst forEach_ fold_left]. cbn zeta.
  destruct (unwatchAll_step isWatched k r d fs Hd) as (Hd1 & Hr1 & Hq1 & Hc1 & He1 & Hi1).
  cbn zeta in *. set (fs1 := unwatchAllStep isWatched k fs) in *.
  apply NoDup_cons in Hnodup as [_ Hnodup].
  destruct (IH fs1 Hd1 Hnodup) as (G1 & G2 & G3 & G4 & G5 & G6).
  cbn zeta in *. unfold Dict.keys, forEach_ in *.
  assert (Hreqs : omap (unwatchRequest (roots fs1)) (d.*2)
                  = omap (unwatchRequest (roots fs)) (d.*2)).
  { rewrite Hr1. clear. induction (d.*2) as [|x l IHl]; [done|]. cbn.
    by rewrite unwatchRequest_alter, IHl. }
  assert (Hcmd : forall request, commandOf fs1 request = commandOf fs request).
  { intros request. unfold commandOf, pathOf. by rewrite He1. }
  rewrite Hreqs in G3, G4.
  split; [exact G1|]. split; [by rewrite G2, Hr1|].
  cbn [fmap list_fmap snd omap list_omap].
  change (list_fmap _ _ snd d) with (d.*2).
  split; [|split; [|split; congruence]].
  - rewrite G3, Hq1, <- app_assoc. f_equal.
    by destruct (unwatchRequest (roots fs) r).
  - rewrite G4, Hc1, Hq1, <- app_assoc. f_equal.
    destruct (_watchRequests fs) as [|q0 q]; cbn [app].
    + destruct (unwatchRequest (roots fs) r); cbn [app]; [done|].
      destruct (omap _ _); [done|]. by rewrite Hcmd.
    + by destruct (unwatchRequest (roots fs) r).
Qed.

Lemma unwatchAll_unfold isWatched fs :
  _unwatchAll isWatched fs
  = _handleExternalChange None None
      (forEach_ (unwatchAllStep isWatched) (Dict.keys (_watchedRoots fs))
         (emit (ConsoleWarn "File watchers went offline!") fs)).
Proof. reflexivity. Qed.

(** X12. When the watchers go offline, [_unwatchAll] empties the
    registry of watched roots, marks every root that was in it
    INACTIVE and leaves the other roots as they are, and puts one
    unwatch request per root at the end of the queue, in the order of
    the registry; the backend is given the first of these commands at
    once if no request was under way, and no command otherwise.  The
    call returns, and its last effect is the change event that stands
    for "everything changed".  The index keeps its entries. *)
Theorem unwatchAll_offline (isWatched : FileSystem -> ref -> bool) (fs : FileSystem) :
  NoDup (Dict.keys (_watchedRoots fs)) ->
  let registered := (_watchedRoots fs).*2 in
  let requests := omap (unwatchRequest (roots fs)) registered in
  let fs' := snd (_unwatchAll isWatched fs) in
  fst (_unwatchAll isWatched fs) = Ok tt
  /\ _watchedRoots fs' = []
  /\ (forall r,
        roots fs' !! r
        = if bool_decide (r ∈ registered)
          then WatchedRoot.set_status WatchedRoot.INACTIVE <$> roots fs !! r
          else roots fs !! r)
  /\ _watchRequests fs' = _watchRequests fs ++ requests
  /\ backendCalls fs'
     = backendCalls fs
       ++ match _watchRequests fs, requests with
          | [], request :: _ => [commandOf fs request]
          | _, _ => []
          end
  /\ last (trace fs') = Some (TriggerChange None None None)
  /\ _index fs' = _index fs.
Proof.
  intros Hnodup registered requests fs'. subst fs'. rewrite unwatchAll_unfold.
  set (fs0 := emit (ConsoleWarn "File watchers went offline!") fs).
  destruct (unwatchAll_loop isWatched (_watchedRoots fs) fs0 eq_refl Hnodup)
    as (G1 & G2 & G3 & G4 & G5 & G6). cbn zeta in *.
  set (fsL := forEach_ _ _ fs0) in *.
  unfold _handleExternalChange, run, _fireChangeEvent, visitAll. cbn [fst snd].
  rewrite clear_each.
  split; [done|]. split; [exact G1|]. split.
  { intros r. cbn [roots emit set_trace set_entries]. rewrite G2.
    apply fold_alter_status. }
  split; [exact G3|]. split.
  { rewrite backendCalls_emit. cbn [backendCall]. rewrite app_nil_r.
    change (backendCalls (set_entries _ fsL)) with (backendCalls fsL).
    rewrite G4. unfold fs0 at 1. rewrite backendCalls_emit. cbn [backendCall].
    by rewrite app_nil_r. }
  split; [|exact G6].
  cbn [trace emit set_trace]. apply last_snoc.
Qed.

(** ** Entries for paths *)

Lemma getEntryForPath_spec directory path n fs :
  _normalizePath (normalizeUNCPaths (_impl fs)) path directory = Ok n ->
  exists r fs',
    _getEntryForPath directory path fs = (Ok r, fs')
    /\ _index fs' !! n = Some r
    /\ _index fs ⊆ _index fs'
    /\ entries fs `prefix_of` entries fs'
    /\ (indexKeyed fs -> indexKeyed fs')
    /\ _impl fs' = _impl fs
    /\ (forall r0, _index fs !! n = Some r0 -> r = r0 /\ fs' = fs).
Proof.
  intros Hn. rewrite getEntryForPath_state, Hn.
  destruct (_index fs !! n) as [r|] eqn:E.
  - exists r, fs. repeat split; try done; intros; congruence.
  - eexists _, _. split; [reflexivity|].
    cbn [entries set_entries _index set_index _impl].
    split; [apply lookup_insert_eq|]. split; [by apply insert_subseteq|].
    split; [by apply prefix_app_r|]. split; [|by split].
    intros Hk q r0 Hq. cbn [entries set_entries _index set_index] in *.
    destruct (decide (n = q)) as [->|Hne].
    + rewrite lookup_insert_eq in Hq. injection Hq as <-.
      exists (freshEntry q (negb directory)). split; [apply lookup_snoc | done].
    + rewrite lookup_insert_ne in Hq by done.
      destruct (Hk q r0 Hq) as (e & He & Hp). exists e. split; [|done].
      by apply lookup_app_l_Some.
Qed.




(** ** Directory changes outside the watched roots *)

Lemma includes_spec r l : includes r l = true <-> r ∈ l.
Proof.
  unfold includes. rewrite existsb_exists. split.
  - intros (x & Hin & ->%Nat.eqb_eq). by apply list_elem_of_In.
  - intros Hin. exists r. split; [by apply list_elem_of_In | apply Nat.eqb_refl].
Qed.

Lemma filter_not_includes l1 l2 x :
  x ∈ List.filter (fun entry => negb (includes entry l2)) l1 <-> x ∈ l1 /\ x ∉ l2.
Proof.
  split.
  - intros [Hin Hn]%list_elem_of_In%filter_In. split; [by apply list_elem_of_In|].
    intros Hc%includes_spec. by rewrite Hc in Hn.
  - intros [Hin Hn]. apply list_elem_of_In, filter_In.
    split; [by apply list_elem_of_In|].
    destruct (includes x l2) eqn:E; [|done]. by apply includes_spec in E.
Qed.

Lemma update_each l fs :
  forEach_ (updateEntry cleared) l fs
  = set_entries (fold_left (fun es r => alter cleared r es) l (entries fs)) fs.
Proof.
  unfold forEach_. revert fs. induction l as [|r l IH]; intros fs; cbn [fold_left].
  - by destruct fs.
  - rewrite IH. unfold updateEntry. by destruct fs.
Qed.

Lemma clearCachedData_pathOf b r fs r' :
  pathOf (_clearCachedData b r fs) r' = pathOf fs r'.
Proof. apply cachesOnly_pathOf, cachesOnly_clearCachedData. Qed.

(** X14. A change of a directory that lies under no watched root is
    reported to the caller as soon as the directory has been listed
    again, and once.  The directory is asked for its contents after its
    cache has been dropped; when it answers, the callback receives the
    entries of the listing that the directory had not cached as its
    children, and the cached children that the listing lacks; it
    receives no change sets at all if the directory had no children
    cached.  No command goes to the backend, and the index, the roots
    and the queue of requests are as before. *)
Theorem handleDirectoryChange_unwatched (isWatched : FileSystem -> ref -> bool)
    (name parentPath : Entry -> string) (fs : FileSystem) (directory : ref)
    (d : Entry) (contents : list ref) (id : nat) :
  entries fs !! directory = Some d ->
  _findWatchedRootForPath (fullPath d) fs = None ->
  let old := childrenOf d in
  let k := CcDirectoryChange directory old (DcClient id) in
  let added :=
    match old with
    | Some o => Some (List.filter (fun entry => negb (includes entry o)) contents)
    | None => None
    end in
  let removed :=
    match old with
    | Some o => Some (List.filter (fun entry => negb (includes entry contents)) o)
    | None => None
    end in
  let fs1 := _handleDirectoryChange directory (DcClient id) fs in
  let fs2 := applyContentsCallback isWatched name parentPath k contents fs1 in
  trace fs1 = trace fs ++ [GetContents directory k]
  /\ entries fs1 !! directory = Some (cleared d)
  /\ trace fs2 = trace fs1 ++ [CallDirClient id added removed]
  /\ (forall a, added = Some a ->
        forall x, x ∈ a <-> x ∈ contents /\ forall o, old = Some o -> x ∉ o)
  /\ (forall rm, removed = Some rm ->
        forall x, x ∈ rm <-> (x ∉ contents) /\ forall o, old = Some o -> x ∈ o)
  /\ sameObjects fs fs2
  /\ _index fs2 = _index fs
  /\ roots fs2 = roots fs
  /\ _watchedRoots fs2 = _watchedRoots fs
  /\ _watchRequests fs2 = _watchRequests fs
  /\ backendCalls fs2 = backendCalls fs.
Proof.
  intros Hd Hfind old k added removed fs1 fs2.
  assert (Hpath : pathOf fs directory = fullPath d) by (unfold pathOf; by rewrite Hd).
  destruct (clearCachedData_entries_only false directory fs) as [es1 H1].
  assert (E1 : fs1 = emit (GetContents directory k) (set_entries es1 fs)).
  { subst fs1. unfold _handleDirectoryChange. rewrite Hd, H1. reflexivity. }
  assert (Hp1 : forall r, pathOf fs1 r = pathOf fs r).
  { intros r. subst fs1. unfold _handleDirectoryChange.
    rewrite <- (clearCachedData_pathOf false directory fs r). reflexivity. }
  assert (Hes1 : es1 !! directory = Some (cleared d)).
  { change es1 with (entries (set_entries es1 fs)). rewrite <- H1.
    unfold _clearCachedData. rewrite Hd.
    match goal with
    | |- context [forEach_ (updateEntry cleared) ?c _] => set (children := c)
    end.
    rewrite update_each. cbn [entries set_entries updateEntry].
    rewrite fold_alter_cleared, list_lookup_alter, Hd.
    destruct (decide (directory = directory)); [|done].
    by destruct (bool_decide _). }
  destruct (clear_under_entries directory fs1) as ([es2 H2] & _). cbn zeta in H2.
  assert (E2 : fs2 = emit (CallDirClient id added removed) (set_entries es2 fs1)).
  { subst fs2 k. unfold applyContentsCallback.
    rewrite Hp1, Hpath.
    assert (Hfind1 : _findWatchedRootForPath (fullPath d) fs1 = None).
    { rewrite E1. exact Hfind. }
    rewrite Hfind1, H2. subst added removed. by destruct old. }
  split; [by rewrite E1|]. split; [by rewrite E1|]. split; [by rewrite E2|].
  split; [|split].
  - intros a Ha x. subst added. destruct old as [o|]; [|done].
    injection Ha as <-. rewrite filter_not_includes. split.
    + intros [? ?]. split; [done|]. by intros ? [= <-].
    + intros [? H]. split; [done|]. by apply H.
  - intros rm Hrm x. subst removed. destruct old as [o|]; [|done].
    injection Hrm as <-. rewrite filter_not_includes. split.
    + intros [? ?]. split; [done|]. by intros ? [= <-].
    + intros [? H]. split; [by apply H | done].
  - assert (Hframe : cachesOnly fs fs2).
    { eapply cachesOnly_trans; [apply cachesOnly_handleDirectoryChange|].
      fold fs1. rewrite E2, <- H2.
      eapply cachesOnly_trans; [|apply cachesOnly_emit].
      apply (cachesOnly_visitAll
               (fun child fs => if isUnder fs directory child
                                then _clearCachedData true child fs else fs)).
      intros child fs0. destruct (isUnder fs0 directory child);
        [apply cachesOnly_clearCachedData | apply cachesOnly_refl]. }
    destruct Hframe as (es & t & Hfs2 & Hp & Hk).
    rewrite Hfs2. repeat split; try done.
    rewrite Hfs2 in E2. apply (f_equal trace) in E2. rewrite E1 in E2.
    cbn [trace emit set_trace set_entries] in E2.
    rewrite <- app_assoc in E2. apply app_inv_head in E2. subst t.
    unfold backendCalls. cbn [trace set_trace set_entries].
    rewrite omap_app. cbn. by rewrite app_nil_r.
Qed.

(** ** Free paths: the first candidate that is free *)

(** The loop stops at the first candidate whose probe is rejected. *)
Lemma probe_first_rejected impl suggestedPath isDir remaining k err :
  MAX_DEDUPE_NUMBER - remaining <= k < MAX_DEDUPE_NUMBER ->
  remaining <= MAX_DEDUPE_NUMBER ->
  (forall i, MAX_DEDUPE_NUMBER - remaining <= i < k ->
     existsAsync impl (_getNewPath suggestedPath isDir i (pathLib impl)) = Resolved true) ->
  existsAsync impl (_getNewPath suggestedPath isDir k (pathLib impl)) = Rejected err ->
  probe impl suggestedPath isDir remaining = Unsettled err.
Proof.
  induction remaining as [|n IH]; intros Hk Hm Hbusy Hrej; [lia|].
  cbn [probe]. destruct (decide (k = MAX_DEDUPE_NUMBER - S n)) as [->|Hne].
  - by rewrite Hrej.
  - rewrite Hbusy by lia. apply IH; [lia | lia | | done].
    intros i Hi. apply Hbusy. lia.
Qed.

(** X15. For a path that exists, [getFreePath] tries the candidates
    "copy 1", "copy 2", ... in this order, and settles at the first one
    the backend does not report as existing: if the backend says it
    does not exist, the callback receives that candidate and no error;
    if the probe itself fails, the callback is never called. *)
Theorem getFreePath_first_free (fs : FileSystem) (suggestedPath : string)
    (err : option string) (st : Stats.t) (k : nat) :
  stat (_impl fs) suggestedPath = (err, Some st) ->
  1 <= k < MAX_DEDUPE_NUMBER ->
  let candidate i :=
    _getNewPath suggestedPath (Stats.isDirectory st) i (pathLib (_impl fs)) in
  (forall i, 1 <= i < k -> existsAsync (_impl fs) (candidate i) = Resolved true) ->
  (existsAsync (_impl fs) (candidate k) = Resolved false ->
   getFreePath suggestedPath fs = Callback_ None (Some (candidate k)))
  /\ (forall e, existsAsync (_impl fs) (candidate k) = Rejected e ->
        getFreePath suggestedPath fs = Unsettled e).
Proof.
  intros Hstat Hk candidate Hbusy. unfold getFreePath. rewrite Hstat.
  assert (Hfrom : MAX_DEDUPE_NUMBER - (MAX_DEDUPE_NUMBER - 1) = 1)
    by (unfold MAX_DEDUPE_NUMBER; lia).
  split.
  - intros Hfree. apply probe_first_free; [lia | lia | | exact Hfree].
    intros i Hi. apply Hbusy. lia.
  - intros e Hrej. apply (probe_first_rejected _ _ _ _ k); [lia | lia | | exact Hrej].
    intros i Hi. apply Hbusy. lia.
Qed.

Lemma getFreePath_first_free_witness :
  let fs := newFileSystem copiedDirImpl in
  let candidate i := _getNewPath "/a/b/dir" true i (pathLib (_impl fs)) in
  stat (_impl fs) "/a/b/dir" = (None, Some (Stats.mk false true 0))
  /\ 1 <= 3 < MAX_DEDUPE_NUMBER
  /\ (forall i, 1 <= i < 3 -> existsAsync (_impl fs) (candidate i) = Resolved true)
  /\ existsAsync (_impl fs) (candidate 3) = Resolved false
  /\ getFreePath "/a/b/dir" fs = Callback_ None (Some "/a/b/dir (copy 3)").
Proof.
  intros fs candidate.
  assert (H1 : stat (_impl fs) "/a/b/dir" = (None, Some (Stats.mk false true 0)))
    by reflexivity.
  assert (H2 : 1 <= 3 < MAX_DEDUPE_NUMBER) by (unfold MAX_DEDUPE_NUMBER; lia).
  assert (H3 : forall i, 1 <= i < 3 -> existsAsync (_impl fs) (candidate i) = Resolved true).
  { intros i Hi. assert (i = 1 \/ i = 2) as [-> | ->] by lia; reflexivity. }
  assert (H4 : existsAsync (_impl fs) (candidate 3) = Resolved false) by reflexivity.
  split; [exact H1|]. split; [exact H2|]. split; [exact H3|]. split; [exact H4|].
  exact (proj1 (getFreePath_first_free fs "/a/b/dir" None (Stats.mk false true 0) 3
                  H1 H2 H3) H4).
Defined.

(** ** External changes while the barrier is open *)

Lemma clearCachedData_explicit b r fs :
  _clearCachedData b r fs
  = set_entries
      (match entries fs !! r with
       | None => entries fs
       | Some e =>
           fold_left (fun es r => alter cleared r es)
             (if isDirectory e && negb b
              then match childrenOf e with Some l => l | None => [] end
              else [])
             (alter cleared r (entries fs))
       end) fs.
Proof.
  unfold _clearCachedData. destruct (entries fs !! r) as [e|]; [|by destruct fs].
  rewrite update_each. unfold updateEntry. by destruct fs.
Qed.

(** Handling a change neither reads nor writes the queue of changes. *)
Lemma handleExternalChange_queue q path stat fs :
  _handleExternalChange path stat (set_externalChanges q fs)
  = (fst (_handleExternalChange path stat fs),
     set_externalChanges q (snd (_handleExternalChange path stat fs))).
Proof.
  assert (Hwhole : forall fs0 : FileSystem,
            _fireChangeEvent None None None
              (visitAll (_clearCachedData true) (set_externalChanges q fs0))
            = set_externalChanges q
                (_fireChangeEvent None None None (visitAll (_clearCachedData true) fs0))).
  { intros fs0. unfold visitAll. rewrite !clear_each. reflexivity. }
  unfold _handleExternalChange.
  destruct path as [p|]; [|unfold run; cbn [fst snd]; by rewrite Hwhole].
  destruct (truthy (Some p)); [|unfold run; cbn [fst snd]; by rewrite Hwhole].
  unfold bind, get, liftResult. cbn [_impl set_externalChanges].
  destruct (_normalizePath _ p false) as [np|msg]; [|done].
  unfold ret, getEntry. cbn [_index set_externalChanges].
  destruct (_index fs !! np) as [entry|]; [|done].
  cbn [entries set_externalChanges].
  destruct (entries fs !! entry) as [e|]; [|done].
  destruct (isFile e).
  - destruct (negb (notNewer stat (_stat e))); [|done].
    unfold run. cbn [fst snd]. rewrite !clearCachedData_explicit. reflexivity.
  - unfold run, _handleDirectoryChange. cbn [fst snd].
    rewrite !clearCachedData_explicit. reflexivity.
Qed.

(** X16. With the barrier open and nothing queued, a change the
    watcher reports is handled at once: [_enqueueExternalChange] does
    what [_handleExternalChange] does, and leaves the queue empty. *)
Theorem enqueueExternalChange_immediate (path : option string)
    (stat : option Stats.t) (fs : FileSystem) :
  _activeChangeCount fs = 0%Z ->
  _externalChanges fs = [] ->
  reportable (normalizeUNCPaths (_impl fs)) (mkChange path stat) ->
  _handleExternalChange path stat fs
  = (Ok tt, snd (_handleExternalChange path stat fs))
  /\ _enqueueExternalChange path stat fs
     = (Ok tt, snd (_handleExternalChange path stat fs)).
Proof.
  intros Hcount Hqueue Hrep.
  pose proof (handleExternalChange_returns (mkChange path stat) fs Hrep) as Hok.
  cbn [change_path change_stat] in Hok.
  assert (Hhandle : _handleExternalChange path stat fs
                    = (Ok tt, snd (_handleExternalChange path stat fs))).
  { rewrite <- Hok. by destruct (_handleExternalChange path stat fs). }
  split; [exact Hhandle|].
  unfold _enqueueExternalChange, bind, run, get.
  cbn [_activeChangeCount set_externalChanges]. rewrite Hcount, Hqueue. cbn [Z.eqb app].
  unfold _triggerExternalChangesNow, bind, get.
  cbn [_externalChanges set_externalChanges forEach change_path change_stat].
  unfold bind. rewrite handleExternalChange_queue, Hok. unfold ret, run.
  destruct (handleExternalChange_barrier path stat fs) as (_ & Hq & _).
  cbn zeta in Hq. rewrite Hqueue in Hq.
  destruct (snd (_handleExternalChange path stat fs)). cbn in Hq. subst.
  reflexivity.
Qed.

Lemma enqueueExternalChange_immediate_witness :
  _activeChangeCount cachedFile = 0%Z
  /\ _externalChanges cachedFile = []
  /\ reportable false (mkChange (Some "/f.txt") None)
  /\ trace (snd (_enqueueExternalChange (Some "/f.txt") None cachedFile))
     = [TriggerChange (Some 0) None None].
Proof.
  assert (H1 : _activeChangeCount cachedFile = 0%Z) by reflexivity.
  assert (H2 : _externalChanges cachedFile = []) by reflexivity.
  assert (H3 : reportable (normalizeUNCPaths (_impl cachedFile))
                 (mkChange (Some "/f.txt") None)).
  { right. exists "/f.txt", "/f.txt". split; reflexivity. }
  split; [exact H1|]. split; [exact H2|]. split; [exact H3|].
  destruct (enqueueExternalChange_immediate (Some "/f.txt") None cachedFile H1 H2 H3)
    as [_ ->].
  reflexivity.
Defined.

(** X17. A change whose path is rejected is never taken out of the
    queue.  With the barrier open, reporting it throws and leaves it
    queued; and as long as it is at the head of the queue, the report
    of any other change throws the same error and only puts that change
    behind it, unhandled. *)
Theorem rejected_change_blocks (p : string) (stat : option Stats.t)
    (fs : FileSystem) (msg : string) :
  _activeChangeCount fs = 0%Z ->
  truthy (Some p) = true ->
  _normalizePath (normalizeUNCPaths (_impl fs)) p false = Throw msg ->
  let c := mkChange (Some p) stat in
  (_externalChanges fs = [] ->
   _enqueueExternalChange (Some p) stat fs = (Throw msg, set_externalChanges [c] fs))
  /\ (forall q path2 stat2,
        _externalChanges fs = c :: q ->
        _enqueueExternalChange path2 stat2 fs
        = (Throw msg, set_externalChanges (c :: q ++ [mkChange path2 stat2]) fs)).
Proof.
  intros Hcount Htruthy Hnorm c.
  assert (Hthrow : forall fs0,
            _impl fs0 = _impl fs ->
            _handleExternalChange (Some p) stat fs0 = (Throw msg, fs0)).
  { intros fs0 Himpl. unfold _handleExternalChange. rewrite Htruthy.
    unfold bind, get, liftResult. by rewrite Himpl, Hnorm. }
  split.
  - intros Hqueue. unfold _enqueueExternalChange, bind, run, get.
    cbn [_activeChangeCount set_externalChanges]. rewrite Hcount, Hqueue. cbn [Z.eqb app].
    unfold _triggerExternalChangesNow, bind, get.
    cbn [_externalChanges set_externalChanges forEach change_path change_stat].
    unfold bind. by rewrite Hthrow.
  - intros q path2 stat2 Hqueue. unfold _enqueueExternalChange, bind, run, get.
    cbn [_activeChangeCount set_externalChanges]. rewrite Hcount, Hqueue. cbn [Z.eqb app].
    unfold _triggerExternalChangesNow, bind, get.
    cbn [_externalChanges set_externalChanges forEach change_path change_stat].
    unfold bind. by rewrite Hthrow.
Qed.

Lemma rejected_change_blocks_witness :
  let fs := newFileSystem emptyImpl in
  _activeChangeCount fs = 0%Z
  /\ truthy (Some "a/b") = true
  /\ _normalizePath false "a/b" false = Throw "Paths must be absolute: 'a/b'"
  /\ _enqueueExternalChange (Some "a/b") None fs
     = (Throw "Paths must be absolute: 'a/b'",
        set_externalChanges [mkChange (Some "a/b") None] fs).
Proof.
  intros fs.
  assert (H3 : _normalizePath (normalizeUNCPaths (_impl fs)) "a/b" false
               = Throw "Paths must be absolute: 'a/b'") by reflexivity.
  split; [reflexivity|]. split; [reflexivity|]. split; [exact H3|].
  exact (proj1 (rejected_change_blocks "a/b" None fs "Paths must be absolute: 'a/b'"
                  eq_refl eq_refl H3) eq_refl).
Defined.
(** ** The index stays keyed by the paths of its entries *)

Lemma indexKeyed_getEntryForPath directory path fs :
  indexKeyed fs -> indexKeyed (snd (_getEntryForPath directory path fs)).
Proof.
  intros Hk.
  destruct (_normalizePath (normalizeUNCPaths (_impl fs)) path directory) as [n|msg] eqn:Hn.
  - destruct (getEntryForPath_spec directory path n fs Hn)
      as (r & fs' & E & _ & _ & _ & Hk' & _).
    rewrite E. by apply Hk'.
  - by rewrite getEntryForPath_state, Hn.
Qed.

Lemma indexKeyed_getFileForPath gp pp path fs :
  indexKeyed fs -> indexKeyed (snd (getFileForPath gp pp path fs)).
Proof.
  unfold getFileForPath, bind, get.
  destruct (_getProtocolAdapter _ None fs) as [adapter|];
    [|apply indexKeyed_getEntryForPath].
  destruct (fileImpl adapter); [|apply indexKeyed_getEntryForPath].
  cbn [newEntry snd]. intros Hk q r Hr. cbn [_index entries set_entries] in *.
  destruct (Hk q r Hr) as (e & He & Hp). exists e. split; [|done].
  by apply lookup_app_l_Some.
Qed.

Lemma indexKeyed_addEntryForPathIfRequired fileEntry path fs :
  is_Some (entries fs !! fileEntry) ->
  indexKeyed fs -> indexKeyed (addEntryForPathIfRequired fileEntry path fs).
Proof.
  intros [e He] Hk. unfold addEntryForPathIfRequired, getEntry.
  destruct (_index fs !! path); [done|].
  unfold addEntry, pathOf. rewrite He. intros q r Hq.
  cbn [_index set_index entries] in *.
  destruct (decide (fullPath e = q)) as [<-|Hne].
  - rewrite lookup_insert_eq in Hq. injection Hq as <-. by exists e.
  - rewrite lookup_insert_ne in Hq by done. by apply Hk.
Qed.

Lemma indexKeyed_resolveStatCallback isWatched gp pp path err stat fs :
  indexKeyed fs ->
  indexKeyed (snd (resolveStatCallback isWatched gp pp path err stat fs)).
Proof.
  intros Hk. unfold resolveStatCallback.
  destruct (truthy err); [done|]. destruct stat as [st|]; [|done].
  unfold bind at 1.
  assert (Hitem : indexKeyed
            (snd ((if Stats.isFile st then getFileForPath gp pp path
                   else getDirectoryForPath gp path) fs))).
  { destruct (Stats.isFile st);
      [by apply indexKeyed_getFileForPath | by apply indexKeyed_getEntryForPath]. }
  destruct ((if Stats.isFile st then getFileForPath gp pp path
             else getDirectoryForPath gp path) fs) as [[item|msg] fs1]; [|done].
  cbn [snd] in Hitem. unfold bind, get, run, ret.
  destruct (isWatched fs1 item); [|done]. cbn [snd].
  eapply indexFrame_indexKeyed; [|exact Hitem].
  by apply cachesOnly_indexFrame, cachesOnly_updateEntry.
Qed.

Lemma indexKeyed_create isWatched gp pp c fs :
  given (inr c) fs = true ->
  indexKeyed fs -> indexKeyed (create isWatched gp pp c fs).
Proof.
  destruct c as [path|path|fileEntry path|path err stat]; cbn [create given];
    intros Hgiven.
  - apply indexKeyed_getFileForPath.
  - apply indexKeyed_getEntryForPath.
  - apply indexKeyed_addEntryForPathIfRequired.
    by destruct (entries fs !! fileEntry).
  - apply indexKeyed_resolveStatCallback.
Qed.

Lemma indexKeyed_steps isWatched name parentPath gp pp steps :
  forall fs,
    allGiven isWatched name parentPath gp pp steps fs = true ->
    indexKeyed fs ->
    indexKeyed (forEach_ (step isWatched name parentPath gp pp) steps fs).
Proof.
  induction steps as [|s steps IH]; intros fs Hgiven Hk; [done|].
  cbn [allGiven] in Hgiven. apply andb_true_iff in Hgiven as [Hs Hrest].
  change (forEach_ (step isWatched name parentPath gp pp) (s :: steps) fs)
    with (forEach_ (step isWatched name parentPath gp pp) steps
            (step isWatched name parentPath gp pp s fs)).
  apply IH; [done|]. destruct s as [op|c]; cbn [step].
  - eapply indexFrame_indexKeyed; [apply indexFrame_perform | done].
  - by apply indexKeyed_create.
Qed.

(** X18. The index stays keyed by the paths of its entries, through any
    sequence of these steps: [watch], [unwatch], the backend reporting
    the end of a watch or unwatch command, [_unwatchAll],
    [_beginChange], [_endChange], [_enqueueExternalChange],
    [clearAllCaches], [_handleDirectoryChange], a directory listing
    arriving, [getFileForPath], [getDirectoryForPath],
    [addEntryForPathIfRequired] with an existing entry, and the backend
    answering the [stat] request of [resolve].  If every entry of the
    index is filed under its own path before, so it is after, and then
    no entry is filed under two paths.  Renaming ([_handleRename]) and
    the methods not named here are not among the steps. *)
Theorem index_stays_keyed (isWatched : FileSystem -> ref -> bool)
    (name parentPath : Entry -> string)
    (getPathForVirtualServingURL : string -> option string)
    (parseUrlProtocol : string -> string)
    (steps : list (Operation + Creation)) (fs : FileSystem) :
  allGiven isWatched name parentPath getPathForVirtualServingURL
    parseUrlProtocol steps fs = true ->
  indexKeyed fs ->
  let fs' :=
    forEach_ (step isWatched name parentPath getPathForVirtualServingURL
                parseUrlProtocol) steps fs in
  indexKeyed fs'
  /\ forall path1 path2 r,
       _index fs' !! path1 = Some r -> _index fs' !! path2 = Some r ->
       path1 = path2.
Proof.
  intros Hgiven Hk fs'.
  assert (Hk' : indexKeyed fs') by by apply indexKeyed_steps.
  split; [exact Hk'|]. intros path1 path2 r H1 H2.
  destruct (Hk' _ _ H1) as (e1 & He1 & <-).
  destruct (Hk' _ _ H2) as (e2 & He2 & <-). congruence.
Qed.

(** *** The examples are keyed *)

Lemma indexKeyed_twoDirectories : indexKeyed twoDirectories.
Proof.
  apply (indexKeyed_getEntryForPath true "/a/"), (indexKeyed_getEntryForPath true "/a/b/").
  intros q r H. discriminate H.
Qed.

Lemma indexKeyed_childWatched : indexKeyed childWatched.
Proof.
  eapply indexFrame_indexKeyed; [|exact indexKeyed_twoDirectories].
  eapply indexFrame_trans; [apply indexFrame_watch | apply indexFrame_requestCb].
Qed.

Lemma unwatch_lifecycle_witness :
  let w := WatchedRoot.mk 0 acceptAll None WatchedRoot.ACTIVE in
  let fs2 := requestCb unwatched None
               (unwatch unwatched 0 (Some (CbClient 2)) childWatched) in
  _watchRequests childWatched = []
  /\ Dict.get (pathOf childWatched 0) (_watchedRoots childWatched) = Some 0
  /\ roots childWatched !! 0 = Some w
  /\ WatchedRoot.entry w = 0
  /\ indexKeyed childWatched
  /\ _watchedRoots fs2 = []
  /\ _index fs2 !! "/a/b/" = None
  /\ _index fs2 !! "/a/" = Some 1.
Proof.
  intros w fs2.
  assert (H1 : _watchRequests childWatched = []) by reflexivity.
  assert (H2 : Dict.get (pathOf childWatched 0) (_watchedRoots childWatched) = Some 0)
    by reflexivity.
  assert (H3 : roots childWatched !! 0 = Some w) by reflexivity.
  assert (H4 : WatchedRoot.entry w = 0) by reflexivity.
  do 4 (split; [done|]). split; [exact indexKeyed_childWatched|].
  destruct (unwatch_lifecycle unwatched 0 2 childWatched 0 w H1 H2 H3 H4
              indexKeyed_childWatched) as (_ & Hdone).
  destruct (Hdone None) as (Hreg & Hidx & _).
  split; [exact Hreg|]. split; [exact (Hidx "/a/b/") | exact (Hidx "/a/")].
Defined.

Lemma unwatchAll_offline_witness :
  NoDup (Dict.keys (_watchedRoots childWatched))
  /\ _watchedRoots (snd (_unwatchAll unwatched childWatched)) = []
  /\ _watchRequests (snd (_unwatchAll unwatched childWatched))
     = [mkRequest unwatchPath 0 None (CbUnwatchEntry 0 (CbUnwatchAll 0))]
  /\ backendCalls (snd (_unwatchAll unwatched childWatched))
     = [(watchPath, "/a/b/", None); (unwatchPath, "/a/b/", None)].
Proof.
  assert (H : NoDup (Dict.keys (_watchedRoots childWatched))).
  { change (NoDup ["/a/b/"]). apply NoDup_singleton. }
  split; [exact H|].
  destruct (unwatchAll_offline unwatched childWatched H) as (_ & Hr & _ & Hq & Hc & _).
  split; [exact Hr|]. split; [exact Hq | exact Hc].
Defined.

Lemma handleDirectoryChange_unwatched_witness :
  let d := mkEntry "/a/b/" false None (Some (Children [2; 3])) in
  let fs := set_entries [d; mkEntry "/a/" false None None] twoDirectories in
  let k := CcDirectoryChange 0 (Some [2; 3]) (DcClient 1) in
  entries fs !! 0 = Some d
  /\ _findWatchedRootForPath (fullPath d) fs = None
  /\ trace (applyContentsCallback unwatched noName noName k [3; 4]
              (_handleDirectoryChange 0 (DcClient 1) fs))
     = [GetContents 0 k; CallDirClient 1 (Some [4]) (Some [2])].
Proof.
  intros d fs k.
  assert (H1 : entries fs !! 0 = Some d) by reflexivity.
  assert (H2 : _findWatchedRootForPath (fullPath d) fs = None) by reflexivity.
  split; [exact H1|]. split; [exact H2|].
  destruct (handleDirectoryChange_unwatched unwatched noName noName fs 0 d [3; 4] 1 H1 H2)
    as (Ht1 & _ & Ht2 & _).
  cbn zeta in Ht1, Ht2.
  transitivity (trace (_handleDirectoryChange 0 (DcClient 1) fs)
                ++ [CallDirClient 1 (Some [4]) (Some [2])]); [exact Ht2|].
  exact (f_equal (fun t => t ++ [CallDirClient 1 (Some [4]) (Some [2])]) Ht1).
Defined.

Lemma index_stays_keyed_witness :
  let steps :=
    [inr (GetDirectory "/a/b/");
     inl (OpWatch 0 acceptAll None (Some (CbClient 1)));
     inl (OpRequestCb None);
     inr (GetFile "/a/b/x.txt");
     inr (AddEntry 1 "/a/b/y.txt");
     inl (OpEnqueueExternalChange (Some "/a/b/x.txt") None);
     inr (ResolveStat "/a/c" None (Some (Stats.mk false true 0%Z)));
     inl (OpUnwatch 0 None);
     inl (OpRequestCb None)] in
  let fs' :=
    forEach_ (step unwatched noName noName noVirtualServing Url.protocol) steps
      (newFileSystem emptyImpl) in
  allGiven unwatched noName noName noVirtualServing Url.protocol steps
    (newFileSystem emptyImpl) = true
  /\ indexKeyed (newFileSystem emptyImpl)
  /\ indexKeyed fs'
  /\ _index fs' !! "/a/c/" = Some 2
  /\ _index fs' !! "/a/b/y.txt" = None.
Proof.
  intros steps fs'.
  assert (Hgiven : allGiven unwatched noName noName noVirtualServing Url.protocol
                     steps (newFileSystem emptyImpl) = true) by reflexivity.
  assert (Hk : indexKeyed (newFileSystem emptyImpl)).
  { intros q r H. discriminate H. }
  split; [exact Hgiven|]. split; [exact Hk|].
  split; [|split; vm_compute; reflexivity].
  exact (proj1 (index_stays_keyed unwatched noName noName noVirtualServing
                  Url.protocol steps (newFileSystem emptyImpl) Hgiven Hk)).
Defined.

(** ** Resolving a path *)

Lemma normalizePath_directory_of_file p n :
  _normalizePath false p false = Ok n ->
  _normalizePath false p true = Ok (_ensureTrailingSlash n).
Proof.
  rewrite !normalizePath_unfold. destruct (negb (isAbsolutePath p)); [done|].
  cbn [andb]. unfold normalizeCore.
  destruct (if hasDotDot _ then _ else _) as [r0|msg]; [|done].
  by intros [= <-].
Qed.

(** X19. What [resolve] creates it finds again.  When [resolve] has
    found no entry for a path and the backend then reports a file or a
    directory there, the entry created is of the kind reported, under
    the normalised path, which for a directory ends with a slash; and
    a later [resolve] of the same path finds this entry in the index,
    also for a directory whose path was given without its final slash,
    and does not turn to the backend again. *)
Theorem resolve_finds_created (isWatched : FileSystem -> ref -> bool)
    (getPathForVirtualServingURL : string -> option string)
    (parseUrlProtocol : string -> string) (path n : string) (st : Stats.t)
    (fs : FileSystem) :
  normalizeUNCPaths (_impl fs) = false ->
  _normalizePath false path false = Ok n ->
  resolve path fs = (Ok (ResolveByBackend path), fs) ->
  getPathForVirtualServingURL path = None ->
  (Stats.isFile st = true -> adapterFileImpl parseUrlProtocol path fs = None) ->
  exists item fs1 e,
    resolveStatCallback isWatched getPathForVirtualServingURL parseUrlProtocol
      path None (Some st) fs
    = (Ok (None, Some item, Some st), fs1)
    /\ entries fs1 !! item = Some e
    /\ isFile e = Stats.isFile st
    /\ fullPath e = (if Stats.isFile st then n else _ensureTrailingSlash n)
    /\ resolve path fs1 = (Ok (ResolveByEntry item), fs1).
Proof.
  intros Hunc Hn Hfirst Hserved Hadapter.
  (* the first [resolve] has found nothing under either path *)
  assert (Hmiss : _index fs !! n = None /\ _index fs !! _ensureTrailingSlash n = None).
  { unfold resolve, bind, get, liftResult in Hfirst. rewrite Hunc, Hn in Hfirst.
    unfold ret, getEntry in Hfirst.
    destruct (_index fs !! n); [done|].
    by destruct (_index fs !! _ensureTrailingSlash n). }
  destruct Hmiss as [Hmiss Hmiss'].
  set (nn := if Stats.isFile st then n else _ensureTrailingSlash n).
  set (item := length (entries fs)).
  set (fs0 := set_index (<[nn := item]> (_index fs))
                (set_entries (entries fs ++ [freshEntry nn (Stats.isFile st)]) fs)).
  assert (Hcreate :
    (if Stats.isFile st
     then getFileForPath getPathForVirtualServingURL parseUrlProtocol path
     else getDirectoryForPath getPathForVirtualServingURL path) fs
    = (Ok item, fs0)).
  { subst nn fs0. destruct (Stats.isFile st) eqn:Hkind.
    - unfold getFileForPath, servedPath, bind, get. rewrite Hserved.
      specialize (Hadapter eq_refl). unfold adapterFileImpl in Hadapter.
      assert (Hget : _getEntryForPath false path fs
                     = (Ok item,
                        set_index (<[n := item]> (_index fs))
                          (set_entries (entries fs ++ [freshEntry n true]) fs))).
      { by rewrite getEntryForPath_state, Hunc, Hn, Hmiss. }
      destruct (_getProtocolAdapter (parseUrlProtocol path) None fs) as [adapter|];
        [|exact Hget].
      by rewrite Hadapter.
    - unfold getDirectoryForPath, servedPath. rewrite Hserved.
      by rewrite getEntryForPath_state, Hunc,
           (normalizePath_directory_of_file path n Hn), Hmiss'. }
  set (fs1 := if isWatched fs0 item
              then updateEntry (set_stat (Some st)) item fs0 else fs0).
  set (e := if isWatched fs0 item
            then set_stat (Some st) (freshEntry nn (Stats.isFile st))
            else freshEntry nn (Stats.isFile st)).
  exists item, fs1, e.
  assert (Hidx : _index fs1 = <[nn := item]> (_index fs)).
  { subst fs1. by destruct (isWatched fs0 item). }
  assert (Himpl : _impl fs1 = _impl fs).
  { subst fs1. by destruct (isWatched fs0 item). }
  split; [|split; [|split; [|split]]].
  - unfold resolveStatCallback. cbn [truthy]. unfold bind at 1. rewrite Hcreate.
    unfold bind, get, run, ret. subst fs1. by destruct (isWatched fs0 item).
  - assert (Hnew : entries fs0 !! item = Some (freshEntry nn (Stats.isFile st))).
    { subst fs0 item. cbn [entries set_entries set_index]. apply lookup_snoc. }
    subst fs1 e. destruct (isWatched fs0 item); [|exact Hnew].
    unfold updateEntry. cbn [entries set_entries].
    rewrite list_lookup_alter, Hnew. by destruct (decide (item = item)).
  - subst e. by destruct (isWatched fs0 item).
  - subst e. by destruct (isWatched fs0 item).
  - unfold resolve, bind, get, liftResult. rewrite Himpl, Hunc, Hn.
    unfold ret, getEntry. rewrite Hidx. subst nn.
    destruct (Stats.isFile st); [by rewrite lookup_insert_eq|].
    destruct (decide (_ensureTrailingSlash n = n)) as [E|Hne].
    + by rewrite E, lookup_insert_eq.
    + rewrite lookup_insert_ne, Hmiss by done. by rewrite lookup_insert_eq.
Qed.

Lemma resolve_finds_created_witness :
  let fs := newFileSystem emptyImpl in
  let st := Stats.mk false true 0 in
  normalizeUNCPaths (_impl fs) = false
  /\ _normalizePath false "/a/b" false = Ok "/a/b"
  /\ resolve "/a/b" fs = (Ok (ResolveByBackend "/a/b"), fs)
  /\ noVirtualServing "/a/b" = None
  /\ (Stats.isFile st = true -> adapterFileImpl Url.protocol "/a/b" fs = None)
  /\ exists item fs1 e,
       resolveStatCallback unwatched noVirtualServing Url.protocol "/a/b" None (Some st) fs
       = (Ok (None, Some item, Some st), fs1)
       /\ entries fs1 !! item = Some e
       /\ fullPath e = "/a/b/"
       /\ resolve "/a/b" fs1 = (Ok (ResolveByEntry item), fs1).
Proof.
  intros fs st.
  assert (H5 : Stats.isFile st = true -> adapterFileImpl Url.protocol "/a/b" fs = None)
    by (intros _; reflexivity).
  do 4 (split; [reflexivity|]). split; [exact H5|].
  destruct (resolve_finds_created unwatched noVirtualServing Url.protocol "/a/b" "/a/b"
              st fs eq_refl eq_refl eq_refl eq_refl H5)
    as (item & fs1 & e & E1 & E2 & _ & E3 & E4).
  exists item, fs1, e. repeat split; assumption.
Defined.

(** ** Filing an entry that exists in memory only *)

(** X20. [addEntryForPathIfRequired] leaves the index as it is when it
    has an entry for the given path; otherwise it files the given entry
    under the entry's own path, which need not be the given one.  It
    creates no entry, keeps an index keyed by the paths of its entries
    so, and doing it twice is doing it once. *)
Theorem addEntryForPathIfRequired_files (fileEntry : ref) (path : string)
    (e : Entry) (fs : FileSystem) :
  entries fs !! fileEntry = Some e ->
  let fs' := addEntryForPathIfRequired fileEntry path fs in
  (forall r, _index fs !! path = Some r -> fs' = fs)
  /\ (_index fs !! path = None ->
      _index fs' = <[fullPath e := fileEntry]> (_index fs))
  /\ entries fs' = entries fs
  /\ (indexKeyed fs -> indexKeyed fs')
  /\ addEntryForPathIfRequired fileEntry path fs' = fs'.
Proof.
  intros He. cbn zeta. unfold addEntryForPathIfRequired, getEntry.
  assert (Hp : pathOf fs fileEntry = fullPath e) by (unfold pathOf; by rewrite He).
  destruct (_index fs !! path) as [r|] eqn:Hr.
  - rewrite Hr. repeat split; try done.
  - unfold addEntry. rewrite Hp. cbn [_index set_index entries].
    split; [done|]. split; [done|]. split; [done|]. split.
    + intros Hk q r Hq. cbn [_index set_index entries] in *.
      destruct (decide (fullPath e = q)) as [<-|Hne].
      * rewrite lookup_insert_eq in Hq. injection Hq as <-. by exists e.
      * rewrite lookup_insert_ne in Hq by done. by apply Hk.
    + destruct (<[fullPath e := fileEntry]> (_index fs) !! path); [done|].
      unfold pathOf. cbn [entries set_index _index]. rewrite He.
      rewrite insert_insert_eq. by destruct fs.
Qed.

Lemma addEntryForPathIfRequired_files_witness :
  let e := mkEntry "/untitled.txt" true None None in
  let fs := set_entries [e] (newFileSystem emptyImpl) in
  entries fs !! 0 = Some e
  /\ _index (addEntryForPathIfRequired 0 "/untitled.txt" fs) !! "/untitled.txt" = Some 0.
Proof.
  intros e fs.
  assert (H : entries fs !! 0 = Some e) by reflexivity.
  split; [exact H|].
  destruct (addEntryForPathIfRequired_files 0 "/untitled.txt" e fs H) as (_ & Hi & _).
  cbn zeta in Hi. rewrite (Hi eq_refl). apply lookup_insert_eq.
Defined.

(** ** External changes of a directory *)

(** The callback [_handleExternalChange] makes for a directory, applied
    to a directory whose cache is cleared. *)
Lemma dirCallback_settles (isWatched : FileSystem -> ref -> bool) (entry : ref)
    (stat : option Stats.t) (added removed : option (list ref)) (d : Entry)
    (fs0 fsC : FileSystem) :
  cachesOnly fs0 fsC ->
  trace fsC = trace fs0 ->
  entries fsC !! entry = Some (cleared d) ->
  isFile d = false ->
  exists fsU,
    cachesOnly fs0 fsU
    /\ trace fsU = trace fs0
    /\ entries fsU !! entry = Some (mkEntry (fullPath d) false stat None)
    /\ applyDirCallback isWatched (DcExternalChange entry stat) added removed fsC
       = (if isWatched fsU entry
          then _fireChangeEvent (Some entry) added removed fsU
          else fsU).
Proof.
  intros Hc Ht He Hkind.
  exists (updateEntry (set_stat stat) entry fsC). split; [|split; [|split]].
  - eapply cachesOnly_trans; [exact Hc|]. by apply cachesOnly_updateEntry.
  - exact Ht.
  - unfold updateEntry. cbn [entries set_entries].
    rewrite list_lookup_alter, He. destruct (decide (entry = entry)); [|done].
    cbn. unfold set_stat, cleared. cbn. by rewrite Hkind.
  - reflexivity.
Qed.

(** X21. An external change of an indexed directory is never held back
    by the modification time it reports.  The directory loses its
    cache and is asked for its contents.  When it has answered, and the
    directory is under no watched root, or the filter of its root
    rejects it, or the listing differs in nothing from the contents it
    had cached (in the remaining case the callback waits for entries
    to be watched and unwatched), the directory has the reported stat
    in the place of the one it had cached, whichever is the newer, and
    nothing cached as its contents; only caches have changed since the
    request; and a change event for the directory, with the entries
    added and removed, is triggered then exactly if [_isWatched] holds
    of the directory in that state. *)
Theorem handleExternalChange_directory (isWatched : FileSystem -> ref -> bool)
    (name parentPath : Entry -> string) (fs : FileSystem) (p np : string)
    (entry : ref) (d : Entry) (stat : option Stats.t) (contents : list ref) :
  truthy (Some p) = true ->
  _normalizePath (normalizeUNCPaths (_impl fs)) p false = Ok np ->
  getEntry np fs = Some entry ->
  entries fs !! entry = Some d ->
  isFile d = false ->
  let old := childrenOf d in
  let k := CcDirectoryChange entry old (DcExternalChange entry stat) in
  let added :=
    match old with
    | Some o => Some (List.filter (fun entry => negb (includes entry o)) contents)
    | None => None
    end in
  let removed :=
    match old with
    | Some o => Some (List.filter (fun entry => negb (includes entry contents)) o)
    | None => None
    end in
  let accepted :=
    match _findWatchedRootForPath (fullPath d) fs with
    | Some r =>
        match roots fs !! r with
        | Some w => WatchedRoot.filter w (name (cleared d)) (parentPath (cleared d))
        | None => false
        end
    | None => false
    end in
  let differences :=
    match added with Some l => length l | None => 0 end
    + match removed with Some l => length l | None => 0 end in
  exists fs1,
    _handleExternalChange (Some p) stat fs = (Ok tt, fs1)
    /\ trace fs1 = trace fs ++ [GetContents entry k]
    /\ entries fs1 !! entry = Some (cleared d)
    /\ (accepted = false \/ differences = 0 ->
        exists fsU,
          cachesOnly fs1 fsU
          /\ trace fsU = trace fs1
          /\ entries fsU !! entry = Some (mkEntry (fullPath d) false stat None)
          /\ applyContentsCallback isWatched name parentPath k contents fs1
             = (if isWatched fsU entry
                then _fireChangeEvent (Some entry) added removed fsU
                else fsU)
          /\ trace (applyContentsCallback isWatched name parentPath k contents fs1)
             = trace fs1
               ++ (if isWatched fsU entry
                   then [TriggerChange (Some entry) added removed]
                   else [])).
Proof.
  intros Htruthy Hnorm Hget Hd Hkind old k added removed accepted differences.
  assert (Hpath : pathOf fs entry = fullPath d) by (unfold pathOf; by rewrite Hd).
  set (fs1 := _handleDirectoryChange entry (DcExternalChange entry stat) fs).
  exists fs1.
  destruct (clearCachedData_entries_only false entry fs) as [es1 H1].
  assert (E1 : fs1 = emit (GetContents entry k) (set_entries es1 fs)).
  { subst fs1. unfold _handleDirectoryChange. rewrite Hd, H1. reflexivity. }
  assert (Hes1 : es1 !! entry = Some (cleared d)).
  { change es1 with (entries (set_entries es1 fs)). rewrite <- H1.
    rewrite clearCachedData_explicit, Hd. cbn [entries set_entries].
    rewrite fold_alter_cleared, list_lookup_alter, Hd.
    destruct (decide (entry = entry)); [|done].
    by destruct (bool_decide _). }
  split.
  { unfold _handleExternalChange. rewrite Htruthy.
    unfold bind, get, liftResult. rewrite Hnorm. unfold ret. rewrite Hget, Hd, Hkind.
    reflexivity. }
  split; [by rewrite E1|]. split; [by rewrite E1|].
  (* the listing arrives *)
  intros Himmediate.
  assert (He1 : entries fs1 !! entry = Some (cleared d)) by by rewrite E1.
  assert (Hp1 : pathOf fs1 entry = fullPath d).
  { unfold pathOf. by rewrite He1. }
  assert (Hfind1 : _findWatchedRootForPath (fullPath d) fs1
                   = _findWatchedRootForPath (fullPath d) fs).
  { by rewrite E1. }
  assert (Hroots1 : roots fs1 = roots fs) by by rewrite E1.
  set (clear := fun child fs =>
                  if isUnder fs entry child
                  then _clearCachedData true child fs else fs).
  set (fsC := if accepted then fs1 else visitAll clear fs1).
  assert (HC : cachesOnly fs1 fsC /\ trace fsC = trace fs1
               /\ entries fsC !! entry = Some (cleared d)).
  { subst fsC. destruct accepted.
    - split; [apply cachesOnly_refl|]. by split.
    - destruct (clear_under_entries entry fs1) as ([es2 H2] & Hlook2).
      cbn zeta in H2, Hlook2. fold clear in H2, Hlook2.
      split; [|split].
      + apply (cachesOnly_visitAll clear). intros x fs0. subst clear. cbn beta.
        destruct (isUnder fs0 entry x);
          [apply cachesOnly_clearCachedData | apply cachesOnly_refl].
      + by rewrite H2.
      + rewrite Hlook2, He1. by destruct (_ && _). }
  destruct HC as (HC1 & HC2 & HC3).
  destruct (dirCallback_settles isWatched entry stat added removed d fs1 fsC
              HC1 HC2 HC3 Hkind) as (fsU & HU1 & HU2 & HU3 & HU4).
  assert (E2 : applyContentsCallback isWatched name parentPath k contents fs1
               = applyDirCallback isWatched (DcExternalChange entry stat) added removed
                   fsC).
  { subst k fsC. unfold applyContentsCallback. fold clear.
    rewrite Hp1, Hfind1, Hroots1, He1. subst accepted.
    destruct (_findWatchedRootForPath (fullPath d) fs) as [r|];
      [|subst added removed; by destruct old].
    destruct (roots fs !! r) as [w|]; [|subst added removed; by destruct old].
    destruct (WatchedRoot.filter w (name (cleared d)) (parentPath (cleared d)));
      [|subst added removed; by destruct old].
    cbn [negb]. destruct Himmediate as [?|Hzero]; [done|].
    subst differences added removed. destruct old as [o|].
    - cbn iota. cbn iota in Hzero. by rewrite Hzero.
    - reflexivity. }
  exists fsU. split; [exact HU1|]. split; [exact HU2|]. split; [exact HU3|].
  rewrite E2, HU4. split; [reflexivity|].
  destruct (isWatched fsU entry); cbn [_fireChangeEvent emit trace set_trace].
  - by rewrite HU2.
  - by rewrite HU2, app_nil_r.
Qed.

Lemma handleExternalChange_directory_witness :
  let d := mkEntry "/a/b/" false (Some (Stats.mk false true 10)) None in
  let fs := set_entries [d; mkEntry "/a/" false None None] childWatched in
  let older := Some (Stats.mk false true 5) in
  let k := CcDirectoryChange 0 None (DcExternalChange 0 older) in
  truthy (Some "/a/b/") = true
  /\ _normalizePath (normalizeUNCPaths (_impl fs)) "/a/b/" false = Ok "/a/b/"
  /\ getEntry "/a/b/" fs = Some 0
  /\ entries fs !! 0 = Some d
  /\ isFile d = false
  /\ exists fs1 fsU,
       _handleExternalChange (Some "/a/b/") older fs = (Ok tt, fs1)
       /\ entries fsU !! 0 = Some (mkEntry "/a/b/" false older None)
       /\ underActiveRoot fsU 0 = true
       /\ trace (applyContentsCallback underActiveRoot noName noName k [3; 4] fs1)
          = trace fs1 ++ [TriggerChange (Some 0) None None].
Proof.
  intros d fs older k.
  do 5 (split; [reflexivity|]).
  destruct (handleExternalChange_directory underActiveRoot noName noName fs
              "/a/b/" "/a/b/" 0 d older [3; 4] eq_refl eq_refl eq_refl eq_refl eq_refl)
    as (fs1 & E1 & _ & _ & Hlisting).
  destruct (Hlisting (or_intror eq_refl)) as (fsU & Hc & _ & HU & _ & Ht).
  assert (Hw : underActiveRoot fsU 0 = true).
  { destruct Hc as (es & t & -> & Hp & _).
    injection E1 as <-. unfold underActiveRoot, pathOf.
    cbn [entries set_trace set_entries] in HU |- *. rewrite HU. reflexivity. }
  exists fs1, fsU. split; [exact E1|]. split; [exact HU|]. split; [exact Hw|].
  by rewrite Hw in Ht.
Defined.
